(** * RateWise: the request execution pipeline, embedded in Rocq

  A shallow embedding of the core of the RateWise client
  ([src/ratewise/retry.py], [circuit_breaker.py], [cache.py],
  [logging.py], [client.py]) together with the properties its
  specification states about it.

  Conventions of the embedding.
    - Python [float]s are idealised as rationals ([Q]): rounding and NaN
      are outside the model, the [OverflowError] of a float power is in
      it.  Statements about delays use [==].
    - Python [int]s are [Z].
    - [str] is [string], one [ascii] for each character, so that
      [String.length] is [len] and slices count characters: the text of
      the model is the text whose code points are below 256.  The case
      mappings [str.upper]/[str.lower] are modelled on ASCII text
      ([Py.isascii]).
    - [dict]/[OrderedDict] are association lists in insertion order with
      pairwise distinct keys; [Set[int]] and [Set[str]] are [gset]s.
    - Exceptions are values of the type [Exception]; a function that may
      raise returns a sum or an option.
    - What the standard library and the transport do (SHA-256, JSON
      rendering, float and date parsing, URL splitting, regular
      expressions, the wire exchange, the clock, the random generator) is
      taken as a parameter: a class of operations or an oracle. *)

From Stdlib Require Import ZArith QArith Qpower Qabs Lia Lqa String Ascii List.
From Stdlib Require Import Permutation Sorted OrdersEx.
From stdpp Require Import base gmap strings.
Import ListNotations.

Set Default Proof Using "Type".

(* ===================================================================== *)
(** * Python built-ins used by the code *)
(* ===================================================================== *)

Module Py.

Local Open Scope Q_scope.

Definition Qltb (a b : Q) : bool := negb (Qle_bool b a).

(** [min(a, b)]: the first argument unless the second is strictly less. *)
Definition min (a b : Q) : Q := if Qltb b a then b else a.

(** [max(a, b)]: the first argument unless the second is strictly greater. *)
Definition max (a b : Q) : Q := if Qltb a b then b else a.

(** [int(x)] on a float: truncation towards zero. *)
Definition int (x : Q) : Z := Z.quot (Qnum x) (Zpos (Qden x)).

(** Truth value of a float: [0.0] is falsy. *)
Definition truthy (x : Q) : bool := negb (Qeq_bool x 0).

(** Truth value of an [Optional[float]]: [None] and [0.0] are falsy. *)
Definition truthy_opt (x : option Q) : bool :=
  match x with
  | None => false
  | Some v => truthy v
  end.

(** [random.uniform(a, b)] is [a + (b - a) * random()]; [u] is the value
      drawn by [random()]. *)
Definition uniform (a b u : Q) : Q := a + (b - a) * u.

(** [s.isascii()]: every character is below 128. *)
Fixpoint isascii (s : string) : bool :=
  match s with
  | EmptyString => true
  | String c s' => Nat.ltb (nat_of_ascii c) 128 && isascii s'
  end.

(** [str.upper] and [str.lower] on ASCII text, where they change nothing
      but the letters.  Outside ASCII Python follows the Unicode case
      mappings, which these functions do not: what is proved of them is
      proved of the code on strings that satisfy [isascii]. *)
Definition upper_ascii (c : ascii) : ascii :=
  let n := nat_of_ascii c in
  if Nat.leb 97 n && Nat.leb n 122 then ascii_of_nat (n - 32) else c.

Definition lower_ascii (c : ascii) : ascii :=
  let n := nat_of_ascii c in
  if Nat.leb 65 n && Nat.leb n 90 then ascii_of_nat (n + 32) else c.

Fixpoint upper (s : string) : string :=
  match s with
  | EmptyString => EmptyString
  | String c s' => String (upper_ascii c) (upper s')
  end.

Fixpoint lower (s : string) : string :=
  match s with
  | EmptyString => EmptyString
  | String c s' => String (lower_ascii c) (lower s')
  end.

(** [needle in haystack] on strings. *)
Fixpoint contains (needle haystack : string) : bool :=
  String.prefix needle haystack ||
  match haystack with
  | EmptyString => false
  | String _ rest => contains needle rest
  end.

(** [sep.join(parts)]. *)
Fixpoint join (sep : string) (parts : list string) : string :=
  match parts with
  | [] => EmptyString
  | [p] => p
  | p :: rest => String.append p (String.append sep (join sep rest))
  end.

(** [s.replace(old, new)] for a non-empty [old]: the non-overlapping
      occurrences, left to right.  [fuel] bounds the scan by the length. *)
Fixpoint replace_from (fuel : nat) (old new s : string) : string :=
  match fuel with
  | O => s
  | S fuel' =>
        match s with
        | EmptyString => EmptyString
        | String c rest =>
            if String.prefix old s
            then String.append new
                   (replace_from fuel' old new
                      (String.substring (String.length old)
                         (String.length s - String.length old) s))
            else String c (replace_from fuel' old new rest)
        end
  end.

(** [s.replace("", new)] puts [new] before every character and at the end. *)
Fixpoint intersperse (new s : string) : string :=
  match s with
  | EmptyString => new
  | String c rest => String.append new (String c (intersperse new rest))
  end.

Definition replace (old new s : string) : string :=
  match old with
  | EmptyString => intersperse new s
  | _ => replace_from (String.length s) old new s
  end.

(** Association lists standing for [dict]s. *)
Section Dict.
Context {V : Type}.

Fixpoint lookup (k : string) (d : list (string * V)) : option V :=
  match d with
  | [] => None
  | (k', v) :: d' => if String.eqb k k' then Some v else lookup k d'
  end.

(** [del d[k]]. *)
Definition del (k : string) (d : list (string * V)) : list (string * V) :=
  List.filter (fun kv => negb (String.eqb k (fst kv))) d.

(** [d[k] = v]: an existing key keeps its position. *)
Fixpoint setitem (k : string) (v : V) (d : list (string * V))
  : list (string * V) :=
  match d with
  | [] => [(k, v)]
  | (k', v') :: d' =>
      if String.eqb k k' then (k, v) :: d' else (k', v') :: setitem k v d'
  end.

(** [OrderedDict.move_to_end(k)] for a key that is present. *)
Definition move_to_end (k : string) (d : list (string * V))
  : list (string * V) :=
  match lookup k d with
  | None => d
  | Some v => del k d ++ [(k, v)]
  end.
End Dict.

End Py.

(* ===================================================================== *)
(** * exceptions.py *)
(* ===================================================================== *)

(** The exception classes that cross the pipeline.  The first eight are
  raised by collaborators and built-ins ([httpx], [time.sleep] and
  [urlparse], [OrderedDict.popitem], the float power, [raise None]); the
  others are the library's own, with the fields the claims use. *)
Inductive Exception : Type :=
| HttpxTimeoutException
| HttpxConnectError
| HttpxOtherError
| ValueError
| KeyError
| OverflowError
| ZeroDivisionError
| TypeError
| RateLimitExceeded (attempts : Z) (retry_after : option Z)
| ServerError (status_code : Z)
| CircuitBreakerOpen (failure_count : Z)
| TimeoutError (cause : Exception)
| ConnectionError (cause : Exception)
| RequestError (cause : Exception)
| RequestErrorNoCause.

(* ===================================================================== *)
(** * retry.py *)
(* ===================================================================== *)

Module retry.

Local Open Scope Q_scope.

Record ExponentialBackoff : Type := {
  initial_delay : Q;
  max_delay : Q;
  multiplier : Q;
  jitter : bool;
  jitter_ratio : Q
}.

(** The least magnitude that does not round to a finite float:
      [2^1024 - 2^970]. *)
Definition float_overflow : Q := 2 ^ 1024 - 2 ^ 970.

(** [x ** n] for a float [x] and an int [n].  The exponent is converted to
      a float first, which raises [OverflowError] on an int beyond the
      floats; zero to a negative power raises [ZeroDivisionError]; a power
      beyond the floats raises [OverflowError]. *)
Definition float_pow (x : Q) (n : Z) : Exception + Q :=
  if Qle_bool float_overflow (Qabs (inject_Z n)) then inl OverflowError
  else if Qeq_bool x 0 && (n <? 0)%Z then inl ZeroDivisionError
  else
    let power := x ^ n in
    if Qle_bool float_overflow (Qabs power) then inl OverflowError
    else inr power.

(** [ExponentialBackoff.calculate_delay]; [u] is the number drawn by
      [random.uniform], consulted only when [jitter] is set.  The power is
      the one operation of the method that raises. *)
Definition calculate_delay (self : ExponentialBackoff) (u : Q) (attempt : Z)
  : Exception + Q :=
  match float_pow (multiplier self) (attempt - 1) with
  | inl e => inl e
  | inr power =>
      let delay := Py.min (initial_delay self * power) (max_delay self) in
      if jitter self then
        let jitter_range := delay * jitter_ratio self in
        let delay := delay + Py.uniform (- jitter_range) jitter_range u in
        inr (Py.max 0 delay)
      else inr delay
  end.


Record RetryConfig : Type := {
  max_attempts : Z;
  retry_on_status : gset Z;
  respect_retry_after : bool;
  max_retry_after : Q;
  retry_on_timeout : bool;
  retry_on_connection_error : bool;
  idempotent_methods : gset string
}.

Definition default_retry_statuses : gset Z :=
  {[ 429%Z; 500%Z; 502%Z; 503%Z; 504%Z ]}.

Definition default_idempotent_methods : gset string :=
  {[ "GET"%string; "HEAD"%string; "OPTIONS"%string; "PUT"%string;
       "DELETE"%string ]}.

Definition default_config (max_attempts : Z) : RetryConfig :=
  {| max_attempts := max_attempts;
       retry_on_status := default_retry_statuses;
       respect_retry_after := true;
       max_retry_after := 300;
       retry_on_timeout := true;
       retry_on_connection_error := true;
       idempotent_methods := default_idempotent_methods |}.

Definition should_retry_on_status (status_code : Z)
      (config : option RetryConfig) : bool :=
  let retry_statuses :=
      match config with
      | None => default_retry_statuses
      | Some c => retry_on_status c
      end in
  bool_decide (status_code ∈ retry_statuses).

Definition is_idempotent_method (method : string)
      (config : option RetryConfig) : bool :=
  let idempotent :=
      match config with
      | None => default_idempotent_methods
      | Some c => idempotent_methods c
      end in
  bool_decide (Py.upper method ∈ idempotent).

(** What [parse_retry_after] asks of the standard library: [float(s)]
      ([None] for [ValueError]) and, for an HTTP date, the seconds from now
      until that date ([None] when [parsedate_to_datetime] raises). *)
Class HeaderParsers : Type := {
  py_float : string -> option Q;
  seconds_until_http_date : string -> option Q
}.

Definition parse_retry_after `{HeaderParsers} (header_value : option string)
  : option Q :=
  match header_value with
  | None => None
  | Some s =>
        match py_float s with
        | Some f => Some f
        | None =>
            match seconds_until_http_date s with
            | Some delta => Some (Py.max 0 delta)
            | None => None
            end
        end
  end.


(** [RetryStatistics]. *)
Module RetryStatistics.

Record t : Type := {
  total_attempts : Z;
  successful_attempts : Z;
  failed_attempts : Z;
  total_delay : Q;
  delays : list Q;
  status_codes : list Z
}.

Definition new : t :=
  {| total_attempts := 0; successful_attempts := 0; failed_attempts := 0;
     total_delay := 0; delays := []; status_codes := [] |}.

(** [record_attempt]. *)
Definition record_attempt (success : bool) (delay : Q)
    (status_code : option Z) (self : t) : t :=
  {| total_attempts := (total_attempts self + 1)%Z;
     successful_attempts :=
       if success then (successful_attempts self + 1)%Z
       else successful_attempts self;
     failed_attempts :=
       if success then failed_attempts self
       else (failed_attempts self + 1)%Z;
     total_delay :=
       if Py.Qltb 0 delay then total_delay self + delay
       else total_delay self;
     delays :=
       if Py.Qltb 0 delay then delays self ++ [delay] else delays self;
     status_codes :=
       match status_code with
       | Some code => status_codes self ++ [code]
       | None => status_codes self
       end |}.

(** [sum(l)]. *)
Definition sum (l : list Q) : Q := fold_left Qplus l 0.

(** [average_delay]: [sum(self.delays) / len(self.delays)].  The quotient
    is the exact one; the float the code returns is its rounding, which
    stays between the least and the greatest of the delays. *)
Definition average_delay (self : t) : Q :=
  match delays self with
  | [] => 0
  | l => sum l / inject_Z (Z.of_nat (List.length l))
  end.

(** [reset]. *)
Definition reset (self : t) : t := new.

(** A sequence of [record_attempt] calls, oldest first. *)
Definition record_all (calls : list (bool * Q * option Z)) (self : t) : t :=
  fold_left
    (fun st '(success, delay, status_code) =>
       record_attempt success delay status_code st)
    calls self.

End RetryStatistics.

(** The function [wrapper] that [create_retry_decorator] builds around
    [func], for a decorator created without callbacks.  [func] acts on a
    world [W] and either returns a result or raises an exception of [E];
    [backoff] is [config.get_backoff()] and [random attempt] the number
    drawn when the delay of that attempt is computed.  The statistics
    object local to [wrapper] is never read and is left out. *)
Section Decorator.
Context {W E R : Type}.

(** How a call of [wrapper] ends: with the result of [func], with the
    exception of its last call re-raised, with the exception that
    [calculate_delay] raises, with the [ValueError] of [time.sleep] on a
    negative delay, or with the [TypeError] of [raise None]. *)
Inductive WrapperOutcome : Type :=
| WrapperReturns (result : R)
| WrapperReraises (e : E)
| WrapperDelayRaises (e : Exception)
| WrapperSleepValueError
| WrapperRaiseNoneTypeError.

(** What an observer of [wrapper] sees: the world [func] acts on, the
    number of calls of [func] and the completed sleeps. *)
Record WrapperState : Type := {
  world : W;
  calls : Z;
  sleeps : list Q
}.

Variable max_attempts : Z.
Variable backoff : ExponentialBackoff.
Variable random : Z -> Q.
Variable func : W -> (E + R) * W.

(** The values [attempt] takes in [while attempt < max_attempts]. *)
Definition wrapper_attempts : list Z :=
  map Z.of_nat (seq 1 (Z.to_nat max_attempts)).

Fixpoint wrapper_loop (attempts : list Z) (last_exception : option E)
    (s : WrapperState) : WrapperOutcome * WrapperState :=
  match attempts with
  | [] =>
      match last_exception with
      | Some e => (WrapperReraises e, s)
      | None => (WrapperRaiseNoneTypeError, s)
      end
  | attempt :: rest =>
      let '(outcome, w) := func (world s) in
      let s :=
        {| world := w; calls := (calls s + 1)%Z; sleeps := sleeps s |} in
      match outcome with
      | inr result => (WrapperReturns result, s)
      | inl e =>
          if (attempt >=? max_attempts)%Z then (WrapperReraises e, s)
          else
            match calculate_delay backoff (random attempt) attempt with
            | inl e' => (WrapperDelayRaises e', s)
            | inr delay =>
                if Py.Qltb delay 0 then (WrapperSleepValueError, s)
                else
                  wrapper_loop rest (Some e)
                    {| world := world s; calls := calls s;
                       sleeps := sleeps s ++ [delay] |}
            end
      end
  end.

(** [wrapper]. *)
Definition wrapper (w : W) : WrapperOutcome * WrapperState :=
  wrapper_loop wrapper_attempts None
    {| world := w; calls := 0; sleeps := [] |}.

End Decorator.

End retry.


(* ===================================================================== *)
(** * circuit_breaker.py *)
(* ===================================================================== *)

Module circuit_breaker.

Local Open Scope Z_scope.

Inductive CircuitState : Type := CLOSED | OPEN | HALF_OPEN.

Definition state_eqb (a b : CircuitState) : bool :=
  match a, b with
  | CLOSED, CLOSED | OPEN, OPEN | HALF_OPEN, HALF_OPEN => true
  | _, _ => false
  end.

Record CircuitBreakerMetrics : Type := {
  total_calls : Z;
  successful_calls : Z;
  failed_calls : Z;
  rejected_calls : Z;
  state_transitions : Z
}.

(** The breaker.  [expected_exceptions e] and [excluded_exceptions e] stand
    for [isinstance(e, self.expected_exceptions)] and
    [isinstance(e, self.excluded_exceptions)].  The state-change callback
    and the listeners only observe a transition; they are assumed to return
    and are not part of the state. *)
Record CircuitBreaker : Type := {
  failure_threshold : Z;
  success_threshold : Z;
  recovery_timeout : Q;
  expected_exceptions : Exception -> bool;
  excluded_exceptions : Exception -> bool;
  _state : CircuitState;
  _failure_count : Z;
  _success_count : Z;
  _last_failure_time : option Q;
  _metrics : CircuitBreakerMetrics
}.

(** [isinstance(e, classes)] for a tuple of exception classes, each class
    given by the exceptions that are instances of it. *)
Definition isinstance (e : Exception) (classes : list (Exception -> bool))
  : bool :=
  existsb (fun class => class e) classes.

(** [CircuitBreaker.__init__].  The two tuples of exception classes are
    optional; [expected_exceptions or (Exception,)] replaces [None] and the
    empty tuple by the class of all exceptions, and
    [excluded_exceptions or ()] replaces [None] by the empty tuple. *)
Definition new (failure_threshold success_threshold : Z)
    (recovery_timeout : Q)
    (expected_exceptions excluded_exceptions
       : option (list (Exception -> bool)))
  : CircuitBreaker :=
  {| failure_threshold := failure_threshold;
     success_threshold := success_threshold;
     recovery_timeout := recovery_timeout;
     expected_exceptions :=
       fun e =>
         isinstance e
           match expected_exceptions with
           | Some (class :: classes) => class :: classes
           | Some [] | None => [fun _ => true]
           end;
     excluded_exceptions :=
       fun e =>
         isinstance e
           match excluded_exceptions with
           | Some classes => classes
           | None => []
           end;
     _state := CLOSED;
     _failure_count := 0;
     _success_count := 0;
     _last_failure_time := None;
     _metrics := {| total_calls := 0; successful_calls := 0;
                    failed_calls := 0; rejected_calls := 0;
                    state_transitions := 0 |} |}.

Definition set_state (s : CircuitState) (self : CircuitBreaker)
  : CircuitBreaker :=
  {| failure_threshold := failure_threshold self;
     success_threshold := success_threshold self;
     recovery_timeout := recovery_timeout self;
     expected_exceptions := expected_exceptions self;
     excluded_exceptions := excluded_exceptions self;
     _state := s;
     _failure_count := _failure_count self;
     _success_count := _success_count self;
     _last_failure_time := _last_failure_time self;
     _metrics := _metrics self |}.

Definition set_failure_count (n : Z) (self : CircuitBreaker)
  : CircuitBreaker :=
  {| failure_threshold := failure_threshold self;
     success_threshold := success_threshold self;
     recovery_timeout := recovery_timeout self;
     expected_exceptions := expected_exceptions self;
     excluded_exceptions := excluded_exceptions self;
     _state := _state self;
     _failure_count := n;
     _success_count := _success_count self;
     _last_failure_time := _last_failure_time self;
     _metrics := _metrics self |}.

Definition set_success_count (n : Z) (self : CircuitBreaker)
  : CircuitBreaker :=
  {| failure_threshold := failure_threshold self;
     success_threshold := success_threshold self;
     recovery_timeout := recovery_timeout self;
     expected_exceptions := expected_exceptions self;
     excluded_exceptions := excluded_exceptions self;
     _state := _state self;
     _failure_count := _failure_count self;
     _success_count := n;
     _last_failure_time := _last_failure_time self;
     _metrics := _metrics self |}.

Definition set_last_failure_time (t : option Q) (self : CircuitBreaker)
  : CircuitBreaker :=
  {| failure_threshold := failure_threshold self;
     success_threshold := success_threshold self;
     recovery_timeout := recovery_timeout self;
     expected_exceptions := expected_exceptions self;
     excluded_exceptions := excluded_exceptions self;
     _state := _state self;
     _failure_count := _failure_count self;
     _success_count := _success_count self;
     _last_failure_time := t;
     _metrics := _metrics self |}.

Definition set_metrics (m : CircuitBreakerMetrics) (self : CircuitBreaker)
  : CircuitBreaker :=
  {| failure_threshold := failure_threshold self;
     success_threshold := success_threshold self;
     recovery_timeout := recovery_timeout self;
     expected_exceptions := expected_exceptions self;
     excluded_exceptions := excluded_exceptions self;
     _state := _state self;
     _failure_count := _failure_count self;
     _success_count := _success_count self;
     _last_failure_time := _last_failure_time self;
     _metrics := m |}.

Definition count_transition (m : CircuitBreakerMetrics)
  : CircuitBreakerMetrics :=
  {| total_calls := total_calls m;
     successful_calls := successful_calls m;
     failed_calls := failed_calls m;
     rejected_calls := rejected_calls m;
     state_transitions := state_transitions m + 1 |}.

Definition count_success (m : CircuitBreakerMetrics)
  : CircuitBreakerMetrics :=
  {| total_calls := total_calls m + 1;
     successful_calls := successful_calls m + 1;
     failed_calls := failed_calls m;
     rejected_calls := rejected_calls m;
     state_transitions := state_transitions m |}.

Definition count_failure (m : CircuitBreakerMetrics)
  : CircuitBreakerMetrics :=
  {| total_calls := total_calls m + 1;
     successful_calls := successful_calls m;
     failed_calls := failed_calls m + 1;
     rejected_calls := rejected_calls m;
     state_transitions := state_transitions m |}.

Definition count_rejected (m : CircuitBreakerMetrics)
  : CircuitBreakerMetrics :=
  {| total_calls := total_calls m;
     successful_calls := successful_calls m;
     failed_calls := failed_calls m;
     rejected_calls := rejected_calls m + 1;
     state_transitions := state_transitions m |}.

(** [_should_attempt_recovery], with [now] the value of [time.time()]. *)
Definition _should_attempt_recovery (now : Q) (self : CircuitBreaker) : bool :=
  match _last_failure_time self with
  | None => true
  | Some t => Qle_bool (recovery_timeout self) (now - t)
  end.

(** [_transition_to]. *)
Definition _transition_to (new_state : CircuitState) (self : CircuitBreaker)
  : CircuitBreaker :=
  let old_state := _state self in
  if state_eqb old_state new_state then self
  else
    let self := set_state new_state self in
    let self := set_metrics (count_transition (_metrics self)) self in
    let self :=
      if state_eqb new_state CLOSED
      then set_success_count 0 (set_failure_count 0 self)
      else self in
    let self :=
      if state_eqb new_state HALF_OPEN
      then set_success_count 0 self
      else self in
    self.

(** [is_open]: the answer and the breaker afterwards. *)
Definition is_open (now : Q) (self : CircuitBreaker)
  : bool * CircuitBreaker :=
  if state_eqb (_state self) OPEN then
    if _should_attempt_recovery now self
    then (false, _transition_to HALF_OPEN self)
    else (true, self)
  else (false, self).

(** [record_success]. *)
Definition record_success (self : CircuitBreaker) : CircuitBreaker :=
  let self := set_metrics (count_success (_metrics self)) self in
  if state_eqb (_state self) HALF_OPEN then
    let self := set_success_count (_success_count self + 1) self in
    if _success_count self >=? success_threshold self
    then _transition_to CLOSED self
    else self
  else if state_eqb (_state self) CLOSED then set_failure_count 0 self
  else self.

(** Whether [record_failure] counts a failure caused by [exception]. *)
Definition counted (exception : option Exception) (self : CircuitBreaker)
  : bool :=
  match exception with
  | None => true
  | Some e =>
      if excluded_exceptions self e then false
      else expected_exceptions self e
  end.

(** [record_failure]. *)
Definition record_failure (now : Q) (exception : option Exception)
    (self : CircuitBreaker) : CircuitBreaker :=
  if negb (counted exception self) then self
  else
    let self := set_metrics (count_failure (_metrics self)) self in
    let self := set_failure_count (_failure_count self + 1) self in
    let self := set_last_failure_time (Some now) self in
    if state_eqb (_state self) HALF_OPEN then _transition_to OPEN self
    else if state_eqb (_state self) CLOSED then
      if _failure_count self >=? failure_threshold self
      then _transition_to OPEN self
      else self
    else self.

(** [allow_request]. *)
Definition allow_request (now : Q) (self : CircuitBreaker)
  : bool * CircuitBreaker :=
  let '(open, self) := is_open now self in
  if open
  then (false, set_metrics (count_rejected (_metrics self)) self)
  else (true, self).

(** [reset]. *)
Definition reset (self : CircuitBreaker) : CircuitBreaker :=
  let self := _transition_to CLOSED self in
  let self := set_failure_count 0 self in
  let self := set_success_count 0 self in
  set_last_failure_time None self.

(** The operations a client of the breaker can perform, each at the clock
    reading it observes. *)
Inductive Operation : Type :=
| AllowRequest
| IsOpen
| RecordSuccess
| RecordFailure (exception : option Exception)
| Reset.

Definition apply (now : Q) (op : Operation) (self : CircuitBreaker)
  : CircuitBreaker :=
  match op with
  | AllowRequest => snd (allow_request now self)
  | IsOpen => snd (is_open now self)
  | RecordSuccess => record_success self
  | RecordFailure e => record_failure now e self
  | Reset => reset self
  end.

Definition run (ops : list (Q * Operation)) (self : CircuitBreaker)
  : CircuitBreaker :=
  fold_left (fun cb '(now, op) => apply now op cb) ops self.


(** [call]: [func] acts on a world [W] and returns a result or raises.
    [now_check] is the clock reading of the permission check, [now_fail]
    the one of [record_failure]. *)
Definition call {W R : Type} (now_check now_fail : Q)
    (func : W -> (Exception + R) * W) (w : W) (self : CircuitBreaker)
  : (Exception + R) * W * CircuitBreaker :=
  let '(allowed, self) := allow_request now_check self in
  if negb allowed then
    (inl (CircuitBreakerOpen (_failure_count self)), w, self)
  else
    let '(outcome, w) := func w in
    match outcome with
    | inr result => (inr result, w, record_success self)
    | inl e => (inl e, w, record_failure now_fail (Some e) self)
    end.

End circuit_breaker.

(* ===================================================================== *)
(** * cache.py *)
(* ===================================================================== *)

(** [hashlib.sha256(s.encode()).hexdigest()]. *)
Class Hashlib : Type := {
  sha256_hexdigest : string -> string
}.

Module cache.

Local Open Scope Z_scope.

Record CacheEntry (V : Type) : Type := {
  value : V;
  created_at : Q;
  ttl : Q;
  etag : option string;
  last_accessed : option Q
}.
Arguments value {V} _.
Arguments created_at {V} _.
Arguments ttl {V} _.
Arguments etag {V} _.
Arguments last_accessed {V} _.

(** [CacheEntry.is_expired], with [now] the value of [time.time()]. *)
Definition is_expired {V} (now : Q) (self : CacheEntry V) : bool :=
  if Qle_bool (ttl self) 0 then false
  else Qle_bool (ttl self) (now - created_at self).

Record CacheStats : Type := {
  hits : Z;
  misses : Z;
  sets : Z;
  deletes : Z;
  evictions : Z
}.

Definition no_stats : CacheStats :=
  {| hits := 0; misses := 0; sets := 0; deletes := 0; evictions := 0 |}.

Definition add_hit (s : CacheStats) : CacheStats :=
  {| hits := hits s + 1; misses := misses s; sets := sets s;
     deletes := deletes s; evictions := evictions s |}.

Definition add_miss (s : CacheStats) : CacheStats :=
  {| hits := hits s; misses := misses s + 1; sets := sets s;
     deletes := deletes s; evictions := evictions s |}.

Definition add_set (s : CacheStats) : CacheStats :=
  {| hits := hits s; misses := misses s; sets := sets s + 1;
     deletes := deletes s; evictions := evictions s |}.

Definition add_delete (s : CacheStats) : CacheStats :=
  {| hits := hits s; misses := misses s; sets := sets s;
     deletes := deletes s + 1; evictions := evictions s |}.

Definition add_eviction (s : CacheStats) : CacheStats :=
  {| hits := hits s; misses := misses s; sets := sets s;
     deletes := deletes s; evictions := evictions s + 1 |}.

(** [InMemoryCache]: [_cache] is the [OrderedDict], least recently used
    entry first.  The operations that follow take one clock reading [now]:
    they are the methods as they run while the clock stands still; the
    module [Clocked] below has them with a reading of the clock at every
    [time.time()]. *)
Record InMemoryCache (V : Type) : Type := {
  default_ttl : Q;
  max_size : Z;
  namespace : string;
  _cache : list (string * CacheEntry V);
  _stats : CacheStats
}.
Arguments default_ttl {V} _.
Arguments max_size {V} _.
Arguments namespace {V} _.
Arguments _cache {V} _.
Arguments _stats {V} _.

Section InMemoryCache.
Context {V : Type}.

(** [InMemoryCache.__init__]. *)
Definition new (ttl : Q) (max_size : Z) (namespace : string)
  : InMemoryCache V :=
  {| default_ttl := ttl; max_size := max_size; namespace := namespace;
     _cache := []; _stats := no_stats |}.

Definition with_cache (d : list (string * CacheEntry V))
    (self : InMemoryCache V) : InMemoryCache V :=
  {| default_ttl := default_ttl self; max_size := max_size self;
     namespace := namespace self; _cache := d; _stats := _stats self |}.

Definition with_stats (s : CacheStats) (self : InMemoryCache V)
  : InMemoryCache V :=
  {| default_ttl := default_ttl self; max_size := max_size self;
     namespace := namespace self; _cache := _cache self; _stats := s |}.

Definition _make_key (self : InMemoryCache V) (key : string) : string :=
  match namespace self with
  | EmptyString => key
  | ns => String.append ns (String.append ":" key)
  end.

Definition expired_keys (now : Q) (self : InMemoryCache V) : list string :=
  map fst (List.filter (fun kv => is_expired now (snd kv)) (_cache self)).

(** The loop [for key in expired_keys: del self._cache[key]; evictions += 1]. *)
Definition evict_keys (keys : list string) (self : InMemoryCache V)
  : InMemoryCache V :=
  fold_left
    (fun self key =>
       with_stats (add_eviction (_stats self))
         (with_cache (Py.del key (_cache self)) self))
    keys self.

(** [_evict_expired]. *)
Definition _evict_expired (now : Q) (self : InMemoryCache V)
  : InMemoryCache V :=
  evict_keys (expired_keys now self) self.

(** The loop of [_evict_lru] on the entries and the eviction counter;
    [popitem] on an empty dictionary raises [KeyError]. *)
Fixpoint evict_lru_loop (max_size : Z) (d : list (string * CacheEntry V))
    (evicted : Z) : option (list (string * CacheEntry V) * Z) :=
  if Z.of_nat (List.length d) >=? max_size then
    match d with
    | [] => None
    | _ :: d' => evict_lru_loop max_size d' (evicted + 1)
    end
  else Some (d, evicted).

(** [_evict_lru]; [None] stands for the [KeyError]. *)
Definition _evict_lru (self : InMemoryCache V) : option (InMemoryCache V) :=
  match evict_lru_loop (max_size self) (_cache self)
          (evictions (_stats self)) with
  | None => None
  | Some (d, n) =>
      Some (with_stats
              {| hits := hits (_stats self); misses := misses (_stats self);
                 sets := sets (_stats self); deletes := deletes (_stats self);
                 evictions := n |}
              (with_cache d self))
  end.

(** [get]. *)
Definition get (now : Q) (key : string) (self : InMemoryCache V)
  : option V * InMemoryCache V :=
  let full_key := _make_key self key in
  let self := _evict_expired now self in
  match Py.lookup full_key (_cache self) with
  | None => (None, with_stats (add_miss (_stats self)) self)
  | Some entry =>
      if is_expired now entry then
        (None,
         with_stats (add_miss (_stats self))
           (with_cache (Py.del full_key (_cache self)) self))
      else
        let entry' :=
          {| value := value entry; created_at := created_at entry;
             ttl := ttl entry; etag := etag entry;
             last_accessed := Some now |} in
        (Some (value entry),
         with_stats (add_hit (_stats self))
           (with_cache (Py.del full_key (_cache self) ++ [(full_key, entry')])
              self))
  end.

(** [set]; [None] stands for the [KeyError] of [_evict_lru]. *)
Definition set (now : Q) (key : string) (v : V) (ttl : option Q)
    (etag : option string) (self : InMemoryCache V)
  : option (InMemoryCache V) :=
  let full_key := _make_key self key in
  let effective_ttl :=
    match ttl with
    | Some t => t
    | None => default_ttl self
    end in
  match _evict_lru self with
  | None => None
  | Some self =>
      let entry :=
        {| value := v; created_at := now; ttl := effective_ttl;
           etag := etag; last_accessed := Some now |} in
      let d := Py.setitem full_key entry (_cache self) in
      let d := Py.move_to_end full_key d in
      Some (with_stats (add_set (_stats self)) (with_cache d self))
  end.

(** [delete]. *)
Definition delete (key : string) (self : InMemoryCache V)
  : bool * InMemoryCache V :=
  let full_key := _make_key self key in
  match Py.lookup full_key (_cache self) with
  | Some _ =>
      (true,
       with_stats (add_delete (_stats self))
         (with_cache (Py.del full_key (_cache self)) self))
  | None => (false, self)
  end.

(** [clear]. *)
Definition clear (self : InMemoryCache V) : InMemoryCache V :=
  with_cache [] self.

(** [exists]. *)
Definition exists_ (now : Q) (key : string) (self : InMemoryCache V)
  : bool * InMemoryCache V :=
  let full_key := _make_key self key in
  match Py.lookup full_key (_cache self) with
  | None => (false, self)
  | Some entry =>
      if is_expired now entry
      then (false, with_cache (Py.del full_key (_cache self)) self)
      else (true, self)
  end.

(** [size]. *)
Definition size (self : InMemoryCache V) : Z :=
  Z.of_nat (List.length (_cache self)).

(** The operations of the cache API that change the cache. *)
Inductive Operation : Type :=
| Get (key : string)
| Set_ (key : string) (v : V) (ttl : option Q) (etag : option string)
| Delete (key : string)
| Exists (key : string)
| Clear.

Definition apply (now : Q) (op : Operation) (self : InMemoryCache V)
  : option (InMemoryCache V) :=
  match op with
  | Get key => Some (snd (get now key self))
  | Set_ key v ttl etag => set now key v ttl etag self
  | Delete key => Some (snd (delete key self))
  | Exists key => Some (snd (exists_ now key self))
  | Clear => Some (clear self)
  end.

(** A sequence of operations, each with the clock reading it observes;
    [None] when one of them raises. *)
Fixpoint run (ops : list (Q * Operation)) (self : InMemoryCache V)
  : option (InMemoryCache V) :=
  match ops with
  | [] => Some self
  | (now, op) :: ops' =>
      match apply now op self with
      | None => None
      | Some self' => run ops' self'
      end
  end.

End InMemoryCache.

Arguments Operation V : clear implicits.

(** The methods that read the clock, with every [time.time()] a reading
    of its own: [clock n] is the n-th reading, and each function returns
    the number of the next reading with its result. *)
Module Clocked.
Section Methods.
Context {V : Type}.
Variable clock : nat -> Q.

(** [CacheEntry.is_expired]; an entry with [ttl <= 0] answers without a
    look at the clock. *)
Definition is_expired (tick : nat) (self : CacheEntry V) : bool * nat :=
  if Qle_bool (ttl self) 0 then (false, tick)
  else (Qle_bool (ttl self) (clock tick - created_at self), S tick).

(** The scan [(k, v.is_expired) for k, v in self._cache.items()]. *)
Fixpoint scan (tick : nat) (d : list (string * CacheEntry V))
  : list (string * bool) * nat :=
  match d with
  | [] => ([], tick)
  | (k, v) :: d' =>
      let '(expired, tick) := is_expired tick v in
      let '(verdicts, tick) := scan tick d' in
      ((k, expired) :: verdicts, tick)
  end.

(** [expired_keys = [k for k, v in self._cache.items() if v.is_expired]]. *)
Definition expired_keys (tick : nat) (self : InMemoryCache V)
  : list string * nat :=
  let '(verdicts, tick) := scan tick (_cache self) in
  (map fst (List.filter snd verdicts), tick).

(** [_evict_expired]. *)
Definition _evict_expired (tick : nat) (self : InMemoryCache V)
  : InMemoryCache V * nat :=
  let '(keys, tick) := expired_keys tick self in
  (evict_keys keys self, tick).

(** [get]. *)
Definition get (tick : nat) (key : string) (self : InMemoryCache V)
  : option V * InMemoryCache V * nat :=
  let full_key := _make_key self key in
  let '(self, tick) := _evict_expired tick self in
  match Py.lookup full_key (_cache self) with
  | None => (None, with_stats (add_miss (_stats self)) self, tick)
  | Some entry =>
      let '(expired, tick) := is_expired tick entry in
      if expired then
        (None,
         with_stats (add_miss (_stats self))
           (with_cache (Py.del full_key (_cache self)) self),
         tick)
      else
        let entry' :=
          {| value := value entry; created_at := created_at entry;
             ttl := ttl entry; etag := etag entry;
             last_accessed := Some (clock tick) |} in
        (Some (value entry),
         with_stats (add_hit (_stats self))
           (with_cache (Py.del full_key (_cache self) ++ [(full_key, entry')])
              self),
         S tick)
  end.

(** [set]: [created_at] and [last_accessed] are two readings. *)
Definition set (tick : nat) (key : string) (v : V) (ttl : option Q)
    (etag : option string) (self : InMemoryCache V)
  : option (InMemoryCache V * nat) :=
  let full_key := _make_key self key in
  let effective_ttl :=
    match ttl with
    | Some t => t
    | None => default_ttl self
    end in
  match _evict_lru self with
  | None => None
  | Some self =>
      let entry :=
        {| value := v; created_at := clock tick; ttl := effective_ttl;
           etag := etag; last_accessed := Some (clock (S tick)) |} in
      let d := Py.setitem full_key entry (_cache self) in
      let d := Py.move_to_end full_key d in
      Some (with_stats (add_set (_stats self)) (with_cache d self),
            S (S tick))
  end.

(** [exists]. *)
Definition exists_ (tick : nat) (key : string) (self : InMemoryCache V)
  : bool * InMemoryCache V * nat :=
  let full_key := _make_key self key in
  match Py.lookup full_key (_cache self) with
  | None => (false, self, tick)
  | Some entry =>
      let '(expired, tick) := is_expired tick entry in
      if expired
      then (false, with_cache (Py.del full_key (_cache self)) self, tick)
      else (true, self, tick)
  end.

Definition apply (tick : nat) (op : Operation V) (self : InMemoryCache V)
  : option (InMemoryCache V * nat) :=
  match op with
  | Get key =>
      let '(_, self, tick) := get tick key self in Some (self, tick)
  | Set_ key v ttl etag => set tick key v ttl etag self
  | Delete key => Some (snd (delete key self), tick)
  | Exists key =>
      let '(_, self, tick) := exists_ tick key self in Some (self, tick)
  | Clear => Some (clear self, tick)
  end.

(** A sequence of operations; [None] when one of them raises. *)
Fixpoint run (tick : nat) (ops : list (Operation V))
    (self : InMemoryCache V) : option (InMemoryCache V * nat) :=
  match ops with
  | [] => Some (self, tick)
  | op :: ops' =>
      match apply tick op self with
      | None => None
      | Some (self', tick') => run tick' ops' self'
      end
  end.

End Methods.
End Clocked.

(** [CacheEntry.ttl_remaining]; [None] stands for [float("inf")]. *)
Definition ttl_remaining {V} (now : Q) (self : CacheEntry V) : option Q :=
  if Qle_bool (ttl self) 0 then None
  else Some (Py.max 0 (ttl self - (now - created_at self))).

(** [CacheStats.total_requests] and [CacheStats.hit_rate].  The quotient
    of [hit_rate] is the exact one; the float the code returns is its
    rounding, which stays within [0, 1]. *)
Definition total_requests (s : CacheStats) : Z := hits s + misses s.

Definition hit_rate (s : CacheStats) : Q :=
  if total_requests s =? 0 then 0%Q
  else (inject_Z (hits s) / inject_Z (total_requests s))%Q.

(** The function [wrapper] that [cached(ttl, cache)] builds around [func],
    on arguments whose key is [cache_key].  [func] acts on a world [W] and
    returns a value ([None] for Python's [None]) or raises. *)
Section Cached.
Context {W E V : Type}.

Inductive CachedOutcome : Type :=
| CachedReturns (result : option V)
| CachedRaises (e : E)
| CachedKeyError.

Definition cached_wrapper (ttl : Q) (now_get now_set : Q)
    (cache_key : string) (func : W -> (E + option V) * W) (w : W)
    (c : InMemoryCache (option V))
  : CachedOutcome * W * InMemoryCache (option V) :=
  let '(cached_value, c) := get now_get cache_key c in
  match cached_value with
  | Some (Some v) => (CachedReturns (Some v), w, c)
  | _ =>
      let '(outcome, w) := func w in
      match outcome with
      | inl e => (CachedRaises e, w, c)
      | inr result =>
          match set now_set cache_key result (Some ttl) None c with
          | None => (CachedKeyError, w, c)
          | Some c' => (CachedReturns result, w, c')
          end
      end
  end.

End Cached.

(** What [generate_cache_key] asks of [json.dumps]: the rendering of the
    sorted parameter items and of the selected header items. *)
Class JsonDumps (A : Type) : Type := {
  json_dumps_params : list (string * A) -> string;
  json_dumps_headers : list (string * string) -> string
}.

Section Fingerprint.
Context {A : Type} `{Hashlib} `{JsonDumps A}.

(** [sorted] on strings and on dictionary items (whose keys are pairwise
    distinct, so that the order of the items is the order of their keys). *)
Fixpoint insert_sorted (k : string) (l : list string) : list string :=
  match l with
  | [] => [k]
  | k' :: l' =>
      if String.leb k k' then k :: l else k' :: insert_sorted k l'
  end.

Definition sorted (l : list string) : list string :=
  fold_right insert_sorted [] l.

Fixpoint insert_item {B : Type} (x : string * B) (l : list (string * B))
  : list (string * B) :=
  match l with
  | [] => [x]
  | y :: l' =>
      if String.leb (fst x) (fst y) then x :: l else y :: insert_item x l'
  end.

Definition sorted_items {B : Type} (d : list (string * B))
  : list (string * B) :=
  fold_right insert_item [] d.

Definition nonempty {B : Type} (l : option (list B)) : bool :=
  match l with
  | None | Some [] => false
  | Some _ => true
  end.

Definition items_of {B : Type} (l : option (list B)) : list B :=
  match l with
  | None => []
  | Some l => l
  end.

(** The list [header_parts]. *)
Definition header_parts (headers : list (string * string))
    (include_headers : list string) : list (string * string) :=
  flat_map
    (fun k =>
       match Py.lookup k headers with
       | Some v => [(k, v)]
       | None => []
       end)
    (sorted include_headers).

(** The string that is hashed. *)
Definition key_string (method url : string)
    (params : option (list (string * A)))
    (headers : option (list (string * string)))
    (include_headers : option (list string)) : string :=
  let key_parts := [Py.upper method; url] in
  let key_parts :=
    if nonempty params
    then key_parts ++ [json_dumps_params (sorted_items (items_of params))]
    else key_parts in
  let key_parts :=
    if nonempty headers && nonempty include_headers then
      match header_parts (items_of headers) (items_of include_headers) with
      | [] => key_parts
      | parts => key_parts ++ [json_dumps_headers parts]
      end
    else key_parts in
  Py.join "|" key_parts.

(** [generate_cache_key]. *)
Definition generate_cache_key (method url : string)
    (params : option (list (string * A)))
    (headers : option (list (string * string)))
    (include_headers : option (list string)) : string :=
  sha256_hexdigest
    (key_string method url params headers include_headers).

End Fingerprint.

End cache.

(* ===================================================================== *)
(** * logging.py *)
(* ===================================================================== *)

Module logging.

Local Open Scope Z_scope.

Inductive MaskStyle : Type := FULL | PARTIAL | HASH.

Record LogConfig : Type := {
  redact_headers : list string;
  redact_patterns : list string;
  redact_query_params : list string;
  mask_style : MaskStyle;
  partial_mask_chars : Z
}.

(** The double quote, and the text of the default patterns. *)
Definition dq : string := String (ascii_of_nat 34) EmptyString.

Definition key_value_pattern (name : string) : string :=
  String.append name
    (String.append "[\"
       (String.append dq
          (String.append "\']?\s*[:=]\s*[\"
             (String.append dq
                (String.append "\']?([^\s\"
                   (String.append dq "\'&]+)")))))).

(** [LogConfig()] with its default field values. *)
Definition default_config : LogConfig :=
  {| redact_headers :=
       [ "authorization"; "x-api-key"; "api-key"; "apikey"; "x-auth-token";
         "cookie"; "set-cookie"; "x-csrf-token" ]%string;
     redact_patterns :=
       [ key_value_pattern "password"; key_value_pattern "token";
         key_value_pattern "secret"; key_value_pattern "api_?key";
         "Bearer\s+([^\s]+)"%string; "Basic\s+([^\s]+)"%string ];
     redact_query_params :=
       [ "password"; "token"; "secret"; "api_key"; "apikey";
         "access_token" ]%string;
     mask_style := PARTIAL;
     partial_mask_chars := 4 |}.

(** [re.compile(pattern, re.IGNORECASE).sub(replacer, s)].  The replacer is
    called on every match with [match.group(0)] and, when
    [match.lastindex] is set, [match.group(1)]. *)
Class Regex : Type := {
  sub_ignorecase : string -> (string -> option string -> string) ->
                   string -> string
}.

(** What [redact_url] asks of [urllib.parse]: [urlparse(url).query]
    ([None] when [urlparse] raises [ValueError], as it does on a malformed
    URL), [parse_qs(query, keep_blank_values=True)] as the items of the
    dictionary, [urlencode(params, doseq=True)], and
    [urlunparse(parsed._replace(query=q))]. *)
Class Urllib : Type := {
  urlparse_query : string -> option string;
  parse_qs : string -> list (string * list string);
  urlencode : list (string * list string) -> string;
  urlunparse_with_query : string -> string -> string
}.

Fixpoint drop (n : nat) (s : string) : string :=
  match n, s with
  | O, _ => s
  | S _, EmptyString => EmptyString
  | S n', String _ s' => drop n' s'
  end.

Fixpoint take (n : nat) (s : string) : string :=
  match n, s with
  | O, _ => EmptyString
  | S _, EmptyString => EmptyString
  | S n', String c s' => String c (take n' s')
  end.

(** The index a slice bound [i] denotes in a string of length [len]. *)
Definition slice_index (i : Z) (len : nat) : nat :=
  if i <? 0 then Z.to_nat (Z.max 0 (Z.of_nat len + i))
  else Nat.min (Z.to_nat i) len.

(** [s[:i]] and [s[i:]]. *)
Definition slice_to (i : Z) (s : string) : string :=
  take (slice_index i (String.length s)) s.

Definition slice_from (i : Z) (s : string) : string :=
  drop (slice_index i (String.length s)) s.

Module RequestLogger.

Definition REDACTION_PLACEHOLDER : string := "***REDACTED***".

Section Methods.
Context `{Hashlib} `{Regex} `{Urllib}.

(** [_mask_value]; [String.length value] is [len(value)], the number of
    characters. *)
Definition _mask_value (config : LogConfig) (value : string) : string :=
  match mask_style config with
  | FULL => REDACTION_PLACEHOLDER
  | PARTIAL =>
      let chars := partial_mask_chars config in
      if Z.of_nat (String.length value) <=? chars * 2 then "****"%string
      else
        String.append (slice_to chars value)
          (String.append "..." (slice_from (- chars) value))
  | HASH =>
      String.append "[HASH:"
        (String.append (slice_to 8 (sha256_hexdigest value)) "]")
  end.

(** The function [replacer] of [_redact_value]. *)
Definition replacer (config : LogConfig) (full_match : string)
    (group1 : option string) : string :=
  let sensitive_part :=
    match group1 with
    | Some g => g
    | None => full_match
    end in
  let masked := _mask_value config sensitive_part in
  Py.replace sensitive_part masked full_match.

(** [_redact_value]. *)
Definition _redact_value (config : LogConfig) (value : string) : string :=
  fold_left
    (fun result pattern => sub_ignorecase pattern (replacer config) result)
    (redact_patterns config) value.

Definition lowered_set (names : list string) : gset string :=
  list_to_set (map Py.lower names).

(** [redact_headers]. *)
Definition redact_headers (config : LogConfig)
    (headers : list (string * string)) : list (string * string) :=
  let redact_set := lowered_set (redact_headers config) in
  fold_left
    (fun redacted '(key, value) =>
       if bool_decide (Py.lower key ∈ redact_set)
       then Py.setitem key (_mask_value config value) redacted
       else Py.setitem key (_redact_value config value) redacted)
    headers [].

(** The dictionary [redacted_params] built by [redact_url]. *)
Definition redacted_params (config : LogConfig)
    (params : list (string * list string)) : list (string * list string) :=
  let redact_set := lowered_set (redact_query_params config) in
  fold_left
    (fun redacted '(key, values) =>
       if bool_decide (Py.lower key ∈ redact_set)
       then Py.setitem key (map (_mask_value config) values) redacted
       else Py.setitem key values redacted)
    params [].

(** [redact_url]: the redacted URL, or the [ValueError] of [urlparse]. *)
Definition redact_url (config : LogConfig) (url : string)
  : Exception + string :=
  match urlparse_query url with
  | None => inl ValueError
  | Some EmptyString => inr url
  | Some query =>
      let params := parse_qs query in
      let new_query := urlencode (redacted_params config params) in
      inr (urlunparse_with_query url new_query)
  end.

(** [log_request].  The records handed to the logger are not part of the
    model; what is left of the call is whether it returns: [redact_url]
    runs first and its exception propagates, [redact_headers] and
    [redact_body] raise none. *)
Definition log_request (config : LogConfig) (method url : string)
    (headers : list (string * string)) : Exception + unit :=
  match redact_url config url with
  | inl e => inl e
  | inr _ => inr tt
  end.

End Methods.

End RequestLogger.

End logging.

(* ===================================================================== *)
(** * models.py *)
(* ===================================================================== *)

Module models.

Local Open Scope Z_scope.

Record ClientStats : Type := {
  total_requests : Z;
  successful_requests : Z;
  failed_requests : Z;
  total_retries : Z;
  cache_hits : Z;
  cache_misses : Z;
  circuit_breaker_trips : Z
}.

Definition new : ClientStats :=
  {| total_requests := 0; successful_requests := 0; failed_requests := 0;
     total_retries := 0; cache_hits := 0; cache_misses := 0;
     circuit_breaker_trips := 0 |}.

Definition add_total_request (s : ClientStats) : ClientStats :=
  {| total_requests := total_requests s + 1;
     successful_requests := successful_requests s;
     failed_requests := failed_requests s;
     total_retries := total_retries s;
     cache_hits := cache_hits s;
     cache_misses := cache_misses s;
     circuit_breaker_trips := circuit_breaker_trips s |}.

Definition add_successful_request (s : ClientStats) : ClientStats :=
  {| total_requests := total_requests s;
     successful_requests := successful_requests s + 1;
     failed_requests := failed_requests s;
     total_retries := total_retries s;
     cache_hits := cache_hits s;
     cache_misses := cache_misses s;
     circuit_breaker_trips := circuit_breaker_trips s |}.

Definition add_failed_request (s : ClientStats) : ClientStats :=
  {| total_requests := total_requests s;
     successful_requests := successful_requests s;
     failed_requests := failed_requests s + 1;
     total_retries := total_retries s;
     cache_hits := cache_hits s;
     cache_misses := cache_misses s;
     circuit_breaker_trips := circuit_breaker_trips s |}.

Definition add_retry (s : ClientStats) : ClientStats :=
  {| total_requests := total_requests s;
     successful_requests := successful_requests s;
     failed_requests := failed_requests s;
     total_retries := total_retries s + 1;
     cache_hits := cache_hits s;
     cache_misses := cache_misses s;
     circuit_breaker_trips := circuit_breaker_trips s |}.

Definition add_cache_hit (s : ClientStats) : ClientStats :=
  {| total_requests := total_requests s;
     successful_requests := successful_requests s;
     failed_requests := failed_requests s;
     total_retries := total_retries s;
     cache_hits := cache_hits s + 1;
     cache_misses := cache_misses s;
     circuit_breaker_trips := circuit_breaker_trips s |}.

Definition add_cache_miss (s : ClientStats) : ClientStats :=
  {| total_requests := total_requests s;
     successful_requests := successful_requests s;
     failed_requests := failed_requests s;
     total_retries := total_retries s;
     cache_hits := cache_hits s;
     cache_misses := cache_misses s + 1;
     circuit_breaker_trips := circuit_breaker_trips s |}.

Definition add_circuit_breaker_trip (s : ClientStats) : ClientStats :=
  {| total_requests := total_requests s;
     successful_requests := successful_requests s;
     failed_requests := failed_requests s;
     total_retries := total_retries s;
     cache_hits := cache_hits s;
     cache_misses := cache_misses s;
     circuit_breaker_trips := circuit_breaker_trips s + 1 |}.

End models.

(* ===================================================================== *)
(** * client.py *)
(* ===================================================================== *)

Module client.

Local Open Scope Z_scope.

(** The part of an [httpx.Response] the pipeline reads: the status, the
    value of [headers.get("Retry-After")] and the body text. *)
Record Response : Type := {
  status_code : Z;
  retry_after_header : option string;
  text : string
}.

(** What one call of [_make_request] meets outside the client: the outcome
    of the transport on each attempt (an exception raised or a response),
    the number [random()] yields when the delay of that attempt is
    computed, the n-th of the clock readings on which the call depends
    (those of the cache lookup and store, of the breaker's permission
    check and of its failure record), and [urljoin], which raises
    [ValueError] on a malformed URL. *)
Record Environment : Type := {
  transport : Z -> Exception + Response;
  random : Z -> Q;
  clock : nat -> Q;
  urljoin : string -> string -> Exception + string
}.

(** The part of the [RequestContext] of a call that the pipeline reads
    once the middleware has seen it. *)
Record RequestContext : Type := {
  context_method : string;
  context_url : string;
  context_headers : list (string * string)
}.

(** The installed middleware chain as the pipeline meets it.  Both passes
    run code that the client does not control and may raise;
    [process_request] returns the context the call goes on with, the
    result of [process_response] is never read. *)
Record MiddlewareChain : Type := {
  process_request : RequestContext -> Exception + RequestContext;
  process_response : RequestContext -> Response -> Exception + unit
}.

(** The attributes of the client that a call does not change;
    [log_config] is the configuration of its [request_logger]. *)
Record RateWiseClient : Type := {
  base_url : string;
  backoff : retry.ExponentialBackoff;
  retry_config : retry.RetryConfig;
  default_headers : list (string * string);
  middleware : MiddlewareChain;
  log_config : logging.LogConfig
}.

(** The attributes a call changes, and what an observer of the call sees:
    the number of clock readings taken, the arguments of the completed
    [time.sleep] calls and the number of transport attempts issued. *)
Record State : Type := {
  circuit_breaker : circuit_breaker.CircuitBreaker;
  cache : option (cache.InMemoryCache Response);
  _stats : models.ClientStats;
  retry_count : Z;
  _retry_delays : list Q;
  ticks : nat;
  slept : list Q;
  sent : Z
}.

Definition set_circuit_breaker (cb : circuit_breaker.CircuitBreaker)
    (s : State) : State :=
  {| circuit_breaker := cb; cache := cache s; _stats := _stats s;
     retry_count := retry_count s; _retry_delays := _retry_delays s;
     ticks := ticks s; slept := slept s; sent := sent s |}.

Definition set_cache (c : option (cache.InMemoryCache Response))
    (s : State) : State :=
  {| circuit_breaker := circuit_breaker s; cache := c; _stats := _stats s;
     retry_count := retry_count s; _retry_delays := _retry_delays s;
     ticks := ticks s; slept := slept s; sent := sent s |}.

Definition set_stats (st : models.ClientStats) (s : State) : State :=
  {| circuit_breaker := circuit_breaker s; cache := cache s; _stats := st;
     retry_count := retry_count s; _retry_delays := _retry_delays s;
     ticks := ticks s; slept := slept s; sent := sent s |}.

Definition set_retry_count (n : Z) (s : State) : State :=
  {| circuit_breaker := circuit_breaker s; cache := cache s;
     _stats := _stats s; retry_count := n;
     _retry_delays := _retry_delays s;
     ticks := ticks s; slept := slept s; sent := sent s |}.

Definition set_retry_delays (l : list Q) (s : State) : State :=
  {| circuit_breaker := circuit_breaker s; cache := cache s;
     _stats := _stats s; retry_count := retry_count s; _retry_delays := l;
     ticks := ticks s; slept := slept s; sent := sent s |}.

Definition set_ticks (n : nat) (s : State) : State :=
  {| circuit_breaker := circuit_breaker s; cache := cache s;
     _stats := _stats s; retry_count := retry_count s;
     _retry_delays := _retry_delays s;
     ticks := n; slept := slept s; sent := sent s |}.

Definition set_slept (l : list Q) (s : State) : State :=
  {| circuit_breaker := circuit_breaker s; cache := cache s;
     _stats := _stats s; retry_count := retry_count s;
     _retry_delays := _retry_delays s;
     ticks := ticks s; slept := l; sent := sent s |}.

Definition set_sent (n : Z) (s : State) : State :=
  {| circuit_breaker := circuit_breaker s; cache := cache s;
     _stats := _stats s; retry_count := retry_count s;
     _retry_delays := _retry_delays s;
     ticks := ticks s; slept := slept s; sent := n |}.

(** A fresh client state: [__init__] with a new breaker. *)
Definition new_state (cb : circuit_breaker.CircuitBreaker)
    (c : option (cache.InMemoryCache Response)) : State :=
  {| circuit_breaker := cb; cache := c; _stats := models.new;
     retry_count := 0; _retry_delays := [];
     ticks := 0; slept := []; sent := 0 |}.

(** How a call ends. *)
Inductive Outcome : Type :=
| Returned (response : Response)
| Raised (e : Exception).

(** How the [try] suite of one attempt ends: [continue], [return], or an
    exception raised inside the suite, which the [except] clauses of the
    same statement then see. *)
Inductive Suite : Type :=
| SuiteContinue (s : State)
| SuiteReturn (response : Response) (s : State)
| SuiteRaise (e : Exception) (s : State).

(** How one iteration of the loop ends. *)
Inductive Step : Type :=
| Continue (last_exception : option Exception) (s : State)
| Return (response : Response) (s : State)
| Raise (e : Exception) (s : State).

Section Pipeline.
Context {A : Type} `{Hashlib} `{cache.JsonDumps A} `{retry.HeaderParsers}.
Context `{logging.Urllib}.
Variable env : Environment.
Variable self : RateWiseClient.

(** [time.time()]: the next reading of the clock. *)
Definition time_time (s : State) : Q * State :=
  (clock env (ticks s), set_ticks (S (ticks s)) s).

(** [time.sleep(delay)]; a negative argument raises [ValueError]. *)
Definition time_sleep (delay : Q) (s : State) : option State :=
  if Py.Qltb delay 0 then None
  else Some (set_slept (slept s ++ [delay]) s).

Fixpoint lstrip_slash (s : string) : string :=
  match s with
  | String "/" s' => lstrip_slash s'
  | _ => s
  end.

(** [_build_url]. *)
Definition _build_url (endpoint : string) : Exception + string :=
  if String.prefix "http://" endpoint || String.prefix "https://" endpoint
  then inr endpoint
  else urljoin env (String.append (base_url self) "/")
         (lstrip_slash endpoint).

(** [_merge_headers]. *)
Definition _merge_headers (headers : option (list (string * string)))
  : list (string * string) :=
  fold_left (fun merged '(k, v) => Py.setitem k v merged)
    (cache.items_of headers) (default_headers self).

(** [self.circuit_breaker.record_failure()]. *)
Definition breaker_record_failure (s : State) : State :=
  let '(now, s) := time_time s in
  set_circuit_breaker
    (circuit_breaker.record_failure now None (circuit_breaker s)) s.

(** [self.circuit_breaker.record_success()]. *)
Definition breaker_record_success (s : State) : State :=
  set_circuit_breaker (circuit_breaker.record_success (circuit_breaker s)) s.

(** [self.backoff.calculate_delay(attempt)]. *)
Definition backoff_delay (attempt : Z) : Exception + Q :=
  retry.calculate_delay (backoff self) (random env attempt) attempt.

(** The bookkeeping of a retry decided on a response. *)
Definition note_retry (delay : Q) (s : State) : State :=
  let s := set_retry_count (retry_count s + 1) s in
  let s := set_retry_delays (_retry_delays s ++ [delay]) s in
  set_stats (models.add_retry (_stats s)) s.

(** [time.sleep(delay); continue] inside the [try] suite. *)
Definition sleep_and_continue (delay : Q) (s : State) : Suite :=
  match time_sleep delay s with
  | None => SuiteRaise ValueError s
  | Some s => SuiteContinue s
  end.

(** The delay chosen on a 429 response, or the exception of
    [calculate_delay]. *)
Definition delay_on_429 (attempt : Z) (retry_after : option Q)
  : Exception + Q :=
  let chosen :=
    match retry_after with
    | Some r => if Py.truthy r then inr r else backoff_delay attempt
    | None => backoff_delay attempt
    end in
  match chosen with
  | inl e => inl e
  | inr delay =>
      if retry.respect_retry_after (retry_config self)
         && Py.truthy_opt retry_after
      then inr (Py.min delay (retry.max_retry_after (retry_config self)))
      else inr delay
  end.

(** Whether the call reads and writes the cache. *)
Definition uses_cache (method : string) (use_cache : bool) (s : State)
  : bool :=
  match cache s with
  | Some _ => use_cache && String.eqb (Py.upper method) "GET"
  | None => false
  end.

(** The key under which the pipeline caches a request. *)
Definition pipeline_cache_key (method url : string)
    (params : option (list (string * A)))
    (merged_headers : list (string * string)) : string :=
  cache.generate_cache_key method url params (Some merged_headers) None.

(** The [try] suite after the transport has returned [response];
    [context] is the request context that left the middleware.  The calls
    [log_retry] and [log_response] of the request logger hand a formatted
    message to the logger and nothing else; they are not part of the
    state, and neither are [start_time] and [duration]. *)
Definition on_response (method url : string)
    (params : option (list (string * A)))
    (merged_headers : list (string * string)) (use_cache : bool)
    (context : RequestContext)
    (attempt : Z) (response : Response) (s : State) : Suite :=
  let config := retry_config self in
  if status_code response =? 429 then
    let retry_after :=
      retry.parse_retry_after (retry_after_header response) in
    match delay_on_429 attempt retry_after with
    | inl e => SuiteRaise e s
    | inr delay =>
        let s := note_retry delay s in
        if attempt >=? retry.max_attempts config then
          let s := breaker_record_failure s in
          SuiteRaise
            (RateLimitExceeded attempt
               (if Py.truthy_opt retry_after then Some (Py.int delay)
                else None))
            s
        else sleep_and_continue delay s
    end
  else if retry.should_retry_on_status (status_code response) (Some config)
  then
    if negb (retry.is_idempotent_method method (Some config)) then
      let s := breaker_record_failure s in
      SuiteRaise (ServerError (status_code response)) s
    else
      match backoff_delay attempt with
      | inl e => SuiteRaise e s
      | inr delay =>
          let s := note_retry delay s in
          if attempt >=? retry.max_attempts config then
            let s := breaker_record_failure s in
            SuiteRaise (ServerError (status_code response)) s
          else sleep_and_continue delay s
      end
  else
    let s := breaker_record_success s in
    let s := set_stats (models.add_successful_request (_stats s)) s in
    match process_response (middleware self) context response with
    | inl e => SuiteRaise e s
    | inr _ =>
        match cache s with
        | Some c =>
            if use_cache && String.eqb (Py.upper method) "GET"
               && (200 <=? status_code response)
               && (status_code response <? 300)
            then
              let cache_key :=
                pipeline_cache_key method url params merged_headers in
              match cache.Clocked.set (clock env) (ticks s) cache_key
                      response None None c with
              | None => SuiteRaise KeyError s
              | Some (c', tick) =>
                  SuiteReturn response
                    (set_cache (Some c') (set_ticks tick s))
              end
            else SuiteReturn response s
        | None => SuiteReturn response s
        end
    end.

(** The retry that the handlers of the two transport exceptions share:
    the delay is computed and slept inside the handler, so that what
    [calculate_delay] or [time.sleep] raises leaves the call as it is. *)
Definition retry_in_handler (attempt : Z) (e : Exception) (s : State)
  : Step :=
  match backoff_delay attempt with
  | inl e' => Raise e' s
  | inr delay =>
      let s := set_retry_delays (_retry_delays s ++ [delay]) s in
      let s := set_stats (models.add_retry (_stats s)) s in
      match time_sleep delay s with
      | None => Raise ValueError s
      | Some s => Continue (Some e) s
      end
  end.

(** The [except] clauses, tried in order on an exception raised inside the
    [try] suite of attempt [attempt]. *)
Definition on_exception (attempt : Z) (e : Exception) (s : State) : Step :=
  let config := retry_config self in
  match e with
  | HttpxTimeoutException =>
      let s := breaker_record_failure s in
      let s := set_stats (models.add_failed_request (_stats s)) s in
      if retry.retry_on_timeout config
         && (attempt <? retry.max_attempts config)
      then retry_in_handler attempt e s
      else Raise (TimeoutError e) s
  | HttpxConnectError =>
      let s := breaker_record_failure s in
      let s := set_stats (models.add_failed_request (_stats s)) s in
      if retry.retry_on_connection_error config
         && (attempt <? retry.max_attempts config)
      then retry_in_handler attempt e s
      else Raise (ConnectionError e) s
  | _ =>
      let s := breaker_record_failure s in
      let s := set_stats (models.add_failed_request (_stats s)) s in
      Raise (RequestError e) s
  end.

(** One iteration of the [while] loop, [attempt] already incremented. *)
Definition attempt_body (method url : string)
    (params : option (list (string * A)))
    (merged_headers : list (string * string)) (use_cache : bool)
    (context : RequestContext)
    (attempt : Z) (last_exception : option Exception) (s : State) : Step :=
  let s := set_stats (models.add_total_request (_stats s)) s in
  let '(now, s) := time_time s in
  let '(allowed, cb) :=
    circuit_breaker.allow_request now (circuit_breaker s) in
  let s := set_circuit_breaker cb s in
  if negb allowed then
    let s := set_stats (models.add_circuit_breaker_trip (_stats s)) s in
    Raise (CircuitBreakerOpen (circuit_breaker._failure_count cb)) s
  else
    let s := set_sent (sent s + 1) s in
    match transport env attempt with
    | inl e => on_exception attempt e s
    | inr response =>
        match on_response method url params merged_headers use_cache
                context attempt response s with
        | SuiteContinue s => Continue last_exception s
        | SuiteReturn r s => Return r s
        | SuiteRaise e s => on_exception attempt e s
        end
    end.

(** The values [attempt] takes in the iterations of
    [while attempt < max_attempts: attempt += 1]. *)
Definition attempt_numbers (max_attempts : Z) : list Z :=
  map Z.of_nat (seq 1 (Z.to_nat max_attempts)).

(** The loop, and the two [raise] statements that follow it. *)
Fixpoint attempt_loop (method url : string)
    (params : option (list (string * A)))
    (merged_headers : list (string * string)) (use_cache : bool)
    (context : RequestContext)
    (attempts : list Z) (last_exception : option Exception) (s : State)
  : Outcome * State :=
  match attempts with
  | [] =>
      match last_exception with
      | Some e => (Raised e, s)
      | None => (Raised RequestErrorNoCause, s)
      end
  | attempt :: rest =>
      match attempt_body method url params merged_headers use_cache
              context attempt last_exception s with
      | Continue last_exception s =>
          attempt_loop method url params merged_headers use_cache context
            rest last_exception s
      | Return r s => (Returned r, s)
      | Raise e s => (Raised e, s)
      end
  end.

(** The lookup that precedes the loop: [Some response] on a hit. *)
Definition cache_lookup (method url : string)
    (params : option (list (string * A)))
    (merged_headers : list (string * string)) (use_cache : bool) (s : State)
  : option Response * State :=
  match cache s with
  | Some c =>
      if use_cache && String.eqb (Py.upper method) "GET" then
        let cache_key :=
          pipeline_cache_key method url params merged_headers in
        let '(cached, c', tick) :=
          cache.Clocked.get (clock env) (ticks s) cache_key c in
        let s := set_cache (Some c') (set_ticks tick s) in
        match cached with
        | Some r => (Some r, set_stats (models.add_cache_hit (_stats s)) s)
        | None => (None, set_stats (models.add_cache_miss (_stats s)) s)
        end
      else (None, s)
  | None => (None, s)
  end.

(** What precedes the loop once the cache has been missed or passed by:
    the request context goes through the middleware and the request is
    logged.  The result is the context the attempts are made with, or the
    exception that ends the call before any attempt. *)
Definition prepare_request (method url : string)
    (merged_headers : list (string * string))
  : Exception + RequestContext :=
  let context :=
    {| context_method := method; context_url := url;
       context_headers := merged_headers |} in
  match process_request (middleware self) context with
  | inl e => inl e
  | inr context =>
      match logging.RequestLogger.log_request (log_config self)
              (context_method context) (context_url context)
              (context_headers context) with
      | inl e => inl e
      | inr _ => inr context
      end
  end.

(** [_make_request]. *)
Definition _make_request (method endpoint : string)
    (params : option (list (string * A)))
    (headers : option (list (string * string))) (use_cache : bool)
    (s : State) : Outcome * State :=
  match _build_url endpoint with
  | inl e => (Raised e, s)
  | inr url =>
      let merged_headers := _merge_headers headers in
      match cache_lookup method url params merged_headers use_cache s with
      | (Some cached, s) => (Returned cached, s)
      | (None, s) =>
          match prepare_request method url merged_headers with
          | inl e => (Raised e, s)
          | inr context =>
              let s := set_retry_count 0 s in
              let s := set_retry_delays [] s in
              attempt_loop method url params merged_headers use_cache
                context
                (attempt_numbers (retry.max_attempts (retry_config self)))
                None s
          end
      end
  end.

End Pipeline.

End client.

(* ===================================================================== *)
(** * middleware.py *)
(* ===================================================================== *)

Module middleware.

Local Open Scope Z_scope.

(** A value of the [metadata] dictionaries. *)
Inductive MetaValue : Type :=
| MetaFloat (x : Q)
| MetaInt (n : Z)
| MetaBool (b : bool)
| MetaStr (s : string).

(** [RequestContext]; the middlewares only ask whether [body] is [None]. *)
Record RequestContext : Type := {
  method : string;
  url : string;
  headers : list (string * string);
  params : option (list (string * string));
  body : option string;
  timeout : option Q;
  metadata : list (string * MetaValue);
  start_time : Q
}.

Record ResponseContext : Type := {
  status_code : Z;
  response_headers : list (string * string);
  response_body : option string;
  elapsed : Q;
  response_metadata : list (string * MetaValue)
}.

Definition with_headers (h : list (string * string)) (c : RequestContext)
  : RequestContext :=
  {| method := method c; url := url c; headers := h; params := params c;
     body := body c; timeout := timeout c; metadata := metadata c;
     start_time := start_time c |}.

Definition with_metadata (m : list (string * MetaValue))
    (c : RequestContext) : RequestContext :=
  {| method := method c; url := url c; headers := headers c;
     params := params c; body := body c; timeout := timeout c;
     metadata := m; start_time := start_time c |}.

Definition with_elapsed (x : Q) (r : ResponseContext) : ResponseContext :=
  {| status_code := status_code r; response_headers := response_headers r;
     response_body := response_body r; elapsed := x;
     response_metadata := response_metadata r |}.

Definition with_response_metadata (m : list (string * MetaValue))
    (r : ResponseContext) : ResponseContext :=
  {| status_code := status_code r; response_headers := response_headers r;
     response_body := response_body r; elapsed := elapsed r;
     response_metadata := m |}.

(** [key in d]. *)
Definition has_key {V : Type} (k : string) (d : list (string * V)) : bool :=
  match Py.lookup k d with
  | Some _ => true
  | None => false
  end.

(** The interface [Middleware]; [now] is the clock reading during the
    call, and [None] stands for an exception raised by [process_response]
    (the standard middlewares raise none in [process_request]). *)
Record Middleware : Type := {
  process_request : Q -> RequestContext -> RequestContext;
  process_response : Q -> RequestContext -> ResponseContext ->
                     option ResponseContext
}.

(** [LoggingMiddleware]: it only writes to the log. *)
Definition LoggingMiddleware : Middleware :=
  {| process_request := fun _ context => context;
     process_response := fun _ _ response => Some response |}.

(** [TimingMiddleware]. *)
Definition TimingMiddleware : Middleware :=
  {| process_request := fun now context =>
       with_metadata
         (Py.setitem "timing_start" (MetaFloat now) (metadata context))
         context;
     process_response := fun now request response =>
       let start :=
         match Py.lookup "timing_start" (metadata request) with
         | Some (MetaFloat t) => Some t
         | Some (MetaInt n) => Some (inject_Z n)
         | Some (MetaBool b) => Some (if b then 1%Q else 0%Q)
         | Some (MetaStr _) => None
         | None => Some (start_time request)
         end in
       match start with
       | Some t => Some (with_elapsed (now - t)%Q response)
       | None => None
       end |}.

(** [HeaderMiddleware(headers)]. *)
Definition HeaderMiddleware (default_headers : list (string * string))
  : Middleware :=
  {| process_request := fun _ context =>
       with_headers
         (fold_left
            (fun hs '(key, value) =>
               if has_key key hs then hs else Py.setitem key value hs)
            default_headers (headers context))
         context;
     process_response := fun _ _ response => Some response |}.

(** [UserAgentMiddleware(user_agent)]. *)
Definition UserAgentMiddleware (user_agent : string) : Middleware :=
  {| process_request := fun _ context =>
       if has_key "User-Agent" (headers context) then context
       else
         with_headers
           (Py.setitem "User-Agent" user_agent (headers context)) context;
     process_response := fun _ _ response => Some response |}.

(** [RetryMetadataMiddleware]. *)
Definition RetryMetadataMiddleware : Middleware :=
  {| process_request := fun _ context =>
       if has_key "retry_count" (metadata context) then context
       else
         with_metadata
           (Py.setitem "retry_count" (MetaInt 0) (metadata context)) context;
     process_response := fun _ request response =>
       Some
         (with_response_metadata
            (Py.setitem "retry_count"
               match Py.lookup "retry_count" (metadata request) with
               | Some v => v
               | None => MetaInt 0
               end
               (response_metadata response))
            response) |}.

(** [ContentTypeMiddleware(default_content_type)]. *)
Definition ContentTypeMiddleware (default_content_type : string)
  : Middleware :=
  {| process_request := fun _ context =>
       match body context with
       | Some _ =>
           if has_key "Content-Type" (headers context) then context
           else
             with_headers
               (Py.setitem "Content-Type" default_content_type
                  (headers context))
               context
       | None => context
       end;
     process_response := fun _ _ response =>
       let content_type :=
         match Py.lookup "Content-Type" (response_headers response) with
         | Some v => v
         | None => EmptyString
         end in
       Some
         (with_response_metadata
            (Py.setitem "is_json"
               (MetaBool (Py.contains "application/json" content_type))
               (Py.setitem "content_type" (MetaStr content_type)
                  (response_metadata response)))
            response) |}.

(** [MiddlewareChain]: the list [_middleware].  [clock i] is the clock
    reading during the call of the i-th middleware that is run. *)
Definition MiddlewareChain : Type := list Middleware.

Fixpoint request_pass (clock : nat -> Q) (i : nat) (chain : MiddlewareChain)
    (context : RequestContext) : RequestContext :=
  match chain with
  | [] => context
  | mw :: rest =>
      request_pass clock (S i) rest (process_request mw (clock i) context)
  end.

(** [MiddlewareChain.process_request]. *)
Definition chain_process_request (clock : nat -> Q) (chain : MiddlewareChain)
    (context : RequestContext) : RequestContext :=
  request_pass clock 0 chain context.

Fixpoint response_pass (clock : nat -> Q) (i : nat)
    (reversed : MiddlewareChain) (request : RequestContext)
    (response : ResponseContext) : option ResponseContext :=
  match reversed with
  | [] => Some response
  | mw :: rest =>
      match process_response mw (clock i) request response with
      | Some response => response_pass clock (S i) rest request response
      | None => None
      end
  end.

(** [MiddlewareChain.process_response]. *)
Definition chain_process_response (clock : nat -> Q)
    (chain : MiddlewareChain) (request : RequestContext)
    (response : ResponseContext) : option ResponseContext :=
  response_pass clock 0 (rev chain) request response.

(** [create_default_middleware_chain]. *)
Definition create_default_middleware_chain : MiddlewareChain :=
  [ TimingMiddleware; UserAgentMiddleware "RateWise/1.0";
    ContentTypeMiddleware "application/json"; LoggingMiddleware ].

End middleware.

(* ===================================================================== *)
(** * Concrete collaborators for the examples *)
(* ===================================================================== *)

Module Examples.

Local Open Scope Z_scope.

(** A stand-in digest: the text itself. *)
#[export] Instance plain_hashlib : Hashlib :=
  {| sha256_hexdigest := fun s => s |}.

Definition render_item (kv : string * string) : string :=
  String.append (fst kv) (String.append "=" (snd kv)).

(** A stand-in for [json.dumps] on string-valued items. *)
#[export] Instance plain_json : cache.JsonDumps string :=
  {| cache.json_dumps_params := fun l => Py.join "," (map render_item l);
     cache.json_dumps_headers := fun l => Py.join "," (map render_item l) |}.

Definition digit_value (c : ascii) : option Z :=
  let n := nat_of_ascii c in
  if Nat.leb 48 n && Nat.leb n 57 then Some (Z.of_nat (n - 48)) else None.

Fixpoint digits_value (acc : Z) (s : string) : option Z :=
  match s with
  | EmptyString => Some acc
  | String c s' =>
      match digit_value c with
      | Some d => digits_value (10 * acc + d) s'
      | None => None
      end
  end.

(** [float] on the unsigned decimal integers; everything else is taken as
    unparseable, also as a date. *)
#[export] Instance decimal_parsers : retry.HeaderParsers :=
  {| retry.py_float := fun s =>
       match s with
       | EmptyString => None
       | _ => option_map inject_Z (digits_value 0 s)
       end;
     retry.seconds_until_http_date := fun _ => None |}.

(** No pattern ever matches. *)
#[export] Instance no_regex : logging.Regex :=
  {| logging.sub_ignorecase := fun _ _ s => s |}.

(** URLs without a query string. *)
#[export] Instance no_query : logging.Urllib :=
  {| logging.urlparse_query := fun _ => Some EmptyString;
     logging.parse_qs := fun _ => [];
     logging.urlencode := fun _ => EmptyString;
     logging.urlunparse_with_query := fun url _ => url |}.

Definition response (status : Z) (retry_after : option string)
  : client.Response :=
  {| client.status_code := status;
     client.retry_after_header := retry_after;
     client.text := "" |}.

(** An environment whose transport gives the listed outcomes in turn (and
    a 200 afterwards), whose clock stands still, whose random draw is
    always [u] and whose URLs are all well formed. *)
Definition environment (outcomes : list (Exception + client.Response))
    (u : Q) : client.Environment :=
  {| client.transport := fun attempt =>
       nth (Z.to_nat (attempt - 1)) outcomes (inr (response 200 None));
     client.random := fun _ => u;
     client.clock := fun _ => 0%Q;
     client.urljoin := fun base url => inr (String.append base url) |}.

(** A transport that answers every attempt in the same way. *)
Definition constant_environment (outcome : Exception + client.Response)
    (u : Q) : client.Environment :=
  {| client.transport := fun _ => outcome;
     client.random := fun _ => u;
     client.clock := fun _ => 0%Q;
     client.urljoin := fun base url => inr (String.append base url) |}.

(** The chain of [create_default_middleware_chain] as the pipeline meets
    it on a request without a body: the request pass adds the header
    [User-Agent] if there is none, and neither pass raises. *)
Definition default_chain : client.MiddlewareChain :=
  {| client.process_request := fun context =>
       inr {| client.context_method := client.context_method context;
              client.context_url := client.context_url context;
              client.context_headers :=
                match Py.lookup "User-Agent"
                        (client.context_headers context) with
                | Some _ => client.context_headers context
                | None =>
                    Py.setitem "User-Agent" "RateWise/1.0"%string
                      (client.context_headers context)
                end |};
     client.process_response := fun _ _ => inr tt |}.

Definition plain_backoff : retry.ExponentialBackoff :=
  {| retry.initial_delay := 1; retry.max_delay := 60;
     retry.multiplier := 2; retry.jitter := false;
     retry.jitter_ratio := 1 # 10 |}.

(** [RateWiseClient(base_url, max_retries=n)] with jitter switched off. *)
Definition a_client (max_retries : Z) : client.RateWiseClient :=
  {| client.base_url := "https://api.example.com";
     client.backoff := plain_backoff;
     client.retry_config := retry.default_config max_retries;
     client.default_headers := [];
     client.middleware := default_chain;
     client.log_config := logging.default_config |}.

Definition fresh_state : client.State :=
  client.new_state (circuit_breaker.new 5 2 60 None None) None.

Definition fresh_state_with_cache : client.State :=
  client.new_state (circuit_breaker.new 5 2 60 None None)
    (Some (cache.new 300 1000 "")).

(** A function that counts its calls in the world and fails on the first
    [failures] of them. *)
Definition flaky (failures : nat) (w : nat) : (unit + nat) * nat :=
  (if Nat.ltb w failures then inl tt else inr w, S w).


(** A function that counts its calls in the world and always raises. *)
Definition failing (w : nat) : (Exception + nat) * nat :=
  (inl HttpxConnectError, S w).


(** A function that counts its calls in the world and returns the count. *)
Definition counting (w : nat) : (unit + option nat) * nat :=
  (inr (Some w), S w).

End Examples.

(* ===================================================================== *)
(** * Notions used in the statements *)
(* ===================================================================== *)


(** The recovery timeout has not elapsed since the last failure. *)
Definition recovery_pending (now : Q) (cb : circuit_breaker.CircuitBreaker)
  : Prop :=
  exists t, circuit_breaker._last_failure_time cb = Some t
            /\ (now - t < circuit_breaker.recovery_timeout cb)%Q.

(** The bounds the breaker keeps on its counters. *)
Definition breaker_invariant (cb : circuit_breaker.CircuitBreaker) : Prop :=
  (circuit_breaker._state cb = circuit_breaker.CLOSED ->
   (circuit_breaker._failure_count cb
    < circuit_breaker.failure_threshold cb)%Z)
  /\ (circuit_breaker._state cb = circuit_breaker.HALF_OPEN ->
      (circuit_breaker._success_count cb
       < circuit_breaker.success_threshold cb)%Z).

(** The entries of a cache that are expired at [now], and the property of
    holding none. *)
Definition expired_entries {V} (now : Q) (c : cache.InMemoryCache V)
  : list (string * cache.CacheEntry V) :=
  List.filter (fun kv => cache.is_expired now (snd kv)) (cache._cache c).

Definition all_live {V} (now : Q) (c : cache.InMemoryCache V) : Prop :=
  Forall (fun kv => cache.is_expired now (snd kv) = false) (cache._cache c).

(** The order in which [sorted] puts two dictionary items. *)
Definition key_le {B : Type} (x y : string * B) : Prop :=
  String.leb (fst x) (fst y) = true.

(** The state in which the transport is called on an attempt the breaker
    has admitted, leaving the breaker as [cb]. *)
Definition admitted (cb : circuit_breaker.CircuitBreaker) (s : client.State)
  : client.State :=
  client.set_sent (client.sent s + 1)
    (client.set_circuit_breaker cb
       (client.set_ticks (S (client.ticks s))
          (client.set_stats (models.add_total_request (client._stats s)) s))).

(** A 2xx status. *)
Definition is_2xx (status : Z) : bool :=
  ((200 <=? status) && (status <? 300))%Z.

(** What a call that returns [r] has done to the cache of state [s] when
    it ends in state [s']: stored [r] under [key] if the call uses the
    cache and [r] is a 2xx response, and nothing otherwise. *)
Definition stored_iff_2xx (clock : nat -> Q) (uses : bool) (key : string)
    (s : client.State) (r : client.Response) (s' : client.State) : Prop :=
  if uses && is_2xx (client.status_code r)
  then exists c c' tick tick',
      client.cache s = Some c
      /\ cache.Clocked.set clock tick key r None None c = Some (c', tick')
      /\ client.cache s' = Some c'
  else client.cache s' = client.cache s.


(** The world after [n] calls of a function that acts on it. *)
Fixpoint world_after {W O : Type} (func : W -> O * W) (n : nat) (w : W) : W :=
  match n with
  | O => w
  | S n' => world_after func n' (snd (func w))
  end.


(** What the retry statistics keep true. *)
Definition statistics_consistent (st : retry.RetryStatistics.t) : Prop :=
  (retry.RetryStatistics.total_attempts st
   = retry.RetryStatistics.successful_attempts st
     + retry.RetryStatistics.failed_attempts st)%Z
  /\ (retry.RetryStatistics.total_delay st
      == fold_left Qplus (retry.RetryStatistics.delays st) 0)%Q
  /\ Forall (fun d => (0 < d)%Q) (retry.RetryStatistics.delays st)
  /\ (Z.of_nat (List.length (retry.RetryStatistics.delays st))
      <= retry.RetryStatistics.total_attempts st)%Z
  /\ (Z.of_nat (List.length (retry.RetryStatistics.status_codes st))
      <= retry.RetryStatistics.total_attempts st)%Z.


(** What the breaker keeps true of its metrics and counters in every state
    it reaches. *)
Definition breaker_accounting (cb : circuit_breaker.CircuitBreaker) : Prop :=
  let m := circuit_breaker._metrics cb in
  (circuit_breaker.total_calls m
   = circuit_breaker.successful_calls m + circuit_breaker.failed_calls m)%Z
  /\ (0 <= circuit_breaker.rejected_calls m)%Z
  /\ (0 <= circuit_breaker.state_transitions m)%Z
  /\ (0 <= circuit_breaker._failure_count cb
      <= circuit_breaker.failed_calls m)%Z
  /\ (0 <= circuit_breaker._success_count cb
      <= circuit_breaker.successful_calls m)%Z
  /\ (circuit_breaker._state cb <> circuit_breaker.CLOSED ->
      (1 <= circuit_breaker._failure_count cb)%Z
      /\ exists t, circuit_breaker._last_failure_time cb = Some t).

(** Successive calls through the breaker, one for each pair of clock
    readings (the one of the permission check and the one of a failure):
    the outcomes, the world and the breaker afterwards. *)
Fixpoint call_each {W R : Type} (times : list (Q * Q))
    (func : W -> (Exception + R) * W) (w : W)
    (cb : circuit_breaker.CircuitBreaker)
  : list (Exception + R) * W * circuit_breaker.CircuitBreaker :=
  match times with
  | [] => ([], w, cb)
  | (now_check, now_fail) :: rest =>
      let '(outcome, w, cb) :=
        circuit_breaker.call now_check now_fail func w cb in
      let '(outcomes, w, cb) := call_each rest func w cb in
      (outcome :: outcomes, w, cb)
  end.


(** The outcomes of [n] successive calls of a function that acts on a
    world. *)
Fixpoint outcomes_after {W O : Type} (func : W -> O * W) (n : nat) (w : W)
  : list O :=
  match n with
  | O => []
  | S n' => fst (func w) :: outcomes_after func n' (snd (func w))
  end.


(** How many operations of a sequence satisfy [p]. *)
Definition count_operations (p : circuit_breaker.Operation -> bool)
    (ops : list (Q * circuit_breaker.Operation)) : Z :=
  Z.of_nat (List.length (List.filter (fun x => p (snd x)) ops)).

Definition is_allow_request (op : circuit_breaker.Operation) : bool :=
  match op with circuit_breaker.AllowRequest => true | _ => false end.

Definition is_record_success (op : circuit_breaker.Operation) : bool :=
  match op with circuit_breaker.RecordSuccess => true | _ => false end.

(** The operations that report no failure and do not reset. *)
Definition is_quiet (op : circuit_breaker.Operation) : bool :=
  match op with
  | circuit_breaker.AllowRequest | circuit_breaker.IsOpen
  | circuit_breaker.RecordSuccess => true
  | _ => false
  end.


(** The entry that [set] builds, and the number of entries that it evicts
    first: as many of the least recently used as leave room for one. *)
Definition stored_entry {V} (now : Q) (v : V) (ttl : option Q)
    (etag : option string) (c : cache.InMemoryCache V) : cache.CacheEntry V :=
  {| cache.value := v;
     cache.created_at := now;
     cache.ttl := match ttl with
                  | Some t => t
                  | None => cache.default_ttl c
                  end;
     cache.etag := etag;
     cache.last_accessed := Some now |}.

Definition lru_excess {V} (c : cache.InMemoryCache V) : nat :=
  Z.to_nat (cache.size c - cache.max_size c + 1).

(** An entry after a read at [now]. *)
Definition touched {V} (now : Q) (e : cache.CacheEntry V)
  : cache.CacheEntry V :=
  {| cache.value := cache.value e;
     cache.created_at := cache.created_at e;
     cache.ttl := cache.ttl e;
     cache.etag := cache.etag e;
     cache.last_accessed := Some now |}.


(** How many operations of a sequence on the cache satisfy [p]. *)
Definition count_cache_operations {V} (p : cache.Operation V -> bool)
    (ops : list (Q * cache.Operation V)) : Z :=
  Z.of_nat (List.length (List.filter (fun x => p (snd x)) ops)).

Definition is_get {V} (op : cache.Operation V) : bool :=
  match op with cache.Get _ => true | _ => false end.

Definition is_set {V} (op : cache.Operation V) : bool :=
  match op with cache.Set_ _ _ _ _ => true | _ => false end.

Definition is_delete {V} (op : cache.Operation V) : bool :=
  match op with cache.Delete _ => true | _ => false end.


(** Whether [redact_headers] masks the header [key] as a whole. *)
Definition is_sensitive_header (config : logging.LogConfig) (key : string)
  : bool :=
  bool_decide
    (Py.lower key
     ∈ logging.RequestLogger.lowered_set (logging.redact_headers config)).


(** The counters of a call that one step of the pipeline leaves alone. *)
Definition same_counts (s s' : client.State) : Prop :=
  client.sent s' = client.sent s
  /\ models.total_requests (client._stats s')
     = models.total_requests (client._stats s)
  /\ models.cache_hits (client._stats s')
     = models.cache_hits (client._stats s)
  /\ models.cache_misses (client._stats s')
     = models.cache_misses (client._stats s).

(** The attempts after which the pipeline may still sleep and go on. *)
Definition may_retry (max_attempts : Z) (attempts : list Z) : list Z :=
  List.filter (fun attempt => (attempt <? max_attempts)%Z) attempts.


(** What a middleware that supplies a default leaves under the name [k] of
    a dictionary that held [old] there: the old value if there was one. *)
Definition or_default {V : Type} (old default : option V) : option V :=
  match old with
  | Some v => Some v
  | None => default
  end.


(** The character [c] occurs in the string [s]. *)
Fixpoint occurs (c : ascii) (s : string) : bool :=
  match s with
  | EmptyString => false
  | String c' s' => Ascii.eqb c c' || occurs c s'
  end.


(** Whether [is_expired] looks at the clock for an entry, and the reading
    at which the scan of [_evict_expired], started at reading [tick],
    judges the entry at position [j] of the index: the one that follows
    the readings taken for the entries before it. *)
Definition reads_clock {V} (kv : string * cache.CacheEntry V) : bool :=
  negb (Qle_bool (cache.ttl (snd kv)) 0).

Definition own_reading {V} (tick : nat)
    (d : list (string * cache.CacheEntry V)) (j : nat) : nat :=
  tick + List.length (List.filter reads_clock (firstn j d)).

(* ===================================================================== *)
(** * Properties *)
(* ===================================================================== *)

Import Examples.

(** ** Arithmetic of the built-ins *)

Lemma Qltb_true (a b : Q) : Py.Qltb a b = true <-> (a < b)%Q.
Proof.
  unfold Py.Qltb. rewrite negb_true_iff, <- not_true_iff_false, Qle_bool_iff.
  split; [apply Qnot_le_lt | apply Qlt_not_le].
Qed.

Lemma Qltb_false (a b : Q) : Py.Qltb a b = false <-> (b <= a)%Q.
Proof.
  unfold Py.Qltb. rewrite negb_false_iff. apply Qle_bool_iff.
Qed.

Lemma py_min_cases (a b : Q) :
  ((b < a)%Q /\ Py.min a b = b) \/ ((a <= b)%Q /\ Py.min a b = a).
Proof.
  unfold Py.min. destruct (Py.Qltb b a) eqn:E.
  - left. split; [now apply Qltb_true | reflexivity].
  - right. split; [now apply Qltb_false | reflexivity].
Qed.

Lemma py_max_cases (a b : Q) :
  ((a < b)%Q /\ Py.max a b = b) \/ ((b <= a)%Q /\ Py.max a b = a).
Proof.
  unfold Py.max. destruct (Py.Qltb a b) eqn:E.
  - left. split; [now apply Qltb_true | reflexivity].
  - right. split; [now apply Qltb_false | reflexivity].
Qed.


Lemma py_min_le_l (a b : Q) : (Py.min a b <= a)%Q.
Proof. destruct (py_min_cases a b) as [[? ->] | [? ->]]; lra. Qed.




(** ** The backoff delay (C1) *)

Section Backoff.
Local Open Scope Q_scope.
Import retry.







End Backoff.



(** ** The circuit breaker (C5) *)

Section Breaker.
Import circuit_breaker.
Local Open Scope Z_scope.

Ltac geb_to_Prop :=
  repeat match goal with
         | H : (_ >=? _) = true |- _ =>
             rewrite Z.geb_leb in H; apply Z.leb_le in H
         | H : (_ >=? _) = false |- _ =>
             rewrite Z.geb_leb in H; apply Z.leb_gt in H
         end.

Ltac breaker_cases cb :=
  let Hs := fresh "Hs" in
  unfold allow_request, is_open, record_success, record_failure, reset,
    _transition_to;
  destruct (_state cb) eqn:Hs; simpl; rewrite ?Hs; simpl;
  repeat (match goal with
          | |- context [if ?c then _ else _] => destruct c eqn:?
          end; simpl; rewrite ?Hs; simpl).

Lemma state_eqb_eq (a b : CircuitState) : state_eqb a b = true <-> a = b.
Proof. destruct a, b; simpl; split; congruence. Qed.

Lemma not_pending_iff (now : Q) (cb : CircuitBreaker) :
  _should_attempt_recovery now cb = true <-> ~ recovery_pending now cb.
Proof.
  unfold _should_attempt_recovery, recovery_pending.
  destruct (_last_failure_time cb) as [t |].
  - rewrite Qle_bool_iff. split.
    + intros Hle (t' & Ht & Hlt). injection Ht as <-.
      now apply (Qle_not_lt _ _ Hle).
    + intros Hn. apply Qnot_lt_le. intros Hlt. apply Hn. now exists t.
  - split; [| reflexivity]. intros _ (t & Ht & _). discriminate.
Qed.

(** [allow_request] denies exactly in [OPEN] with the timeout pending. *)
Lemma allow_request_denies_iff (now : Q) (cb : CircuitBreaker) :
  fst (allow_request now cb) = false <->
  _state cb = OPEN /\ recovery_pending now cb.
Proof.
  unfold allow_request, is_open.
  destruct (state_eqb (_state cb) OPEN) eqn:Es.
  - apply state_eqb_eq in Es.
    destruct (_should_attempt_recovery now cb) eqn:Er; simpl.
    + apply not_pending_iff in Er. split; [discriminate | tauto].
    + split; [| reflexivity]. intros _. split; [assumption |].
      unfold _should_attempt_recovery in Er. unfold recovery_pending.
      destruct (_last_failure_time cb) as [t |]; [| discriminate].
      exists t. split; [reflexivity |].
      apply Qnot_le_lt. intros Hle. apply Qle_bool_iff in Hle. congruence.
  - simpl. split; [discriminate |]. intros [Hs _].
    apply state_eqb_eq in Hs. congruence.
Qed.

(** A denial counts one rejected call and changes nothing else; a grant
    counts none. *)
Lemma allow_request_rejected (now : Q) (cb : CircuitBreaker) :
  (fst (allow_request now cb) = false ->
   snd (allow_request now cb)
   = set_metrics (count_rejected (_metrics cb)) cb)
  /\ (fst (allow_request now cb) = true ->
      rejected_calls (_metrics (snd (allow_request now cb)))
      = rejected_calls (_metrics cb)).
Proof.
  unfold allow_request, is_open, _transition_to.
  destruct (state_eqb (_state cb) OPEN) eqn:Es;
    [destruct (_should_attempt_recovery now cb) |]; simpl;
    split; intros; try discriminate; try reflexivity.
  apply state_eqb_eq in Es. rewrite Es. reflexivity.
Qed.

(** In [OPEN] with the timeout elapsed the check moves to [HALF_OPEN],
    clears the success count and grants. *)
Lemma allow_request_recovers (now : Q) (cb : CircuitBreaker) :
  _state cb = OPEN -> ~ recovery_pending now cb ->
  fst (allow_request now cb) = true
  /\ _state (snd (allow_request now cb)) = HALF_OPEN
  /\ _success_count (snd (allow_request now cb)) = 0.
Proof.
  intros Hs Hp. apply not_pending_iff in Hp.
  unfold allow_request, is_open, _transition_to. rewrite Hs, Hp. simpl.
  repeat split.
Qed.

(** A counted failure in [CLOSED]. *)
Lemma record_failure_closed (now : Q) (e : option Exception)
    (cb : CircuitBreaker) :
  _state cb = CLOSED -> counted e cb = true ->
  _failure_count (record_failure now e cb)
  = (if _failure_count cb + 1 >=? failure_threshold cb
     then _failure_count cb + 1 else _failure_count cb + 1)
  /\ (_state (record_failure now e cb) = OPEN <->
      _failure_count cb + 1 >= failure_threshold cb)
  /\ (_state (record_failure now e cb) = CLOSED <->
      _failure_count cb + 1 < failure_threshold cb).
Proof.
  intros Hs Hc. unfold record_failure, _transition_to. rewrite Hc. simpl.
  rewrite Hs. simpl.
  destruct (_failure_count cb + 1 >=? failure_threshold cb) eqn:E; simpl;
    rewrite ?Hs; simpl.
  - geb_to_Prop. repeat split; intros; try lia; try discriminate.
  - geb_to_Prop.
    repeat split; intros; try lia; try discriminate; try assumption.
Qed.

(** A counted failure in [HALF_OPEN] re-opens the circuit. *)
Lemma record_failure_half_open (now : Q) (e : option Exception)
    (cb : CircuitBreaker) :
  _state cb = HALF_OPEN -> counted e cb = true ->
  _state (record_failure now e cb) = OPEN.
Proof.
  intros Hs Hc. unfold record_failure, _transition_to. rewrite Hc. simpl.
  rewrite Hs. reflexivity.
Qed.

(** A success in [HALF_OPEN]. *)
Lemma record_success_half_open (cb : CircuitBreaker) :
  _state cb = HALF_OPEN ->
  (_success_count cb + 1 >= success_threshold cb ->
   _state (record_success cb) = CLOSED
   /\ _failure_count (record_success cb) = 0
   /\ _success_count (record_success cb) = 0)
  /\ (_success_count cb + 1 < success_threshold cb ->
      _state (record_success cb) = HALF_OPEN
      /\ _success_count (record_success cb) = _success_count cb + 1).
Proof.
  intros Hs. unfold record_success, _transition_to. simpl. rewrite Hs. simpl.
  destruct (_success_count cb + 1 >=? success_threshold cb) eqn:E; simpl;
    rewrite ?Hs; simpl.
  - geb_to_Prop. split; intros; [repeat split | lia].
  - geb_to_Prop. split; intros; [lia | repeat split]; try assumption.
Qed.

(** [success_threshold] successes in a row close a half-open circuit, and
    no fewer do. *)
Lemma successes_close (cb : CircuitBreaker) (k : nat) :
  _state cb = HALF_OPEN -> _success_count cb = 0 ->
  1 <= success_threshold cb ->
  (Z.of_nat k < success_threshold cb ->
   _state (Nat.iter k record_success cb) = HALF_OPEN
   /\ _success_count (Nat.iter k record_success cb) = Z.of_nat k
   /\ success_threshold (Nat.iter k record_success cb)
      = success_threshold cb)
  /\ (Z.of_nat k = success_threshold cb ->
      _state (Nat.iter k record_success cb) = CLOSED).
Proof.
  intros Hs Hc Ht. induction k as [| k IH].
  - simpl. split; [intros _; repeat split; assumption | lia].
  - destruct IH as [IH _].
    assert (Hk : Z.of_nat k < success_threshold cb \/
                 success_threshold cb <= Z.of_nat k) by lia.
    destruct Hk as [Hk | Hk]; [| split; lia].
    destruct (IH Hk) as (Hsk & Hck & Htk).
    change (Nat.iter (S k) record_success cb)
      with (record_success (Nat.iter k record_success cb)).
    set (cb' := Nat.iter k record_success cb) in *.
    destruct (record_success_half_open cb' Hsk) as [Hge Hlt].
    split; intros HSk.
    + destruct Hlt as [H1 H2]; [lia |]. repeat split; try assumption.
      * lia.
      * unfold record_success, _transition_to. simpl. rewrite Hsk. simpl.
        destruct (_success_count cb' + 1 >=? success_threshold cb');
          simpl; rewrite ?Hsk; simpl; assumption.
    + apply Hge. lia.
Qed.

(** Every operation that enters [CLOSED] clears both counts, and every
    operation that enters [HALF_OPEN] clears the success count. *)
Lemma entering_resets (now : Q) (op : Operation) (cb : CircuitBreaker) :
  (_state cb <> CLOSED -> _state (apply now op cb) = CLOSED ->
   _failure_count (apply now op cb) = 0
   /\ _success_count (apply now op cb) = 0)
  /\ (_state cb <> HALF_OPEN -> _state (apply now op cb) = HALF_OPEN ->
      _success_count (apply now op cb) = 0).
Proof.
  destruct op as [| | | e |]; simpl;
    breaker_cases cb; split; intros; try congruence; auto.
Qed.

Lemma transition_thresholds (s : CircuitState) (cb : CircuitBreaker) :
  failure_threshold (_transition_to s cb) = failure_threshold cb
  /\ success_threshold (_transition_to s cb) = success_threshold cb.
Proof.
  unfold _transition_to.
  destruct (state_eqb (_state cb) s); [tauto |].
  destruct (state_eqb s CLOSED), (state_eqb s HALF_OPEN); simpl; tauto.
Qed.

Lemma apply_thresholds (now : Q) (op : Operation) (cb : CircuitBreaker) :
  failure_threshold (apply now op cb) = failure_threshold cb
  /\ success_threshold (apply now op cb) = success_threshold cb.
Proof.
  destruct op as [| | | e |]; simpl;
    breaker_cases cb; tauto.
Qed.

(** Every operation keeps the bounds on the counters. *)
Lemma apply_invariant (now : Q) (op : Operation) (cb : CircuitBreaker) :
  1 <= failure_threshold cb -> 1 <= success_threshold cb ->
  breaker_invariant cb -> breaker_invariant (apply now op cb).
Proof.
  intros Hf Ht [Hc Hh]. unfold breaker_invariant.
  destruct op as [| | | e |]; simpl;
    breaker_cases cb; split; intros; try congruence; auto; try lia;
    geb_to_Prop; try lia.
Qed.

Lemma run_invariant (ops : list (Q * Operation)) (cb : CircuitBreaker) :
  1 <= failure_threshold cb -> 1 <= success_threshold cb ->
  breaker_invariant cb -> breaker_invariant (run ops cb).
Proof.
  revert cb. unfold run.
  induction ops as [| [now op] ops IH]; intros cb Hf Ht Hi; simpl.
  - assumption.
  - destruct (apply_thresholds now op cb) as [Ef Et].
    apply IH; [lia | lia |]. now apply apply_invariant.
Qed.

Lemma reset_closed (cb : CircuitBreaker) :
  _state (reset cb) = CLOSED
  /\ _failure_count (reset cb) = 0
  /\ _success_count (reset cb) = 0.
Proof.
  unfold reset, _transition_to.
  destruct (_state cb) eqn:Hs; simpl; rewrite ?Hs; repeat split.
Qed.

End Breaker.

(** C5: the breaker is the three-state machine of the specification.
    The permission check denies exactly in [OPEN] while the recovery
    timeout is pending; a denial adds one to [rejected_calls] and changes
    no other field of the breaker, a grant leaves [rejected_calls]; and in
    [OPEN] with the timeout elapsed the check moves to [HALF_OPEN] and
    grants.  A counted failure opens a closed circuit exactly when the
    failure count reaches the threshold, and always re-opens a half-open
    one.  [success_threshold] successes, for a threshold of at least one,
    close a circuit that has just become half-open, and no fewer do.
    Entering [CLOSED] clears both counts, entering [HALF_OPEN] clears the
    success count.  For a breaker constructed with both thresholds at
    least one, every state it reaches has
    [failure_count < failure_threshold] in [CLOSED] and
    [success_count < success_threshold] in [HALF_OPEN]; and [reset]
    leaves [CLOSED] with both counts zero. *)
Theorem C5_breaker_state_machine
    (failure_threshold success_threshold : Z) (recovery_timeout : Q)
    (expected_exceptions excluded_exceptions
       : option (list (Exception -> bool))) :
  (forall now cb,
      let cb' := snd (circuit_breaker.allow_request now cb) in
      (fst (circuit_breaker.allow_request now cb) = false <->
       circuit_breaker._state cb = circuit_breaker.OPEN
       /\ recovery_pending now cb)
      /\ (fst (circuit_breaker.allow_request now cb) = false ->
          (circuit_breaker.rejected_calls (circuit_breaker._metrics cb')
           = circuit_breaker.rejected_calls (circuit_breaker._metrics cb)
             + 1)%Z
          /\ circuit_breaker.total_calls (circuit_breaker._metrics cb')
             = circuit_breaker.total_calls (circuit_breaker._metrics cb)
          /\ circuit_breaker.successful_calls (circuit_breaker._metrics cb')
             = circuit_breaker.successful_calls (circuit_breaker._metrics cb)
          /\ circuit_breaker.failed_calls (circuit_breaker._metrics cb')
             = circuit_breaker.failed_calls (circuit_breaker._metrics cb)
          /\ circuit_breaker.state_transitions (circuit_breaker._metrics cb')
             = circuit_breaker.state_transitions (circuit_breaker._metrics cb)
          /\ circuit_breaker._state cb' = circuit_breaker.OPEN
          /\ circuit_breaker._failure_count cb'
             = circuit_breaker._failure_count cb
          /\ circuit_breaker._success_count cb'
             = circuit_breaker._success_count cb
          /\ circuit_breaker._last_failure_time cb'
             = circuit_breaker._last_failure_time cb)
      /\ (fst (circuit_breaker.allow_request now cb) = true ->
          circuit_breaker.rejected_calls (circuit_breaker._metrics cb')
          = circuit_breaker.rejected_calls (circuit_breaker._metrics cb))
      /\ (circuit_breaker._state cb = circuit_breaker.OPEN ->
          ~ recovery_pending now cb ->
          fst (circuit_breaker.allow_request now cb) = true
          /\ circuit_breaker._state cb' = circuit_breaker.HALF_OPEN
          /\ circuit_breaker._success_count cb' = 0%Z))
  /\ (forall now e cb,
         circuit_breaker.counted e cb = true ->
         (circuit_breaker._state cb = circuit_breaker.CLOSED ->
          (circuit_breaker._state (circuit_breaker.record_failure now e cb)
           = circuit_breaker.OPEN <->
           (circuit_breaker._failure_count cb + 1
            >= circuit_breaker.failure_threshold cb)%Z)
          /\ (circuit_breaker._state
                (circuit_breaker.record_failure now e cb)
              = circuit_breaker.CLOSED <->
              (circuit_breaker._failure_count cb + 1
               < circuit_breaker.failure_threshold cb)%Z))
         /\ (circuit_breaker._state cb = circuit_breaker.HALF_OPEN ->
             circuit_breaker._state
               (circuit_breaker.record_failure now e cb)
             = circuit_breaker.OPEN))
  /\ (forall cb,
         circuit_breaker._state cb = circuit_breaker.HALF_OPEN ->
         circuit_breaker._success_count cb = 0%Z ->
         (1 <= circuit_breaker.success_threshold cb)%Z ->
         circuit_breaker._state
           (Nat.iter (Z.to_nat (circuit_breaker.success_threshold cb))
              circuit_breaker.record_success cb)
         = circuit_breaker.CLOSED
         /\ forall k : nat,
             (Z.of_nat k < circuit_breaker.success_threshold cb)%Z ->
             circuit_breaker._state
               (Nat.iter k circuit_breaker.record_success cb)
             = circuit_breaker.HALF_OPEN)
  /\ (forall now op cb,
         (circuit_breaker._state cb <> circuit_breaker.CLOSED ->
          circuit_breaker._state (circuit_breaker.apply now op cb)
          = circuit_breaker.CLOSED ->
          circuit_breaker._failure_count (circuit_breaker.apply now op cb)
          = 0%Z
          /\ circuit_breaker._success_count
               (circuit_breaker.apply now op cb) = 0%Z)
         /\ (circuit_breaker._state cb <> circuit_breaker.HALF_OPEN ->
             circuit_breaker._state (circuit_breaker.apply now op cb)
             = circuit_breaker.HALF_OPEN ->
             circuit_breaker._success_count
               (circuit_breaker.apply now op cb) = 0%Z))
  /\ ((1 <= failure_threshold)%Z -> (1 <= success_threshold)%Z ->
      forall ops,
        breaker_invariant
          (circuit_breaker.run ops
             (circuit_breaker.new failure_threshold success_threshold
                recovery_timeout expected_exceptions excluded_exceptions)))
  /\ (forall cb,
         circuit_breaker._state (circuit_breaker.reset cb)
         = circuit_breaker.CLOSED
         /\ circuit_breaker._failure_count (circuit_breaker.reset cb) = 0%Z
         /\ circuit_breaker._success_count (circuit_breaker.reset cb)
            = 0%Z).
Proof.
  repeat apply conj.
  - intros now cb cb'. repeat apply conj.
    + apply allow_request_denies_iff.
    + apply allow_request_denies_iff.
    + intros Hden.
      pose proof (proj1 (allow_request_denies_iff now cb) Hden) as [Hopen _].
      subst cb'.
      rewrite (proj1 (allow_request_rejected now cb) Hden). simpl.
      repeat split; assumption.
    + apply (allow_request_rejected now cb).
    + apply allow_request_recovers.
  - intros now e cb Hc. split.
    + intros Hcl.
      destruct (record_failure_closed now e cb Hcl Hc) as (_ & Ho & Hk).
      split; assumption.
    + intros Hh. now apply record_failure_half_open.
  - intros cb Hh Hc Ht. split.
    + apply (successes_close cb _ Hh Hc Ht). lia.
    + intros k Hk. now apply (successes_close cb k Hh Hc Ht).
  - intros now op cb. apply entering_resets.
  - intros Hf Hs ops. apply run_invariant; simpl; try assumption.
    split; simpl; intros; [lia | discriminate].
  - apply reset_closed.
Qed.

(** C5 on a breaker with threshold one that a failure at time 0 has
    opened: the check at time 10 is denied and counts one rejected call;
    and the bounds at the default thresholds (5 failures, 2 successes, 60
    seconds). *)
Lemma C5_breaker_state_machine_witness :
  let cb :=
    circuit_breaker.record_failure 0 None
      (circuit_breaker.new 1 2 60 None None) in
  fst (circuit_breaker.allow_request 10 cb) = false
  /\ circuit_breaker.rejected_calls
       (circuit_breaker._metrics (snd (circuit_breaker.allow_request 10 cb)))
     = 1%Z
  /\ forall ops,
      breaker_invariant
        (circuit_breaker.run ops (circuit_breaker.new 5 2 60 None None)).
Proof.
  intros cb.
  destruct (C5_breaker_state_machine 5 2 60 None None)
    as (Hallow & _ & _ & _ & Hinv & _).
  destruct (Hallow 10%Q cb) as (_ & Hden & _).
  split; [reflexivity |].
  split; [| apply Hinv; lia].
  destruct (Hden eq_refl) as (Hrej & _). rewrite Hrej. reflexivity.
Defined.

(** The constructor accepts a threshold of zero, and then the bound of
    [CLOSED] fails from the start: the new breaker is closed with a
    failure count of zero, which is not below the threshold.  Likewise a
    breaker with [success_threshold] zero that recovers is half-open with a
    success count that is not below the threshold. *)
Lemma C5_counterexample :
  let cb := circuit_breaker.new 0 2 60 None None in
  let cb' :=
    circuit_breaker.run
      [(0%Q, circuit_breaker.RecordFailure None);
       (100%Q, circuit_breaker.AllowRequest)]
      (circuit_breaker.new 1 0 60 None None) in
  ~ breaker_invariant cb
  /\ circuit_breaker._state cb = circuit_breaker.CLOSED
  /\ circuit_breaker._failure_count cb = circuit_breaker.failure_threshold cb
  /\ ~ breaker_invariant cb'
  /\ circuit_breaker._state cb' = circuit_breaker.HALF_OPEN
  /\ circuit_breaker._success_count cb'
     = circuit_breaker.success_threshold cb'.
Proof.
  intros cb cb'.
  split; [intros [Hc _]; specialize (Hc eq_refl); simpl in Hc; lia |].
  split; [reflexivity |]. split; [reflexivity |].
  split; [intros [_ Hh]; specialize (Hh eq_refl); simpl in Hh; lia |].
  split; reflexivity.
Qed.

(** ** The in-memory cache (C7) *)

Section Dictionaries.
Context {V : Type}.
Implicit Types (d : list (string * V)) (k : string).

Lemma del_length d k : (List.length (Py.del k d) <= List.length d)%nat.
Proof. unfold Py.del. apply filter_length_le. Qed.

Lemma del_length_lookup d k v :
  Py.lookup k d = Some v ->
  (List.length (Py.del k d) < List.length d)%nat.
Proof.
  induction d as [| [k' v'] d IH]; simpl; [discriminate |].
  destruct (String.eqb k k') eqn:E; simpl.
  - intros _. pose proof (del_length d k). lia.
  - intros Hl. specialize (IH Hl). lia.
Qed.

Lemma setitem_length d k v :
  (List.length (Py.setitem k v d) <= S (List.length d))%nat.
Proof.
  induction d as [| [k' v'] d IH]; simpl; [lia |].
  destruct (String.eqb k k'); simpl; lia.
Qed.

Lemma lookup_setitem d k v : Py.lookup k (Py.setitem k v d) = Some v.
Proof.
  induction d as [| [k' v'] d IH]; simpl.
  - now rewrite String.eqb_refl.
  - destruct (String.eqb k k') eqn:E; simpl.
    + now rewrite String.eqb_refl.
    + now rewrite E.
Qed.

Lemma move_to_end_length d k :
  (List.length (Py.move_to_end k d) <= List.length d)%nat.
Proof.
  unfold Py.move_to_end. destruct (Py.lookup k d) as [v |] eqn:E; [| lia].
  apply del_length_lookup in E. rewrite length_app. simpl. lia.
Qed.

Lemma lookup_In d k v : Py.lookup k d = Some v -> In (k, v) d.
Proof.
  induction d as [| [k' v'] d IH]; simpl; [discriminate |].
  destruct (String.eqb k k') eqn:E.
  - apply String.eqb_eq in E. subst k'. intros [= ->]. now left.
  - intros Hl. right. now apply IH.
Qed.

Lemma In_del d k kv : In kv (Py.del k d) -> In kv d /\ fst kv <> k.
Proof.
  unfold Py.del. rewrite filter_In. intros [Hin Hne]. split; [assumption |].
  intros <-. now rewrite String.eqb_refl in Hne.
Qed.

End Dictionaries.

Section Cache.
Context {V : Type}.
Import cache.
Local Open Scope Z_scope.
Implicit Types (c : InMemoryCache V) (now : Q).

Lemma is_expired_iff now (e : CacheEntry V) :
  is_expired now e = true <->
  (0 < ttl e /\ ttl e <= now - created_at e)%Q.
Proof.
  unfold is_expired. destruct (Qle_bool (ttl e) 0) eqn:E.
  - apply Qle_bool_iff in E. split; [discriminate |].
    intros [Hlt _]. exfalso. now apply (Qle_not_lt _ _ E).
  - rewrite Qle_bool_iff. split.
    + intros Hle. split; [| assumption].
      apply Qnot_le_lt. intros H0. apply Qle_bool_iff in H0. congruence.
    + tauto.
Qed.

Lemma is_expired_never now (e : CacheEntry V) :
  (ttl e <= 0)%Q -> is_expired now e = false.
Proof.
  intros Hle. unfold is_expired. apply Qle_bool_iff in Hle. now rewrite Hle.
Qed.

Lemma evict_keys_spec (keys : list string) c :
  max_size (evict_keys keys c) = max_size c
  /\ namespace (evict_keys keys c) = namespace c
  /\ default_ttl (evict_keys keys c) = default_ttl c
  /\ evictions (_stats (evict_keys keys c))
     = evictions (_stats c) + Z.of_nat (List.length keys)
  /\ (List.length (_cache (evict_keys keys c))
      <= List.length (_cache c))%nat
  /\ (forall kv, In kv (_cache (evict_keys keys c)) ->
                 In kv (_cache c) /\ ~ In (fst kv) keys).
Proof.
  revert c. induction keys as [| k keys IH]; intros c.
  - simpl. repeat split; try lia; tauto.
  - change (evict_keys (k :: keys) c)
      with (evict_keys keys
              (with_stats (add_eviction (_stats c))
                 (with_cache (Py.del k (_cache c)) c))).
    destruct (IH (with_stats (add_eviction (_stats c))
                    (with_cache (Py.del k (_cache c)) c)))
      as (Hm & Hn & Ht & He & Hl & Hin).
    simpl in *.
    split; [assumption |]. split; [assumption |]. split; [assumption |].
    split; [rewrite He; lia |].
    split; [pose proof (del_length (_cache c) k); lia |].
    intros kv Hkv. destruct (Hin kv Hkv) as [Hd Hnk].
    apply In_del in Hd as [Hc Hne]. split; [assumption |].
    intros [Hk | Hk]; [now apply Hne | now apply Hnk].
Qed.

Lemma evict_expired_unfold now c :
  _evict_expired now c = evict_keys (expired_keys now c) c.
Proof. reflexivity. Qed.

Lemma evict_expired_live now c : all_live now (_evict_expired now c).
Proof.
  unfold all_live. rewrite evict_expired_unfold. apply List.Forall_forall.
  intros kv Hin.
  destruct (evict_keys_spec (expired_keys now c) c)
    as (_ & _ & _ & _ & _ & Hsub).
  destruct (Hsub kv Hin) as [Hc Hk].
  destruct (is_expired now (snd kv)) eqn:E; [| reflexivity].
  exfalso. apply Hk. unfold expired_keys. apply in_map.
  apply filter_In. now split.
Qed.

Lemma evict_expired_count now c :
  evictions (_stats (_evict_expired now c))
  = evictions (_stats c) + Z.of_nat (List.length (expired_entries now c)).
Proof.
  rewrite evict_expired_unfold.
  destruct (evict_keys_spec (expired_keys now c) c)
    as (_ & _ & _ & He & _).
  rewrite He. unfold expired_keys, expired_entries. now rewrite length_map.
Qed.

Lemma live_lookup now c k e :
  all_live now c -> Py.lookup k (_cache c) = Some e ->
  is_expired now e = false.
Proof.
  intros Hl Hk. apply lookup_In in Hk.
  unfold all_live in Hl. rewrite List.Forall_forall in Hl. apply (Hl _ Hk).
Qed.

(** What [get] returns is read off the index left by the eviction. *)
Lemma get_result now key c :
  fst (get now key c)
  = option_map value
      (Py.lookup (_make_key c key) (_cache (_evict_expired now c))).
Proof.
  unfold get.
  assert (Hk : _make_key (_evict_expired now c) key = _make_key c key).
  { unfold _make_key. rewrite evict_expired_unfold.
    destruct (evict_keys_spec (expired_keys now c) c) as (_ & -> & _).
    reflexivity. }
  destruct (Py.lookup (_make_key c key) (_cache (_evict_expired now c)))
    as [e |] eqn:El; simpl; [| reflexivity].
  rewrite (live_lookup now _ _ e (evict_expired_live now c) El).
  reflexivity.
Qed.

Lemma get_evictions now key c :
  evictions (_stats (snd (get now key c)))
  = evictions (_stats c) + Z.of_nat (List.length (expired_entries now c)).
Proof.
  rewrite <- evict_expired_count. unfold get.
  destruct (Py.lookup (_make_key c key) (_cache (_evict_expired now c)))
    as [e |]; [destruct (is_expired now e) |]; reflexivity.
Qed.

Lemma get_live now key c : all_live now (snd (get now key c)).
Proof.
  pose proof (evict_expired_live now c) as Hl. unfold get.
  destruct (Py.lookup (_make_key c key) (_cache (_evict_expired now c)))
    as [e |] eqn:El; simpl; [| exact Hl].
  rewrite (live_lookup now _ _ e Hl El). simpl.
  unfold all_live in *. simpl. apply List.Forall_app. split.
  - rewrite List.Forall_forall in *. intros kv Hin.
    apply In_del in Hin as [Hin _]. now apply Hl.
  - constructor; [| constructor]. simpl.
    pose proof (live_lookup now _ _ e Hl El) as He.
    unfold is_expired in *. simpl. exact He.
Qed.

Lemma get_size now key c :
  max_size (snd (get now key c)) = max_size c
  /\ size (snd (get now key c)) <= size c.
Proof.
  destruct (evict_keys_spec (expired_keys now c) c)
    as (Hm & _ & _ & _ & Hl & _).
  rewrite <- evict_expired_unfold in *. unfold get, size.
  destruct (Py.lookup (_make_key c key) (_cache (_evict_expired now c)))
    as [e |] eqn:El; [destruct (is_expired now e) |]; simpl;
    (split; [assumption |]).
  - pose proof (del_length (_cache (_evict_expired now c)) (_make_key c key)).
    lia.
  - apply del_length_lookup in El. rewrite length_app. simpl. lia.
  - lia.
Qed.

Lemma evict_lru_loop_spec (m : Z) (d : list (string * CacheEntry V)) (n : Z) :
  1 <= m ->
  exists d' n',
    evict_lru_loop m d n = Some (d', n')
    /\ Z.of_nat (List.length d') < m.
Proof.
  intros Hm. revert n. induction d as [| x d IH]; intros n.
  - exists [], n. cbn [evict_lru_loop List.length].
    change (Z.of_nat 0) with 0. destruct (0 >=? m) eqn:E.
    + rewrite Z.geb_leb in E. apply Z.leb_le in E. lia.
    + split; [reflexivity | simpl; lia].
  - cbn [evict_lru_loop].
    destruct (Z.of_nat (List.length (x :: d)) >=? m) eqn:E.
    + apply IH.
    + exists (x :: d), n. split; [reflexivity |].
      rewrite Z.geb_leb in E. now apply Z.leb_gt in E.
Qed.

Lemma set_size now key (v : V) t g c :
  1 <= max_size c ->
  exists c', set now key v t g c = Some c'
             /\ max_size c' = max_size c
             /\ size c' <= max_size c.
Proof.
  intros Hm. unfold set, _evict_lru.
  destruct (evict_lru_loop_spec (max_size c) (_cache c)
              (evictions (_stats c)) Hm) as (d' & n' & -> & Hd).
  eexists. split; [reflexivity |]. simpl. split; [reflexivity |].
  unfold size. simpl.
  match goal with
  | |- context [Py.move_to_end ?k (Py.setitem ?k' ?e ?d)] =>
      pose proof (move_to_end_length (Py.setitem k' e d) k);
      pose proof (setitem_length d k' e)
  end.
  lia.
Qed.

Lemma apply_size now (op : Operation V) c :
  1 <= max_size c -> size c <= max_size c ->
  exists c', apply now op c = Some c'
             /\ max_size c' = max_size c
             /\ size c' <= max_size c.
Proof.
  intros Hm Hs. destruct op as [key | key v t g | key | key |]; simpl.
  - eexists. split; [reflexivity |].
    destruct (get_size now key c). split; [assumption | lia].
  - now apply set_size.
  - eexists. split; [reflexivity |]. unfold delete, size in *.
    destruct (Py.lookup (_make_key c key) (_cache c)); simpl;
      (split; [reflexivity |]); [| lia].
    pose proof (del_length (_cache c) (_make_key c key)). lia.
  - eexists. split; [reflexivity |]. unfold exists_, size in *.
    destruct (Py.lookup (_make_key c key) (_cache c)) as [e |];
      [destruct (is_expired now e) |]; simpl;
      (split; [reflexivity |]); try lia.
    pose proof (del_length (_cache c) (_make_key c key)). lia.
  - eexists. split; [reflexivity |]. unfold clear, size. simpl. lia.
Qed.

Lemma run_size (ops : list (Q * Operation V)) c :
  1 <= max_size c -> size c <= max_size c ->
  exists c', run ops c = Some c'
             /\ max_size c' = max_size c
             /\ size c' <= max_size c.
Proof.
  revert c. induction ops as [| [now op] ops IH]; intros c Hm Hs; simpl.
  - exists c. repeat split. assumption.
  - destruct (apply_size now op c Hm Hs) as (c1 & -> & Hm1 & Hs1).
    destruct (IH c1) as (c2 & Hr & Hm2 & Hs2); [lia | lia |].
    exists c2. split; [assumption |]. split; lia.
Qed.

End Cache.

Section ClockedCache.
Context {V : Type}.
Variable clock : nat -> Q.
Import cache.
Local Open Scope Z_scope.
Implicit Types (c : InMemoryCache V) (tick : nat).

Lemma is_expired_reading tick (e : CacheEntry V) :
  Clocked.is_expired clock tick e
  = (is_expired (clock tick) e,
     if reads_clock ("", e) then S tick else tick).
Proof.
  unfold Clocked.is_expired, is_expired, reads_clock. simpl.
  now destruct (Qle_bool (ttl e) 0).
Qed.

(** The scan judges each entry at its own reading. *)
Lemma scan_nth (d : list (string * CacheEntry V)) :
  forall tick j,
    nth_error (fst (Clocked.scan clock tick d)) j
    = option_map
        (fun kv =>
           (fst kv, is_expired (clock (own_reading tick d j)) (snd kv)))
        (nth_error d j)
    /\ snd (Clocked.scan clock tick d)
       = own_reading tick d (List.length d).
Proof.
  unfold own_reading.
  induction d as [| [k v] d IH]; intros tick j.
  - simpl. destruct j; simpl; (split; [reflexivity | lia]).
  - cbn [Clocked.scan]. rewrite is_expired_reading.
    destruct (IH (if reads_clock ("", v) then S tick else tick)
                 (Nat.pred j)) as [Hn Ht].
    destruct (Clocked.scan clock _ d) as [verdicts tick'] eqn:Es.
    cbn [fst snd] in *.
    assert (Hr : reads_clock (k, v) = reads_clock (""%string, v))
      by reflexivity.
    split.
    + destruct j as [| j]; cbn [nth_error option_map fst snd firstn].
      * simpl. now rewrite Nat.add_0_r.
      * cbn [Nat.pred] in Hn. rewrite Hn.
        assert (Hidx :
                  ((if reads_clock (""%string, v) then S tick else tick)
                   + List.length (List.filter reads_clock (firstn j d))
                   = tick
                     + List.length
                         (List.filter reads_clock ((k, v) :: firstn j d)))%nat).
        { cbn [List.filter]. rewrite Hr.
          destruct (reads_clock (""%string, v)); cbn [List.length]; lia. }
        now rewrite Hidx.
    + rewrite Ht. cbn [List.length firstn List.filter]. rewrite Hr.
      destruct (reads_clock (""%string, v)); cbn [List.length]; lia.
Qed.

Lemma scan_keys (d : list (string * CacheEntry V)) tick :
  List.length (fst (Clocked.scan clock tick d)) = List.length d.
Proof.
  revert tick. induction d as [| [k v] d IH]; intros tick; [reflexivity |].
  cbn [Clocked.scan].
  destruct (Clocked.is_expired clock tick v) as [b t1].
  specialize (IH t1).
  destruct (Clocked.scan clock t1 d) as [verdicts t2]. simpl in *.
  now rewrite IH.
Qed.

(** An entry that the scan judges expired has its key among the expired
    keys. *)
Lemma expired_key_listed tick c (j : nat) (kv : string * CacheEntry V) :
  nth_error (_cache c) j = Some kv ->
  is_expired (clock (own_reading tick (_cache c) j)) (snd kv) = true ->
  In (fst kv) (fst (Clocked.expired_keys clock tick c)).
Proof.
  intros Hj He. unfold Clocked.expired_keys.
  destruct (scan_nth (_cache c) tick j) as [Hn _].
  destruct (Clocked.scan clock tick (_cache c)) as [verdicts tick'].
  cbn [fst snd] in *. rewrite Hj in Hn. simpl in Hn. rewrite He in Hn.
  apply nth_error_In in Hn.
  apply (in_map fst) with (x := (fst kv, true)).
  apply filter_In. now split.
Qed.

Lemma evict_expired_clocked tick c :
  let scanned := Clocked._evict_expired clock tick c in
  max_size (fst scanned) = max_size c
  /\ namespace (fst scanned) = namespace c
  /\ size (fst scanned) <= size c
  /\ snd scanned = own_reading tick (_cache c) (List.length (_cache c))
  /\ evictions (_stats (fst scanned))
     = evictions (_stats c)
       + Z.of_nat (List.length (fst (Clocked.expired_keys clock tick c)))
  /\ (forall kv,
         In kv (_cache (fst scanned)) ->
         In kv (_cache c)
         /\ ~ In (fst kv) (fst (Clocked.expired_keys clock tick c))).
Proof.
  cbn zeta. unfold Clocked._evict_expired.
  assert (Ht : snd (Clocked.expired_keys clock tick c)
               = own_reading tick (_cache c) (List.length (_cache c))).
  { unfold Clocked.expired_keys.
    destruct (scan_nth (_cache c) tick 0) as [_ Ht].
    destruct (Clocked.scan clock tick (_cache c)). exact Ht. }
  destruct (Clocked.expired_keys clock tick c) as [keys tick'].
  cbn [fst snd] in *.
  destruct (evict_keys_spec keys c) as (Hm & Hn & _ & He & Hl & Hin).
  unfold size. repeat split; try assumption; try lia; now apply Hin.
Qed.

(** Every entry that the scan leaves was judged live at its own
    reading. *)
Lemma evict_expired_kept tick c (j : nat) (kv : string * CacheEntry V) :
  nth_error (_cache c) j = Some kv ->
  In kv (_cache (fst (Clocked._evict_expired clock tick c))) ->
  is_expired (clock (own_reading tick (_cache c) j)) (snd kv) = false.
Proof.
  intros Hj Hin.
  destruct (evict_expired_clocked tick c) as (_ & _ & _ & _ & _ & Hkept).
  destruct (Hkept kv Hin) as [_ Hno].
  destruct (is_expired (clock (own_reading tick (_cache c) j)) (snd kv))
    eqn:E; [| reflexivity].
  exfalso. apply Hno. now apply (expired_key_listed tick c j).
Qed.

Lemma get_clocked tick key c :
  let scanned := Clocked._evict_expired clock tick c in
  let got := Clocked.get clock tick key c in
  max_size (snd (fst got)) = max_size c
  /\ size (snd (fst got)) <= size c
  /\ evictions (_stats (snd (fst got))) = evictions (_stats (fst scanned))
  /\ forall v,
      fst (fst got) = Some v ->
      exists e,
        Py.lookup (_make_key c key) (_cache (fst scanned)) = Some e
        /\ In (_make_key c key, e) (_cache c)
        /\ value e = v
        /\ is_expired (clock (snd scanned)) e = false.
Proof.
  cbn zeta. unfold Clocked.get.
  destruct (evict_expired_clocked tick c) as (Hm & Hn & Hs & _ & _ & Hkept).
  destruct (Clocked._evict_expired clock tick c) as [c1 t1].
  cbn [fst snd] in *.
  destruct (Py.lookup (_make_key c key) (_cache c1)) as [e |] eqn:El.
  - rewrite is_expired_reading.
    destruct (is_expired (clock t1) e) eqn:Ee; cbn [fst snd].
    + unfold size in *. simpl.
      pose proof (del_length (_cache c1) (_make_key c key)).
      repeat split; try assumption; try lia. discriminate.
    + unfold size in *. simpl.
      pose proof (del_length_lookup _ _ _ El). rewrite length_app. simpl.
      repeat split; try assumption; try lia.
      intros v [= <-]. exists e. split; [reflexivity |].
      split; [| split; [reflexivity | assumption]].
      apply lookup_In in El. now apply Hkept.
  - cbn [fst snd]. simpl. repeat split; try assumption. discriminate.
Qed.

Lemma set_clocked tick key (v : V) t g c :
  1 <= max_size c ->
  exists c' tick',
    Clocked.set clock tick key v t g c = Some (c', tick')
    /\ max_size c' = max_size c
    /\ size c' <= max_size c.
Proof.
  intros Hm. unfold Clocked.set, _evict_lru.
  destruct (evict_lru_loop_spec (max_size c) (_cache c)
              (evictions (_stats c)) Hm) as (d' & n' & -> & Hd).
  do 2 eexists. split; [reflexivity |]. simpl. split; [reflexivity |].
  unfold size. simpl.
  match goal with
  | |- context [Py.move_to_end ?k (Py.setitem ?k' ?e ?d)] =>
      pose proof (move_to_end_length (Py.setitem k' e d) k);
      pose proof (setitem_length d k' e)
  end.
  lia.
Qed.

Lemma apply_clocked tick (op : Operation V) c :
  1 <= max_size c -> size c <= max_size c ->
  exists c' tick',
    Clocked.apply clock tick op c = Some (c', tick')
    /\ max_size c' = max_size c
    /\ size c' <= max_size c.
Proof.
  intros Hm Hs. destruct op as [key | key v t g | key | key |]; simpl.
  - destruct (get_clocked tick key c) as (Hg & Hz & _).
    destruct (Clocked.get clock tick key c) as [[r c'] tick'].
    cbn [fst snd] in *. exists c', tick'.
    split; [reflexivity |]. split; [assumption | lia].
  - now apply set_clocked.
  - do 2 eexists. split; [reflexivity |]. unfold delete, size in *.
    destruct (Py.lookup (_make_key c key) (_cache c)); simpl;
      (split; [reflexivity |]); [| lia].
    pose proof (del_length (_cache c) (_make_key c key)). lia.
  - unfold Clocked.exists_, size in *.
    destruct (Py.lookup (_make_key c key) (_cache c)) as [e |];
      [rewrite is_expired_reading;
       destruct (is_expired (clock tick) e) |]; simpl;
      do 2 eexists; (split; [reflexivity |]); simpl;
      (split; [reflexivity |]); try lia.
    pose proof (del_length (_cache c) (_make_key c key)). lia.
  - do 2 eexists. split; [reflexivity |]. unfold clear, size. simpl. lia.
Qed.

Lemma run_clocked (ops : list (Operation V)) :
  forall tick c,
    1 <= max_size c -> size c <= max_size c ->
    exists c' tick',
      Clocked.run clock tick ops c = Some (c', tick')
      /\ max_size c' = max_size c
      /\ size c' <= max_size c.
Proof.
  induction ops as [| op ops IH]; intros tick c Hm Hs; simpl.
  - exists c, tick. repeat split. assumption.
  - destruct (apply_clocked tick op c Hm Hs) as (c1 & t1 & -> & Hm1 & Hs1).
    destruct (IH t1 c1) as (c2 & t2 & Hr & Hm2 & Hs2); [lia | lia |].
    exists c2, t2. split; [assumption |]. split; lia.
Qed.

(** While the clock stands still the methods are those that take one
    reading. *)
Lemma scan_still (now : Q) (d : list (string * CacheEntry V)) :
  (forall i, clock i = now) ->
  forall tick,
    fst (Clocked.scan clock tick d)
    = map (fun kv => (fst kv, is_expired now (snd kv))) d.
Proof.
  intros Hstill. induction d as [| [k v] d IH]; intros tick; [reflexivity |].
  cbn [Clocked.scan]. rewrite is_expired_reading, Hstill.
  specialize (IH (if reads_clock (""%string, v) then S tick else tick)).
  destruct (Clocked.scan clock _ d) as [verdicts tick'].
  cbn [fst] in *. now rewrite IH.
Qed.

Lemma expired_keys_still (now : Q) tick c :
  (forall i, clock i = now) ->
  fst (Clocked.expired_keys clock tick c) = expired_keys now c.
Proof.
  intros Hstill. unfold Clocked.expired_keys, expired_keys.
  pose proof (scan_still now (_cache c) Hstill tick) as Hs.
  destruct (Clocked.scan clock tick (_cache c)) as [verdicts tick'].
  cbn [fst] in *. subst verdicts.
  induction (_cache c) as [| [k v] d IH]; [reflexivity |].
  cbn [map List.filter fst snd].
  destruct (is_expired now v); cbn [map fst]; now rewrite IH.
Qed.

Lemma get_still (now : Q) tick key c :
  (forall i, clock i = now) ->
  fst (Clocked.get clock tick key c) = get now key c.
Proof.
  intros Hstill. unfold Clocked.get, get, Clocked._evict_expired,
    _evict_expired.
  pose proof (expired_keys_still now tick c Hstill) as Hk.
  destruct (Clocked.expired_keys clock tick c) as [keys t1].
  cbn [fst] in Hk. subst keys.
  destruct (Py.lookup (_make_key c key)
              (_cache (evict_keys (expired_keys now c) c))) as [e |];
    [| reflexivity].
  rewrite is_expired_reading, Hstill.
  destruct (is_expired now e); [reflexivity |].
  cbn [fst]. now rewrite Hstill.
Qed.

End ClockedCache.

(** C7, as the code has it, for every clock.  From a new cache with
    [max_size >= 1] every finite sequence of get/set/delete/exists/clear
    operations runs to completion and leaves at most [max_size] entries.
    Every [get] first scans the index and evicts the entries that are
    expired at the clock reading taken for each of them in turn, adding
    their number to [stats.evictions]: an entry still present when [get]
    inspects the index was not expired at its own reading, and the entry
    whose value [get] returns is moreover not expired at the reading of
    [get]'s own check, which follows the scan.  While the clock stands
    still during the [get], the index it inspects and the cache it leaves
    hold no expired entry.  An entry is expired at a reading [now] if and
    only if [ttl > 0] and [now - created_at >= ttl], a [ttl <= 0] meaning
    that it never expires. *)
Theorem C7_cache_invariants {V : Type} (default_ttl : Q) (max_size : Z)
    (namespace : string) (clock : nat -> Q) :
  ((1 <= max_size)%Z ->
   forall (ops : list (cache.Operation V)) (tick : nat),
     exists (c : cache.InMemoryCache V) (tick' : nat),
       cache.Clocked.run clock tick ops
         (cache.new default_ttl max_size namespace) = Some (c, tick')
       /\ (cache.size c <= max_size)%Z)
  /\ (forall tick key (c : cache.InMemoryCache V),
         let scanned := cache.Clocked._evict_expired clock tick c in
         let got := cache.Clocked.get clock tick key c in
         let evicted := fst (cache.Clocked.expired_keys clock tick c) in
         cache.evictions (cache._stats (fst scanned))
         = (cache.evictions (cache._stats c)
            + Z.of_nat (List.length evicted))%Z
         /\ cache.evictions (cache._stats (snd (fst got)))
            = (cache.evictions (cache._stats c)
               + Z.of_nat (List.length evicted))%Z
         /\ (forall j kv,
                nth_error (cache._cache c) j = Some kv ->
                (cache.is_expired
                   (clock (own_reading tick (cache._cache c) j)) (snd kv)
                 = true ->
                 In (fst kv) evicted
                 /\ ~ In kv (cache._cache (fst scanned)))
                /\ (In kv (cache._cache (fst scanned)) ->
                    cache.is_expired
                      (clock (own_reading tick (cache._cache c) j)) (snd kv)
                    = false))
         /\ (forall v,
                fst (fst got) = Some v ->
                exists e,
                  Py.lookup (cache._make_key c key)
                    (cache._cache (fst scanned)) = Some e
                  /\ cache.value e = v
                  /\ cache.is_expired (clock (snd scanned)) e = false)
         /\ (forall now,
                (forall i, clock i = now) ->
                fst got = cache.get now key c
                /\ all_live now (cache._evict_expired now c)
                /\ all_live now (snd (fst got))))
  /\ (forall now (e : cache.CacheEntry V),
         (cache.is_expired now e = true <->
          (0 < cache.ttl e /\ cache.ttl e <= now - cache.created_at e)%Q)
         /\ ((cache.ttl e <= 0)%Q -> cache.is_expired now e = false))
  /\ (forall tick (e : cache.CacheEntry V),
         fst (cache.Clocked.is_expired clock tick e)
         = cache.is_expired (clock tick) e).
Proof.
  split; [| split; [| split]].
  - intros Hm ops tick.
    destruct (run_clocked clock ops tick
                (cache.new default_ttl max_size namespace))
      as (c & tick' & Hr & Hmc & Hs); simpl; try lia.
    + unfold cache.size. simpl. lia.
    + exists c, tick'. split; [assumption |]. simpl in Hs. exact Hs.
  - intros tick key c scanned got evicted.
    destruct (evict_expired_clocked clock tick c)
      as (_ & _ & _ & _ & He & Hkept).
    destruct (get_clocked clock tick key c) as (_ & _ & Hge & Hgot).
    fold scanned in He, Hkept, Hge, Hgot. fold evicted in He.
    fold got in Hge, Hgot.
    split; [exact He |]. split; [now rewrite Hge |].
    split; [| split].
    + intros j kv Hj. split.
      * intros Hexp.
        pose proof (expired_key_listed clock tick c j kv Hj Hexp) as Hin.
        split; [exact Hin |]. intros Hk.
        destruct (Hkept kv Hk) as [_ Hno]. now apply Hno.
      * intros Hk. now apply (evict_expired_kept clock tick c j kv).
    + intros v Hv. destruct (Hgot v Hv) as (e & Hl & _ & Hval & Hlive).
      exists e. split; [exact Hl |]. split; assumption.
    + intros now Hstill. unfold got.
      rewrite (get_still clock now tick key c Hstill).
      split; [reflexivity |].
      split; [apply evict_expired_live | apply get_live].
  - intros now e. split; [apply is_expired_iff | apply is_expired_never].
  - intros tick e. now rewrite is_expired_reading.
Qed.

(** C7 for a cache of at most two entries, on a clock that advances by
    one second at every reading. *)
Lemma C7_cache_invariants_witness :
  let clock := fun n : nat => inject_Z (Z.of_nat n) in
  exists (c : cache.InMemoryCache nat) (tick' : nat),
    cache.Clocked.run clock 0
      [ cache.Set_ "a"%string 1%nat None None;
        cache.Set_ "b"%string 2%nat None None;
        cache.Set_ "c"%string 3%nat None None;
        cache.Get "b"%string ]
      (cache.new 300 2 "") = Some (c, tick')
    /\ (cache.size c <= 2)%Z.
Proof.
  intros clock.
  apply (proj1 (C7_cache_invariants (V := nat) 300 2 "" clock)). lia.
Defined.

(** C7 as stated fails when the clock advances during a [get].  A new
    cache of two places stores [a] (expiring after 10 seconds) and [b]
    (after 100 seconds) at time 0.  The scan of the [get] of [b] reads 9
    seconds for [a], which it keeps, and 11 seconds for [b]; the check of
    [b] that follows reads 11 seconds as well.  The [get] evicts nothing
    and is a hit, and the index it inspected, like the cache it leaves,
    holds [a], which is expired at that moment. *)
Lemma C7_counterexample :
  let clock := fun n : nat =>
    if (n <? 4)%nat then 0%Q else if (n =? 4)%nat then 9%Q else 11%Q in
  exists (c : cache.InMemoryCache nat) (tick : nat)
         (a : cache.CacheEntry nat),
    cache.Clocked.run clock 0
      [ cache.Set_ "a"%string 1%nat (Some 10%Q) None;
        cache.Set_ "b"%string 2%nat (Some 100%Q) None ]
      (cache.new 300 2 "") = Some (c, tick)
    /\ let scanned := cache.Clocked._evict_expired clock tick c in
       let got := cache.Clocked.get clock tick "b" c in
       (forall i j : nat, (i <= j)%nat -> (clock i <= clock j)%Q)
       /\ cache._cache (fst scanned) = cache._cache c
       /\ cache.evictions (cache._stats (snd (fst got))) = 0%Z
       /\ fst (fst got) = Some 2%nat
       /\ Py.lookup "a" (cache._cache (fst scanned)) = Some a
       /\ Py.lookup "a" (cache._cache (snd (fst got))) = Some a
       /\ cache.is_expired (clock (snd scanned)) a = true
       /\ ~ all_live (clock (snd scanned)) (fst scanned).
Proof.
  intros clock. eexists _, _, _. split; [vm_compute; reflexivity |].
  cbn zeta. split.
  { intros i j Hij. unfold clock.
    destruct (Nat.ltb_spec i 4), (Nat.ltb_spec j 4),
      (Nat.eqb_spec i 4), (Nat.eqb_spec j 4);
      try lia; try discriminate; apply Qle_refl. }
  split; [vm_compute; reflexivity |]. split; [vm_compute; reflexivity |].
  split; [vm_compute; reflexivity |]. split; [vm_compute; reflexivity |].
  split; [vm_compute; reflexivity |]. split; [vm_compute; reflexivity |].
  intros Hlive. unfold all_live in Hlive.
  apply List.Forall_inv in Hlive. vm_compute in Hlive. discriminate.
Qed.

(** ** The request fingerprint (C9) *)

Section StringOrder.

Lemma leb_total (a b : string) : String.leb a b = false -> String.leb b a = true.
Proof.
  unfold String.leb. rewrite (String.compare_antisym b a).
  destruct (String.compare a b); simpl; congruence.
Qed.

Lemma leb_antisym (a b : string) :
  String.leb a b = true -> String.leb b a = true -> a = b.
Proof.
  unfold String.leb. rewrite (String.compare_antisym b a).
  destruct (String.compare a b) eqn:E; simpl; try congruence.
  intros _ _. now apply String.compare_eq_iff.
Qed.

Lemma leb_trans (a b c : string) :
  String.leb a b = true -> String.leb b c = true -> String.leb a c = true.
Proof.
  unfold String.leb.
  destruct (String.compare a b) eqn:Eab; try congruence;
    destruct (String.compare b c) eqn:Ebc; try congruence; intros _ _.
  - apply String.compare_eq_iff in Eab. subst. now rewrite Ebc.
  - apply String.compare_eq_iff in Eab. subst. now rewrite Ebc.
  - apply String.compare_eq_iff in Ebc. subst. now rewrite Eab.
  - assert (Hac : String_as_OT.lt a c).
    { eapply (@StrictOrder_Transitive _ _ String_as_OT.lt_strorder);
        [exact Eab | exact Ebc]. }
    unfold String_as_OT.lt in Hac.
    change String_as_OT.compare with String.compare in Hac.
    now rewrite Hac.
Qed.

End StringOrder.

Section SortedItems.
Context {B : Type}.
Implicit Types (l : list (string * B)) (x : string * B).

Lemma insert_item_perm x l :
  Permutation (cache.insert_item x l) (x :: l).
Proof.
  induction l as [| y l IH]; simpl; [reflexivity |].
  destruct (String.leb (fst x) (fst y)); [reflexivity |].
  rewrite IH. apply perm_swap.
Qed.

Lemma sorted_items_perm l : Permutation (cache.sorted_items l) l.
Proof.
  induction l as [| x l IH]; simpl; [reflexivity |].
  unfold cache.sorted_items in *. simpl.
  rewrite insert_item_perm. now apply perm_skip.
Qed.

Lemma insert_item_sorted x l :
  StronglySorted key_le l -> StronglySorted key_le (cache.insert_item x l).
Proof.
  induction l as [| y l IH]; simpl; intros Hs.
  - repeat constructor.
  - destruct (String.leb (fst x) (fst y)) eqn:E.
    + constructor; [assumption |]. constructor; [exact E |].
      inversion Hs as [| ? ? _ Hall]; subst.
      eapply List.Forall_impl; [| exact Hall]. intros z Hz.
      unfold key_le in *. eapply leb_trans; eassumption.
    + inversion Hs as [| ? ? Hl Hall]; subst.
      constructor; [now apply IH |].
      apply List.Forall_forall. intros z Hz.
      apply (Permutation_in _ (insert_item_perm x l)) in Hz.
      destruct Hz as [<- | Hz].
      * now apply leb_total.
      * rewrite List.Forall_forall in Hall. now apply Hall.
Qed.

Lemma sorted_items_sorted l : StronglySorted key_le (cache.sorted_items l).
Proof.
  induction l as [| x l IH]; simpl; [constructor |].
  now apply insert_item_sorted.
Qed.

(** Two key-sorted lists with the same items and distinct keys coincide. *)
Lemma sorted_unique l1 l2 :
  StronglySorted key_le l1 -> StronglySorted key_le l2 ->
  Permutation l1 l2 -> List.NoDup (map fst l1) -> l1 = l2.
Proof.
  revert l2. induction l1 as [| a t1 IH]; intros l2 Hs1 Hs2 Hp Hn.
  - now apply Permutation_nil in Hp.
  - destruct l2 as [| b t2].
    { symmetry in Hp. now apply Permutation_nil in Hp. }
    assert (Hab : a = b).
    { assert (Ha : In a (b :: t2))
        by (apply (Permutation_in _ Hp); now left).
      assert (Hb : In b (a :: t1))
        by (apply (Permutation_in _ (Permutation_sym Hp)); now left).
      destruct Ha as [Ha | Ha]; [now symmetry |].
      destruct Hb as [Hb | Hb]; [assumption |].
      exfalso.
      inversion Hs1 as [| ? ? _ H1]; subst.
      inversion Hs2 as [| ? ? _ H2]; subst.
      rewrite List.Forall_forall in H1, H2.
      assert (Hk : fst a = fst b)
        by (apply leb_antisym; [now apply H1 | now apply H2]).
      inversion Hn as [| ? ? Hnotin _]; subst.
      apply Hnotin. rewrite Hk. now apply in_map. }
    subst b. f_equal.
    inversion Hs1; inversion Hs2; inversion Hn; subst.
    apply IH; try assumption.
    now apply Permutation_cons_inv in Hp.
Qed.

(** [sorted(d.items())] does not depend on the insertion order of [d]. *)
Lemma sorted_items_order l1 l2 :
  List.NoDup (map fst l1) -> Permutation l1 l2 ->
  cache.sorted_items l1 = cache.sorted_items l2.
Proof.
  intros Hn Hp. apply sorted_unique.
  - apply sorted_items_sorted.
  - apply sorted_items_sorted.
  - rewrite !sorted_items_perm. exact Hp.
  - apply (Permutation_NoDup (l := map fst l1)); [| assumption].
    apply Permutation_map. symmetry. apply sorted_items_perm.
Qed.

End SortedItems.

Section Fingerprint.
Context {A : Type} `{Hashlib} `{cache.JsonDumps A}.
Import cache.

Lemma header_parts_agree (h h' : list (string * string))
    (inc : list string) :
  (forall k, In k inc -> Py.lookup k h = Py.lookup k h') ->
  header_parts h inc = header_parts h' inc.
Proof.
  intros Hag. unfold header_parts.
  assert (Hs : forall k, In k (sorted inc) -> In k inc).
  { clear. induction inc as [| a inc IH]; simpl; [tauto |].
    intros k Hk.
    assert (Hi : forall l, In k (insert_sorted a l) -> k = a \/ In k l).
    { clear. induction l as [| b l IHl]; simpl.
      - intros [-> | []]. now left.
      - destruct (String.leb a b); simpl.
        + intros [-> | [-> | Hk]]; auto.
        + intros [-> | Hk]; auto. destruct (IHl Hk); auto. }
    destruct (Hi _ Hk) as [-> | Hk']; [now left | right; now apply IH]. }
  induction (sorted inc) as [| k ks IH]; simpl; [reflexivity |].
  rewrite (Hag k) by (apply Hs; now left).
  f_equal. apply IH. intros k' Hk'. apply Hs. now right.
Qed.

Lemma header_parts_nil (inc : list string) : header_parts [] inc = [].
Proof.
  unfold header_parts. induction (sorted inc) as [| k ks IH]; simpl; auto.
Qed.

Lemma items_of_empty {B : Type} (l : option (list B)) :
  nonempty l = false -> items_of l = [].
Proof. destruct l as [[| ? ?] |]; simpl; congruence. Qed.

(** Headers that agree on the included names give the same hashed string. *)
Lemma key_string_agree (method url : string)
    (params : option (list (string * A)))
    (h h' : option (list (string * string)))
    (include_headers : option (list string)) :
  (forall k, In k (items_of include_headers) ->
             Py.lookup k (items_of h) = Py.lookup k (items_of h')) ->
  key_string method url params h include_headers
  = key_string method url params h' include_headers.
Proof.
  intros Hag. unfold key_string.
  destruct (nonempty include_headers) eqn:Ei.
  - pose proof (header_parts_agree _ _ _ Hag) as Hp.
    destruct (nonempty h) eqn:Eh, (nonempty h') eqn:Eh'; simpl.
    + now rewrite Hp.
    + rewrite Hp, (items_of_empty _ Eh'), header_parts_nil. reflexivity.
    + rewrite <- Hp, (items_of_empty _ Eh), header_parts_nil. reflexivity.
    + reflexivity.
  - now rewrite !andb_false_r.
Qed.

Lemma key_string_params_order (method url : string)
    (p p' : list (string * A))
    (h : option (list (string * string)))
    (include_headers : option (list string)) :
  List.NoDup (map fst p) -> Permutation p p' ->
  key_string method url (Some p) h include_headers
  = key_string method url (Some p') h include_headers.
Proof.
  intros Hn Hp. unfold key_string.
  assert (Hne : nonempty (Some p) = nonempty (Some p')).
  { destruct p, p'; simpl; try reflexivity.
    - now apply Permutation_nil in Hp.
    - symmetry in Hp. now apply Permutation_nil in Hp. }
  rewrite Hne. simpl items_of.
  now rewrite (sorted_items_order p p' Hn Hp).
Qed.

End Fingerprint.

(** C9: [generate_cache_key] is a function of
    (method, url, params, headers, include_headers): equal inputs give the
    same digest; the insertion order of the keys of [params] does not
    change it; headers that agree on the names listed in
    [include_headers] give the same digest, so a header outside the list
    cannot affect it; and the key the pipeline computes, which passes no
    [include_headers], is the same for every set of headers. *)
Theorem C9_fingerprint {A : Type} `{Hashlib} `{cache.JsonDumps A} :
  (forall method method' url url' (params params' : option (list (string * A)))
          headers headers' include_headers include_headers',
      method = method' -> url = url' -> params = params' ->
      headers = headers' -> include_headers = include_headers' ->
      cache.generate_cache_key method url params headers include_headers
      = cache.generate_cache_key method' url' params' headers'
          include_headers')
  /\ (forall method url (params params' : list (string * A)) headers
             include_headers,
         List.NoDup (map fst params) -> Permutation params params' ->
         cache.generate_cache_key method url (Some params) headers
           include_headers
         = cache.generate_cache_key method url (Some params') headers
             include_headers)
  /\ (forall method url (params : option (list (string * A))) headers
             headers' include_headers,
         (forall name, In name (cache.items_of include_headers) ->
                       Py.lookup name (cache.items_of headers)
                       = Py.lookup name (cache.items_of headers')) ->
         cache.generate_cache_key method url params headers include_headers
         = cache.generate_cache_key method url params headers'
             include_headers)
  /\ (forall method url (params : option (list (string * A)))
             merged_headers merged_headers',
         client.pipeline_cache_key method url params merged_headers
         = client.pipeline_cache_key method url params merged_headers').
Proof.
  split; [| split; [| split]].
  - intros. subst. reflexivity.
  - intros method url params params' headers include_headers Hn Hp.
    unfold cache.generate_cache_key.
    now rewrite (key_string_params_order method url params params'
                   headers include_headers Hn Hp).
  - intros method url params headers headers' include_headers Hag.
    unfold cache.generate_cache_key.
    now rewrite (key_string_agree method url params headers headers'
                   include_headers Hag).
  - intros method url params h h'. unfold client.pipeline_cache_key.
    unfold cache.generate_cache_key.
    rewrite (key_string_agree method url params (Some h) (Some h') None);
      [reflexivity |].
    intros name [].
Qed.

(** C9 on a request with two parameters given in either order. *)
Lemma C9_fingerprint_witness :
  List.NoDup (map fst [("a", "1"); ("b", "2")]%string)
  /\ Permutation [("a", "1"); ("b", "2")]%string
       [("b", "2"); ("a", "1")]%string
  /\ cache.generate_cache_key "get" "https://api.example.com/u"
       (Some [("a", "1"); ("b", "2")]%string) None None
     = cache.generate_cache_key "get" "https://api.example.com/u"
         (Some [("b", "2"); ("a", "1")]%string) None None.
Proof.
  assert (Hn : List.NoDup (map fst [("a", "1"); ("b", "2")]%string)).
  { simpl. constructor; [| constructor; [| constructor]]; simpl.
    - intros [Hab | []]. discriminate.
    - intros []. }
  assert (Hp : Permutation [("a", "1"); ("b", "2")]%string
                 [("b", "2"); ("a", "1")]%string) by apply perm_swap.
  split; [exact Hn | split; [exact Hp |]].
  exact (proj1 (proj2 (C9_fingerprint (A := string)))
           "get"%string "https://api.example.com/u"%string
           _ _ None None Hn Hp).
Defined.

(** ** Redaction (C6) *)

Section Strings.

Lemma length_append (a b : string) :
  String.length (String.append a b)
  = (String.length a + String.length b)%nat.
Proof. induction a as [| c a IH]; simpl; [reflexivity | now rewrite IH]. Qed.

Lemma prefix_length (p s : string) :
  String.prefix p s = true -> (String.length p <= String.length s)%nat.
Proof.
  revert s. induction p as [| c p IH]; intros s; simpl; [lia |].
  destruct s as [| c' s]; [discriminate |].
  intros Hp. simpl in Hp |- *.
  match type of Hp with
  | (if ?b then _ else _) = true => destruct b; [| discriminate]
  end.
  apply IH in Hp. lia.
Qed.

(** A string contains no string longer than itself. *)
Lemma contains_length (needle haystack : string) :
  Py.contains needle haystack = true ->
  (String.length needle <= String.length haystack)%nat.
Proof.
  induction haystack as [| c h IH]; cbn [Py.contains].
  - rewrite orb_false_r. apply prefix_length.
  - intros Hc. apply orb_true_iff in Hc as [Hp | Hc].
    + apply prefix_length in Hp. exact Hp.
    + apply IH in Hc. simpl. lia.
Qed.

Lemma take_length (n : nat) (s : string) :
  String.length (logging.take n s) = Nat.min n (String.length s).
Proof.
  revert s. induction n as [| n IH]; intros [| c s]; simpl; auto.
Qed.

Lemma take_min (n : nat) (s : string) :
  logging.take (Nat.min n (String.length s)) s = logging.take n s.
Proof.
  revert s. induction n as [| n IH]; intros [| c s]; simpl; auto.
  now rewrite IH.
Qed.

Lemma drop_length (n : nat) (s : string) :
  String.length (logging.drop n s) = (String.length s - n)%nat.
Proof.
  revert s. induction n as [| n IH]; intros [| c s]; simpl; auto.
Qed.

End Strings.

Section Redaction.
Context `{Hashlib} `{logging.Regex} `{logging.Urllib}.
Import logging logging.RequestLogger.
Local Open Scope Z_scope.

Lemma lookup_setitem_ne {W : Type} (d : list (string * W)) (k k' : string)
    (w : W) :
  k <> k' -> Py.lookup k (Py.setitem k' w d) = Py.lookup k d.
Proof.
  intros Hne. induction d as [| [k0 w0] d IH]; simpl.
  - destruct (String.eqb k k') eqn:E; [| reflexivity].
    apply String.eqb_eq in E. contradiction.
  - destruct (String.eqb k' k0) eqn:E0; simpl.
    + apply String.eqb_eq in E0. subst k0.
      destruct (String.eqb k k') eqn:E; [| reflexivity].
      apply String.eqb_eq in E. contradiction.
    + now rewrite IH.
Qed.

(** A dictionary built by assigning [g key value] for each item of a
    dictionary holds, under each key, the image of its value. *)
Lemma lookup_rebuilt {U W : Type} (g : string -> U -> W)
    (step : list (string * W) -> string * U -> list (string * W))
    (items : list (string * U)) :
  (forall acc k u, step acc (k, u) = Py.setitem k (g k u) acc) ->
  List.NoDup (map fst items) ->
  forall acc k u, In (k, u) items ->
    Py.lookup k (fold_left step items acc) = Some (g k u).
Proof.
  intros Hstep. induction items as [| [k0 u0] items IH]; intros Hn acc k u Hin.
  - destruct Hin.
  - inversion Hn as [| ? ? Hnotin Hn']; subst. simpl. destruct Hin as [E | Hin].
    + assert (k0 = k) by congruence. assert (u0 = u) by congruence.
      subst k0 u0. clear IH E.
      assert (Hkeep : forall acc',
                 Py.lookup k (fold_left step items acc') = Py.lookup k acc').
      { clear -Hstep Hnotin. induction items as [| [k1 u1] items IH];
          intros acc'; simpl; [reflexivity |].
        rewrite IH by (intros Hk; apply Hnotin; now right).
        rewrite Hstep. apply lookup_setitem_ne.
        intros <-. apply Hnotin. now left. }
      rewrite Hkeep, Hstep. apply lookup_setitem.
    + now apply IH.
Qed.

Lemma redact_headers_masks (config : LogConfig)
    (headers : list (string * string)) (key value : string) :
  List.NoDup (map fst headers) -> In (key, value) headers ->
  Py.lower key ∈ lowered_set (logging.redact_headers config) ->
  Py.lookup key (redact_headers config headers)
  = Some (_mask_value config value).
Proof.
  intros Hn Hin Hs. unfold redact_headers.
  rewrite (lookup_rebuilt
             (fun k v =>
                if bool_decide
                     (Py.lower k ∈ lowered_set (logging.redact_headers config))
                then _mask_value config v
                else _redact_value config v)
             _ headers) with (u := value); try assumption.
  - now rewrite bool_decide_eq_true_2.
  - intros acc k u. now destruct (bool_decide _).
Qed.

Lemma redacted_params_masks (config : LogConfig)
    (params : list (string * list string)) (key : string)
    (values : list string) :
  List.NoDup (map fst params) -> In (key, values) params ->
  Py.lower key ∈ lowered_set (redact_query_params config) ->
  Py.lookup key (redacted_params config params)
  = Some (map (_mask_value config) values).
Proof.
  intros Hn Hin Hs. unfold redacted_params.
  rewrite (lookup_rebuilt
             (fun k vs =>
                if bool_decide
                     (Py.lower k ∈ lowered_set (redact_query_params config))
                then map (_mask_value config) vs
                else vs)
             _ params) with (u := values); try assumption.
  - now rewrite bool_decide_eq_true_2.
  - intros acc k u. now destruct (bool_decide _).
Qed.

Lemma redact_url_query (config : LogConfig) (url query : string) :
  urlparse_query url = Some query -> query <> EmptyString ->
  redact_url config url
  = inr (urlunparse_with_query url
           (urlencode (redacted_params config (parse_qs query)))).
Proof.
  intros Hu Hq. unfold redact_url. rewrite Hu.
  destruct query; [contradiction | reflexivity].
Qed.

Lemma mask_full (config : LogConfig) (value : string) :
  mask_style config = FULL ->
  _mask_value config value = "***REDACTED***"%string.
Proof. intros E. unfold _mask_value. now rewrite E. Qed.

Lemma mask_partial_short (config : LogConfig) (value : string) :
  mask_style config = PARTIAL ->
  Z.of_nat (String.length value) <= 2 * partial_mask_chars config ->
  _mask_value config value = "****"%string.
Proof.
  intros E Hl. unfold _mask_value. rewrite E.
  destruct (Z.of_nat (String.length value) <=? partial_mask_chars config * 2)
    eqn:El; [reflexivity |].
  apply Z.leb_gt in El. lia.
Qed.

Lemma mask_partial_long (config : LogConfig) (value : string) (n : nat) :
  mask_style config = PARTIAL ->
  partial_mask_chars config = Z.of_nat n -> (0 < n)%nat ->
  (2 * n < String.length value)%nat ->
  _mask_value config value
  = String.append (take n value)
      (String.append "..." (drop (String.length value - n) value)).
Proof.
  intros E En Hn Hl. unfold _mask_value. rewrite E, En.
  destruct (Z.of_nat (String.length value) <=? Z.of_nat n * 2) eqn:El.
  { apply Z.leb_le in El. lia. }
  unfold slice_to, slice_from, slice_index.
  destruct (Z.of_nat n <? 0) eqn:E1; [apply Z.ltb_lt in E1; lia |].
  destruct (- Z.of_nat n <? 0) eqn:E2; [| apply Z.ltb_ge in E2; lia].
  rewrite Nat2Z.id.
  replace (Nat.min n (String.length value)) with n by lia.
  replace (Z.to_nat (Z.max 0 (Z.of_nat (String.length value) + - Z.of_nat n)))
    with (String.length value - n)%nat by lia.
  reflexivity.
Qed.

Lemma mask_partial_zero (config : LogConfig) (value : string) :
  mask_style config = PARTIAL -> partial_mask_chars config = 0 ->
  value <> EmptyString ->
  _mask_value config value = String.append "..." value.
Proof.
  intros E En Hv. unfold _mask_value. rewrite E, En.
  destruct value as [| c value]; [contradiction |].
  reflexivity.
Qed.

(** With a negative number of characters no value is short, and the
    slices [value[:n]] and [value[-n:]] leave out the last and the first
    [-n] characters. *)
Lemma mask_partial_negative (config : LogConfig) (value : string) (m : nat) :
  mask_style config = PARTIAL ->
  partial_mask_chars config = - Z.of_nat m -> (0 < m)%nat ->
  _mask_value config value
  = String.append (take (String.length value - m) value)
      (String.append "..." (drop (Nat.min m (String.length value)) value)).
Proof.
  intros E En Hm. unfold _mask_value. rewrite E, En.
  destruct (Z.of_nat (String.length value) <=? - Z.of_nat m * 2) eqn:El.
  { apply Z.leb_le in El. lia. }
  unfold slice_to, slice_from, slice_index.
  destruct (- Z.of_nat m <? 0) eqn:E1; [| apply Z.ltb_ge in E1; lia].
  destruct (- - Z.of_nat m <? 0) eqn:E2; [apply Z.ltb_lt in E2; lia |].
  assert (E3 : Z.to_nat (Z.max 0 (Z.of_nat (String.length value)
                                  + - Z.of_nat m))
               = (String.length value - m)%nat) by lia.
  assert (E4 : Z.to_nat (- - Z.of_nat m) = m) by lia.
  now rewrite E3, E4.
Qed.

Lemma mask_hash (config : LogConfig) (value : string) :
  mask_style config = HASH ->
  _mask_value config value
  = String.append "[HASH:"
      (String.append (take 8 (sha256_hexdigest value)) "]").
Proof.
  intros E. unfold _mask_value. rewrite E. unfold slice_to, slice_index.
  change (8 <? 0) with false. cbv iota.
  change (Z.to_nat 8) with 8%nat. now rewrite take_min.
Qed.

End Redaction.

Section RedactionClaim.
Context `{Hashlib} `{logging.Regex} `{logging.Urllib}.
Import logging logging.RequestLogger.
Local Open Scope Z_scope.

Lemma mask_length_bound (config : LogConfig) (value : string) :
  (mask_style config = FULL ->
   String.length (_mask_value config value) = 14%nat)
  /\ (mask_style config = PARTIAL -> 0 < partial_mask_chars config ->
      2 * partial_mask_chars config < Z.of_nat (String.length value) ->
      Z.of_nat (String.length (_mask_value config value))
      = 2 * partial_mask_chars config + 3)
  /\ (mask_style config = HASH ->
      (String.length (_mask_value config value) <= 15)%nat).
Proof.
  split; [| split].
  - intros E. now rewrite mask_full.
  - intros E Hn Hl.
    rewrite (mask_partial_long config value
               (Z.to_nat (partial_mask_chars config))); try assumption;
      try lia.
    rewrite !length_append, take_length, drop_length. simpl. lia.
  - intros E. rewrite mask_hash by assumption.
    rewrite !length_append, take_length.
    change (String.length "[HASH:") with 6%nat.
    change (String.length "]") with 1%nat. lia.
Qed.

Lemma longer_not_contained (value mask : string) :
  (String.length mask < String.length value)%nat ->
  Py.contains value mask = false.
Proof.
  intros Hl. destruct (Py.contains value mask) eqn:E; [| reflexivity].
  apply contains_length in E. lia.
Qed.

Lemma occurs_prefix (c : ascii) (p s : string) :
  String.prefix p s = true -> occurs c p = true -> occurs c s = true.
Proof.
  revert s. induction p as [| a p IH]; intros s; simpl;
    [intros _ Hc; discriminate |].
  destruct s as [| b s]; [discriminate |].
  intros Hp Hc. simpl in Hp |- *.
  destruct (ascii_dec a b) as [<- | Hne]; [| discriminate].
  apply orb_true_iff in Hc as [Hc | Hc].
  - now rewrite Hc.
  - rewrite (IH s Hp Hc). apply orb_true_r.
Qed.

(** A string contains no string with a character it lacks. *)
Lemma occurs_contains (c : ascii) (needle haystack : string) :
  Py.contains needle haystack = true -> occurs c needle = true ->
  occurs c haystack = true.
Proof.
  induction haystack as [| b h IH]; cbn [Py.contains].
  - rewrite orb_false_r. apply occurs_prefix.
  - intros Hc Ho. apply orb_true_iff in Hc as [Hp | Hc].
    + now apply (occurs_prefix c needle).
    + simpl. rewrite (IH Hc Ho). apply orb_true_r.
Qed.

Lemma foreign_not_contained (c : ascii) (value mask : string) :
  occurs c value = true -> occurs c mask = false ->
  Py.contains value mask = false.
Proof.
  intros Hv Hm. destruct (Py.contains value mask) eqn:E; [| reflexivity].
  rewrite (occurs_contains c value mask E Hv) in Hm. discriminate.
Qed.

Lemma occurs_stars (c : ascii) :
  c <> "*"%char -> occurs c "****" = false.
Proof.
  intros Hc. simpl.
  destruct (Ascii.eqb c "*") eqn:E; [| reflexivity].
  apply Ascii.eqb_eq in E. contradiction.
Qed.

(** C6, as the code has it.  In the output of [redact_headers] a header
    whose lower-cased name is in [redact_headers] carries
    [_mask_value(value)], and so does every value of a query parameter
    whose lower-cased name is in [redact_query_params] in the parameters
    that [redact_url] re-encodes, for a URL that [urlparse] accepts and
    whose query is not empty.  The mask follows the style: [FULL] gives
    [***REDACTED***]; [PARTIAL] with [n] characters gives [****] when
    [len(value) <= 2n] and otherwise [value[:n]], [...] and [value[-n:]],
    which for [n >= 1] are the first and the last [n] characters, for
    [n = 0] nothing and the whole value, and for [n < 0] the value
    without its last and without its first [-n] characters; [HASH] gives [[HASH:] followed by
    the first 8 characters of the SHA-256 digest and []].  What the mask
    shows of the value: nothing under [FULL] and for a value of at most
    [2n] characters under [PARTIAL] (all such values have the same mask),
    the first and last [n] characters of a longer value, the digest prefix
    under [HASH].  The mask does not contain the value when the value has
    a character that the constant mask lacks (one outside
    [***REDACTED***] under [FULL], one other than [*] for a value of at
    most [2n] characters under [PARTIAL]), nor when the value is longer
    than the mask: longer than 14 characters under [FULL], than [2n + 3]
    under [PARTIAL] with [n >= 1], than 15 under [HASH]. *)
Theorem C6_redaction (config : LogConfig) :
  (forall headers key value,
      List.NoDup (map fst headers) -> In (key, value) headers ->
      Py.lower key ∈ lowered_set (logging.redact_headers config) ->
      Py.lookup key (redact_headers config headers)
      = Some (_mask_value config value))
  /\ (forall url query,
         urlparse_query url = Some query -> query <> EmptyString ->
         redact_url config url
         = inr (urlunparse_with_query url
                  (urlencode (redacted_params config (parse_qs query)))))
  /\ (forall params key values,
         List.NoDup (map fst params) -> In (key, values) params ->
         Py.lower key ∈ lowered_set (redact_query_params config) ->
         Py.lookup key (redacted_params config params)
         = Some (map (_mask_value config) values))
  /\ (forall value,
         (mask_style config = FULL ->
          _mask_value config value = "***REDACTED***"%string)
         /\ (mask_style config = PARTIAL ->
             Z.of_nat (String.length value) <= 2 * partial_mask_chars config ->
             _mask_value config value = "****"%string)
         /\ (forall n : nat,
                mask_style config = PARTIAL ->
                partial_mask_chars config = Z.of_nat n -> (0 < n)%nat ->
                (2 * n < String.length value)%nat ->
                _mask_value config value
                = String.append (take n value)
                    (String.append "..."
                       (drop (String.length value - n) value)))
         /\ (mask_style config = PARTIAL ->
             partial_mask_chars config = 0 -> value <> EmptyString ->
             _mask_value config value = String.append "..." value)
         /\ (forall m : nat,
                mask_style config = PARTIAL ->
                partial_mask_chars config = - Z.of_nat m -> (0 < m)%nat ->
                _mask_value config value
                = String.append (take (String.length value - m) value)
                    (String.append "..."
                       (drop (Nat.min m (String.length value)) value)))
         /\ (mask_style config = HASH ->
             _mask_value config value
             = String.append "[HASH:"
                 (String.append (take 8 (sha256_hexdigest value)) "]")))
  /\ (forall value value',
         (mask_style config = FULL ->
          _mask_value config value = _mask_value config value')
         /\ (mask_style config = PARTIAL ->
             Z.of_nat (String.length value) <= 2 * partial_mask_chars config ->
             Z.of_nat (String.length value') <= 2 * partial_mask_chars config ->
             _mask_value config value = _mask_value config value')
         /\ (forall n : nat,
                mask_style config = PARTIAL ->
                partial_mask_chars config = Z.of_nat n -> (0 < n)%nat ->
                (2 * n < String.length value)%nat ->
                (2 * n < String.length value')%nat ->
                take n value = take n value' ->
                drop (String.length value - n) value
                = drop (String.length value' - n) value' ->
                _mask_value config value = _mask_value config value')
         /\ (mask_style config = HASH ->
             take 8 (sha256_hexdigest value)
             = take 8 (sha256_hexdigest value') ->
             _mask_value config value = _mask_value config value'))
  /\ (forall value,
         (mask_style config = FULL ->
          forall c, occurs c value = true ->
                    occurs c "***REDACTED***" = false ->
                    Py.contains value (_mask_value config value) = false)
         /\ (mask_style config = PARTIAL ->
             Z.of_nat (String.length value) <= 2 * partial_mask_chars config ->
             forall c, occurs c value = true -> c <> "*"%char ->
                       Py.contains value (_mask_value config value) = false)
         /\ (mask_style config = FULL -> (14 < String.length value)%nat ->
             Py.contains value (_mask_value config value) = false)
         /\ (mask_style config = PARTIAL -> 0 < partial_mask_chars config ->
             2 * partial_mask_chars config + 3
             < Z.of_nat (String.length value) ->
             Py.contains value (_mask_value config value) = false)
         /\ (mask_style config = HASH -> (15 < String.length value)%nat ->
             Py.contains value (_mask_value config value) = false)).
Proof.
  split; [| split; [| split; [| split; [| split]]]].
  - intros. now apply redact_headers_masks.
  - apply redact_url_query.
  - intros. now apply redacted_params_masks.
  - intros value. split; [apply mask_full |].
    split; [apply mask_partial_short |].
    split; [intros n; apply mask_partial_long |].
    split; [apply mask_partial_zero |].
    split; [intros m; apply mask_partial_negative | apply mask_hash].
  - intros value value'. split; [| split; [| split]].
    + intros E. now rewrite !mask_full.
    + intros E Hl Hl'. now rewrite !mask_partial_short.
    + intros n E En Hn Hl Hl' Ht Hd.
      rewrite (mask_partial_long config value n),
        (mask_partial_long config value' n); try assumption.
      now rewrite Ht, Hd.
    + intros E Hd. rewrite !mask_hash by assumption. now rewrite Hd.
  - intros value.
    destruct (mask_length_bound config value) as (Hf & Hp & Hh).
    split; [| split; [| split; [| split]]].
    + intros E c Hc Hm. rewrite mask_full by assumption.
      now apply (foreign_not_contained c).
    + intros E Hl c Hc Hm. rewrite mask_partial_short by assumption.
      apply (foreign_not_contained c); [assumption | now apply occurs_stars].
    + intros E Hl. apply longer_not_contained. rewrite (Hf E). exact Hl.
    + intros E Hn Hl. apply longer_not_contained.
      specialize (Hp E Hn ltac:(lia)). lia.
    + intros E Hl. apply longer_not_contained. specialize (Hh E). lia.
Qed.

End RedactionClaim.

(** C6 on the request of the specification's scenario 6, under the default
    configuration: the Authorization header is logged as [Bear...2345];
    and on the short value [abc123], which its mask does not contain. *)
Lemma C6_redaction_witness :
  let headers := [("Authorization", "Bearer secret-token-12345")]%string in
  List.NoDup (map fst headers)
  /\ In ("Authorization", "Bearer secret-token-12345")%string headers
  /\ Py.lower "Authorization"
     ∈ logging.RequestLogger.lowered_set
         (logging.redact_headers logging.default_config)
  /\ Py.lookup "Authorization"
       (logging.RequestLogger.redact_headers logging.default_config headers)
     = Some "Bear...2345"%string
  /\ Py.contains "abc123"
       (logging.RequestLogger._mask_value logging.default_config "abc123")
     = false.
Proof.
  assert (Hn : List.NoDup
                 (map fst
                    [("Authorization", "Bearer secret-token-12345")]%string)).
  { simpl. constructor; [intros [] | constructor]. }
  assert (Hs : Py.lower "Authorization"
               ∈ logging.RequestLogger.lowered_set
                   (logging.redact_headers logging.default_config)).
  { eapply (bool_decide_unpack _). vm_compute. exact I. }
  split; [exact Hn |]. split; [now left |]. split; [exact Hs |].
  destruct (C6_redaction logging.default_config)
    as (Hheaders & _ & _ & _ & _ & Hhide).
  split.
  - exact (Hheaders _ "Authorization"%string
             "Bearer secret-token-12345"%string Hn (or_introl eq_refl) Hs).
  - destruct (Hhide "abc123"%string) as (_ & Hshort & _).
    apply (Hshort eq_refl ltac:(simpl; lia) "a"%char eq_refl).
    discriminate.
Defined.

(** C6 as stated fails: under the default configuration ([PARTIAL] with 4
    characters) the value [abcd...efgh] of the Authorization header, whose
    lower-cased name is in the redaction list, is its own mask, so the
    output of [redact_headers] contains the original value. *)
Lemma C6_counterexample :
  let headers := [("Authorization", "abcd...efgh")]%string in
  bool_decide
    (Py.lower "Authorization"
     ∈ logging.RequestLogger.lowered_set
         (logging.redact_headers logging.default_config)) = true
  /\ logging.RequestLogger.redact_headers logging.default_config headers
     = [("Authorization", "abcd...efgh")]%string
  /\ exists rendered,
      Py.lookup "Authorization"
        (logging.RequestLogger.redact_headers logging.default_config headers)
      = Some rendered
      /\ Py.contains "abcd...efgh" rendered = true.
Proof.
  split; [vm_compute; reflexivity |].
  split; [vm_compute; reflexivity |].
  exists "abcd...efgh"%string. split; vm_compute; reflexivity.
Qed.

(** ** The pipeline and the cache (C8) *)

Section PipelineCache.
Context {A : Type} `{Hashlib} `{cache.JsonDumps A} `{retry.HeaderParsers}.
Context `{logging.Urllib}.
Variable env : client.Environment.
Variable self : client.RateWiseClient.
Import client.
Local Open Scope Z_scope.

Lemma lookup_del_same {W : Type} (d : list (string * W)) (k : string) :
  Py.lookup k (Py.del k d) = None.
Proof.
  induction d as [| [k' w] d IH]; simpl; [reflexivity |].
  destruct (String.eqb k k') eqn:E; simpl; [assumption |].
  now rewrite E.
Qed.



Lemma get_miss_absent {W : Type} (now : Q) (key : string)
    (c : cache.InMemoryCache W) :
  fst (cache.get now key c) = None ->
  Py.lookup (cache._make_key c key) (cache._cache (snd (cache.get now key c)))
  = None
  /\ cache.namespace (snd (cache.get now key c)) = cache.namespace c.
Proof.
  unfold cache.get.
  assert (Hns : cache.namespace (cache._evict_expired now c)
                = cache.namespace c).
  { rewrite evict_expired_unfold.
    now destruct (evict_keys_spec (cache.expired_keys now c) c)
      as (_ & -> & _). }
  destruct (Py.lookup (cache._make_key c key)
              (cache._cache (cache._evict_expired now c))) as [e |] eqn:El;
    [destruct (cache.is_expired now e) |]; simpl; try discriminate;
    intros _; (split; [| assumption]).
  - apply lookup_del_same.
  - assumption.
Qed.


Ltac pipeline_unfold :=
  unfold on_response, on_exception, retry_in_handler, sleep_and_continue,
    time_sleep, note_retry, breaker_record_failure, breaker_record_success,
    time_time.

Ltac pipeline_cases :=
  repeat (match goal with
          | |- context [match backoff_delay ?e ?c ?a with _ => _ end] =>
              destruct (backoff_delay e c a) eqn:?
          | |- context [match delay_on_429 ?e ?c ?a ?r with _ => _ end] =>
              destruct (delay_on_429 e c a r) eqn:?
          | |- context [match process_response ?m ?c ?r with _ => _ end] =>
              destruct (process_response m c r) eqn:?
          | |- context [if ?c then _ else _] => destruct c eqn:?
          | |- context [match cache ?s with _ => _ end] =>
              destruct (cache s) eqn:?
          | |- context [match cache.Clocked.set ?k ?n ?key ?r ?t ?g ?c
                        with _ => _ end] =>
              destruct (cache.Clocked.set k n key r t g c) as [[? ?] |] eqn:?
          end; simpl).

(** An admitted attempt calls the transport and hands its outcome to the
    [try] suite or to the [except] clauses. *)
Lemma attempt_body_admitted (method url : string)
    (params : option (list (string * A)))
    (merged_headers : list (string * string)) (use_cache : bool)
    (context : RequestContext)
    (attempt : Z) (last : option Exception) (s : State)
    (cb : circuit_breaker.CircuitBreaker) :
  circuit_breaker.allow_request (clock env (ticks s)) (circuit_breaker s)
  = (true, cb) ->
  attempt_body env self method url params merged_headers use_cache context
    attempt last s
  = match transport env attempt with
    | inl e => on_exception env self attempt e (admitted cb s)
    | inr response =>
        match on_response env self method url params merged_headers
                use_cache context attempt response (admitted cb s) with
        | SuiteContinue s' => Continue last s'
        | SuiteReturn r s' => Return r s'
        | SuiteRaise e s' => on_exception env self attempt e s'
        end
    end.
Proof.
  intros Ha. unfold attempt_body, time_time. simpl. rewrite Ha. reflexivity.
Qed.

Lemma attempt_body_denied (method url : string)
    (params : option (list (string * A)))
    (merged_headers : list (string * string)) (use_cache : bool)
    (context : RequestContext)
    (attempt : Z) (last : option Exception) (s : State)
    (cb : circuit_breaker.CircuitBreaker) :
  circuit_breaker.allow_request (clock env (ticks s)) (circuit_breaker s)
  = (false, cb) ->
  exists s',
    attempt_body env self method url params merged_headers use_cache context
      attempt last s
    = Raise (CircuitBreakerOpen (circuit_breaker._failure_count cb)) s'
    /\ cache s' = cache s /\ sent s' = sent s.
Proof.
  intros Ha. unfold attempt_body, time_time. simpl. rewrite Ha. simpl.
  eexists. split; [reflexivity |]. split; reflexivity.
Qed.

(** The [except] clauses never return a response and leave the cache. *)
Lemma on_exception_cache (attempt : Z) (e : Exception) (s : State) :
  match on_exception env self attempt e s with
  | Return _ _ => False
  | Continue _ s' | Raise _ s' => cache s' = cache s
  end.
Proof. pipeline_unfold. destruct e; simpl; pipeline_cases; reflexivity. Qed.

(** The [try] suite touches the cache only to store a 2xx response that
    it returns. *)
Lemma on_response_cache (method url : string)
    (params : option (list (string * A)))
    (merged_headers : list (string * string)) (use_cache : bool)
    (context : RequestContext)
    (attempt : Z) (response : Response) (s : State) :
  match on_response env self method url params merged_headers use_cache
          context attempt response s with
  | SuiteContinue s' | SuiteRaise _ s' => cache s' = cache s
  | SuiteReturn r s' =>
      r = response
      /\ stored_iff_2xx (clock env) (uses_cache method use_cache s)
           (pipeline_cache_key method url params merged_headers) s r s'
  end.
Proof.
  pipeline_unfold. unfold stored_iff_2xx, uses_cache, is_2xx.
  destruct (status_code response =? 429);
    [pipeline_cases; reflexivity |].
  destruct (retry.should_retry_on_status _ _);
    [pipeline_cases; reflexivity |].
  simpl.
  destruct (process_response (middleware self) context response)
    as [e | u]; [reflexivity |].
  destruct (cache s) as [c |] eqn:Ec; simpl;
    [| split; [reflexivity | congruence]].
  destruct use_cache, (String.eqb (Py.upper method) "GET"); simpl;
    try (split; [reflexivity | simpl; congruence]).
  destruct (200 <=? status_code response) eqn:E200,
    (status_code response <? 300) eqn:E300; simpl;
    try (split; [reflexivity | rewrite ?E200, ?E300; simpl; congruence]).
  match goal with
  | |- context [match ?x with Some _ => _ | None => _ end] =>
      destruct x as [[c' tick'] |] eqn:Es; simpl
  end.
  - split; [reflexivity |]. rewrite E200, E300. simpl.
    exists c, c', (ticks s), tick'. auto.
  - congruence.
Qed.




Lemma attempt_numbers_first (max_attempts : Z) :
  1 <= max_attempts ->
  attempt_numbers max_attempts
  = 1 :: map Z.of_nat (seq 2 (Z.to_nat max_attempts - 1)).
Proof.
  intros Hm. unfold attempt_numbers.
  replace (Z.to_nat max_attempts) with (S (Z.to_nat max_attempts - 1))
    at 1 by lia.
  reflexivity.
Qed.


End PipelineCache.




(** ** The retry decision on a response (C3) *)

Section RetryDecision.
Context {A : Type} `{Hashlib} `{cache.JsonDumps A} `{retry.HeaderParsers}.
Variable env : client.Environment.
Variable self : client.RateWiseClient.
Import client.
Local Open Scope Z_scope.













End RetryDecision.




(** The 429 branch does not consult [retry_on_status]: with the set
    reduced to 500, a 429 followed by a 200 is still retried. *)
Lemma retry_429_outside_retry_on_status :
  let env := environment [inr (response 429 None)] 0 in
  let self :=
    {| client.base_url := "https://api.example.com";
       client.backoff := plain_backoff;
       client.retry_config :=
         {| retry.max_attempts := 3;
            retry.retry_on_status := {[ 500%Z ]};
            retry.respect_retry_after := true;
            retry.max_retry_after := 300;
            retry.retry_on_timeout := true;
            retry.retry_on_connection_error := true;
            retry.idempotent_methods := retry.default_idempotent_methods |};
       client.default_headers := [];
       client.middleware := default_chain;
       client.log_config := logging.default_config |} in
  let run :=
    client._make_request (A := string) env self "GET" "/x" None None true
      fresh_state in
  retry.should_retry_on_status 429 (Some (client.retry_config self)) = false
  /\ fst run = client.Returned (response 200 None)
  /\ client.sent (snd run) = 2%Z
  /\ List.length (client.slept (snd run)) = 1%nat.
Proof. vm_compute. repeat split; reflexivity. Qed.

(** ** Retry-After against backoff (C2) *)

Section RetryAfter.
Context `{retry.HeaderParsers}.
Variable env : client.Environment.
Variable self : client.RateWiseClient.
Import client.

(** What the 429 branch computes: a Retry-After value other than zero is
    the delay, capped only when [respect_retry_after] is set; without a
    value, or with the value zero, the backoff delay is used. *)
Lemma delay_on_429_cases (attempt : Z) (retry_after : option Q) :
  (forall r, retry_after = Some r -> ~ (r == 0)%Q ->
             retry.respect_retry_after (retry_config self) = true ->
             delay_on_429 env self attempt retry_after
             = inr (Py.min r (retry.max_retry_after (retry_config self))))
  /\ (forall r, retry_after = Some r -> ~ (r == 0)%Q ->
                retry.respect_retry_after (retry_config self) = false ->
                delay_on_429 env self attempt retry_after = inr r)
  /\ (retry_after = None ->
      delay_on_429 env self attempt retry_after
      = backoff_delay env self attempt)
  /\ (forall r, retry_after = Some r -> (r == 0)%Q ->
                delay_on_429 env self attempt retry_after
                = backoff_delay env self attempt).
Proof.
  unfold delay_on_429, Py.truthy_opt, Py.truthy.
  split; [| split; [| split]].
  - intros r -> Hr Hresp. rewrite Hresp.
    destruct (Qeq_bool r 0) eqn:E; [apply Qeq_bool_iff in E; contradiction |].
    reflexivity.
  - intros r -> Hr Hresp. rewrite Hresp.
    destruct (Qeq_bool r 0) eqn:E; [apply Qeq_bool_iff in E; contradiction |].
    reflexivity.
  - intros ->. rewrite andb_false_r.
    now destruct (backoff_delay env self attempt).
  - intros r -> Hr. apply Qeq_bool_iff in Hr. rewrite Hr. simpl.
    rewrite andb_false_r. now destruct (backoff_delay env self attempt).
Qed.

End RetryAfter.

(** C2 at its failing input.  A client with [respect_retry_after] unset
    and a backoff of 1 second without jitter meets a 429 carrying
    [Retry-After: 5], then a 200: it sleeps for 5 seconds, the header's
    value, where the claim has the backoff delay of 1 second.  With
    [respect_retry_after] set the same exchange sleeps 5 seconds, as the
    claim's example says; and with [Retry-After: 0] it sleeps the backoff
    delay of 1 second, where the claim has [min(0, 300) = 0]. *)
Theorem C2_retry_after_evaluation :
  let ignoring :=
    {| client.base_url := "https://api.example.com";
       client.backoff := plain_backoff;
       client.retry_config :=
         {| retry.max_attempts := 3;
            retry.retry_on_status := retry.default_retry_statuses;
            retry.respect_retry_after := false;
            retry.max_retry_after := 300;
            retry.retry_on_timeout := true;
            retry.retry_on_connection_error := true;
            retry.idempotent_methods := retry.default_idempotent_methods |};
       client.default_headers := [];
       client.middleware := default_chain;
       client.log_config := logging.default_config |} in
  let five := environment [inr (response 429 (Some "5"%string))] 0 in
  let zero := environment [inr (response 429 (Some "0"%string))] 0 in
  let run self env :=
    client._make_request (A := string) env self "GET" "/test" None None true
      fresh_state in
  (fst (run ignoring five) = client.Returned (response 200 None)
   /\ client.slept (snd (run ignoring five)) = [5%Q]
   /\ client.backoff_delay five ignoring 1 = inr 1%Q)
  /\ (fst (run (a_client 3) five) = client.Returned (response 200 None)
      /\ client.slept (snd (run (a_client 3) five)) = [5%Q])
  /\ (retry.parse_retry_after (Some "0"%string) = Some 0%Q
      /\ client.slept (snd (run (a_client 3) zero)) = [1%Q]
      /\ client.backoff_delay zero (a_client 3) 1 = inr 1%Q).
Proof. vm_compute. repeat split; reflexivity. Qed.

(** ** Exhausted 429s (C4) and the failure counter (C10) *)

(** C4 at its failing input, the test [test_stops_after_max_retries]: a
    new client with three attempts whose transport always answers 429
    with [Retry-After: 1].  The [RateLimitExceeded] raised on the third
    attempt is caught by the [except Exception] clause of the same [try]
    statement: the call raises [RequestError] with the
    [RateLimitExceeded] as its cause, and the breaker has recorded two
    failures, not one.  Three attempts were issued and
    [circuit_breaker_trips] is unchanged. *)
Theorem C4_exhausted_429_evaluation :
  let env := constant_environment (inr (response 429 (Some "1"%string))) 0 in
  let run :=
    client._make_request (A := string) env (a_client 3) "GET" "/endpoint"
      None None true fresh_state in
  fst run = client.Raised (RequestError (RateLimitExceeded 3 (Some 1%Z)))
  /\ fst run <> client.Raised (RateLimitExceeded 3 (Some 1%Z))
  /\ client.sent (snd run) = 3%Z
  /\ circuit_breaker.failed_calls
       (circuit_breaker._metrics (client.circuit_breaker (snd run))) = 2%Z
  /\ circuit_breaker._failure_count (client.circuit_breaker (snd run)) = 2%Z
  /\ models.circuit_breaker_trips (client._stats (snd run)) = 0%Z.
Proof. vm_compute. repeat split; try reflexivity. discriminate. Qed.

(** C10 at its failing inputs.  After the exhausted 429s of C4, and after
    a POST answered by a 500 (a retryable status blocked by idempotency),
    [failed_requests] is 1, not 0: the error raised on the status is
    caught by the [except Exception] clause, which counts a failed request
    (and a second breaker failure).  Attempts that raise a transport
    exception are counted once each: two timeouts followed by a 200 leave
    [failed_requests] at 2. *)
Theorem C10_failed_requests_evaluation :
  let run method env :=
    client._make_request (A := string) env (a_client 3) method "/endpoint"
      None None true fresh_state in
  let always_429 :=
    constant_environment (inr (response 429 (Some "1"%string))) 0 in
  let always_500 := constant_environment (inr (response 500 None)) 0 in
  let timeouts :=
    environment [inl HttpxTimeoutException; inl HttpxTimeoutException] 0 in
  (fst (run "GET" always_429)
   = client.Raised (RequestError (RateLimitExceeded 3 (Some 1%Z)))
   /\ models.failed_requests (client._stats (snd (run "GET" always_429)))
      = 1%Z)
  /\ (fst (run "POST" always_500)
      = client.Raised (RequestError (ServerError 500))
      /\ models.failed_requests (client._stats (snd (run "POST" always_500)))
         = 1%Z
      /\ circuit_breaker.failed_calls
           (circuit_breaker._metrics
              (client.circuit_breaker (snd (run "POST" always_500)))) = 2%Z)
  /\ (fst (run "GET" always_500)
      = client.Raised (RequestError (ServerError 500))
      /\ models.failed_requests (client._stats (snd (run "GET" always_500)))
         = 1%Z)
  /\ (fst (run "GET" timeouts) = client.Returned (response 200 None)
      /\ models.failed_requests (client._stats (snd (run "GET" timeouts)))
         = 2%Z).
Proof. vm_compute. repeat split; reflexivity. Qed.

(* ===================================================================== *)
(** * Further properties of the library *)
(* ===================================================================== *)

(** ** Retry statistics *)

Section Statistics.
Import retry.RetryStatistics.
Local Open Scope Q_scope.

Lemma sum_from (l : list Q) (a : Q) : fold_left Qplus l a == a + sum l.
Proof.
  unfold sum. revert a. induction l as [| x l IH]; intros a; simpl.
  - ring.
  - rewrite (IH (a + x)), (IH (0 + x)). ring.
Qed.

Lemma sum_snoc (l : list Q) (x : Q) : sum (l ++ [x]) == sum l + x.
Proof.
  unfold sum. rewrite fold_left_app. simpl. reflexivity.
Qed.

Lemma record_attempt_consistent (success : bool) (delay : Q)
    (status_code : option Z) (st : t) :
  statistics_consistent st ->
  statistics_consistent (record_attempt success delay status_code st).
Proof.
  intros (Ht & Hd & Hp & Hl & Hc). unfold statistics_consistent. simpl.
  split; [destruct success; lia |].
  destruct (Py.Qltb 0 delay) eqn:E.
  - apply Qltb_true in E.
    split; [rewrite fold_left_app; simpl; rewrite Hd; reflexivity |].
    split; [apply List.Forall_app; split; [assumption | now constructor] |].
    split; [rewrite length_app; simpl; lia |].
    destruct status_code; [rewrite length_app; simpl |]; lia.
  - split; [assumption |]. split; [assumption |]. split; [lia |].
    destruct status_code; [rewrite length_app; simpl |]; lia.
Qed.

Lemma record_all_consistent (calls : list (bool * Q * option Z)) (st : t) :
  statistics_consistent st -> statistics_consistent (record_all calls st).
Proof.
  unfold record_all. revert st.
  induction calls as [| [[success delay] code] calls IH]; intros st Hst.
  - exact Hst.
  - simpl. apply IH. now apply record_attempt_consistent.
Qed.

Lemma record_all_total (calls : list (bool * Q * option Z)) (st : t) :
  total_attempts (record_all calls st)
  = (total_attempts st + Z.of_nat (List.length calls))%Z.
Proof.
  unfold record_all. revert st.
  induction calls as [| [[success delay] code] calls IH]; intros st.
  - simpl. lia.
  - cbn [fold_left List.length]. rewrite IH. simpl. lia.
Qed.

Lemma sum_nonneg (l : list Q) : Forall (fun d => 0 < d) l -> 0 <= sum l.
Proof.
  induction l as [| x l IH] using rev_ind; intros Hl.
  - unfold sum. simpl. lra.
  - apply List.Forall_app in Hl as [Hl Hx]. inversion Hx; subst.
    rewrite sum_snoc. specialize (IH Hl). lra.
Qed.

Lemma average_delay_nonneg (st : t) :
  Forall (fun d => 0 < d) (delays st) -> 0 <= average_delay st.
Proof.
  intros Hl. unfold average_delay. destruct (delays st) as [| d l] eqn:E.
  - lra.
  - apply Qle_shift_div_l.
    + unfold Qlt. simpl. lia.
    + rewrite Qmult_0_l. now apply sum_nonneg.
Qed.

(** X1.  After any sequence of [record_attempt] calls on new statistics:
    [total_attempts] is the number of calls and equals
    [successful_attempts + failed_attempts]; [total_delay] is what adding
    the recorded delays, one after the other in the order of the calls, to
    zero gives; the recorded delays are all positive (a delay of zero or
    less is not recorded); neither list is longer than the number of
    attempts; and [average_delay] is not negative. *)
Theorem X1_retry_statistics (calls : list (bool * Q * option Z)) :
  let st := record_all calls new in
  total_attempts st = Z.of_nat (List.length calls)
  /\ statistics_consistent st
  /\ 0 <= average_delay st.
Proof.
  intros st.
  assert (Hc : statistics_consistent st).
  { apply record_all_consistent. unfold statistics_consistent. simpl.
    repeat split; try lia; try reflexivity. constructor. }
  split; [unfold st; rewrite record_all_total; simpl; lia |].
  split; [exact Hc |].
  destruct Hc as (_ & _ & Hp & _). now apply average_delay_nonneg.
Qed.

End Statistics.

(** ** The retry decorator *)

Section DecoratorFacts.
Context {W E R : Type}.
Variable max_attempts : Z.
Variable backoff : retry.ExponentialBackoff.
Variable random : Z -> Q.
Variable func : W -> (E + R) * W.
Local Open Scope Z_scope.


Lemma attempts_cons (first count : nat) :
  map Z.of_nat (seq first (S count))
  = Z.of_nat first :: map Z.of_nat (seq (S first) count).
Proof. reflexivity. Qed.




(** Whatever [func] does, the loop calls it at most once per remaining
    attempt and sleeps less often than it calls. *)
Lemma loop_bounds (count : nat) :
  forall (first : nat) (last : option E) (s : retry.WrapperState),
    Z.of_nat (first + count) = max_attempts + 1 ->
    let s' :=
      snd (retry.wrapper_loop max_attempts backoff random func
             (map Z.of_nat (seq first count)) last s) in
    retry.calls s <= retry.calls s'
    /\ retry.calls s' <= retry.calls s + Z.of_nat count
    /\ (List.length (retry.sleeps s) <= List.length (retry.sleeps s'))%nat
    /\ ((0 < count)%nat ->
        retry.calls s < retry.calls s'
        /\ Z.of_nat (List.length (retry.sleeps s'))
           < Z.of_nat (List.length (retry.sleeps s))
             + (retry.calls s' - retry.calls s))
    /\ (count = 0%nat -> s' = s).
Proof.
  induction count as [| count IH]; intros first last s Hm; cbn zeta.
  - simpl. destruct last; simpl; repeat split; try lia; reflexivity.
  - rewrite attempts_cons. cbn [retry.wrapper_loop].
    destruct (func (retry.world s)) as [[e | r] w']; simpl.
    + destruct (Z.of_nat first >=? max_attempts) eqn:Hge; simpl;
        [repeat split; intros; lia |].
      destruct (retry.calculate_delay _ _ _) as [e' | delay]; simpl;
        [repeat split; intros; lia |].
      destruct (Py.Qltb _ 0); simpl; [repeat split; intros; lia |].
      rewrite Z.geb_leb in Hge. apply Z.leb_gt in Hge.
      match goal with
      | |- context [retry.wrapper_loop _ _ _ _ _ ?l ?st] =>
          specialize (IH (S first) l st ltac:(lia)); cbn zeta in IH;
          simpl in IH;
          destruct (retry.wrapper_loop max_attempts backoff random func
                      (map Z.of_nat (seq (S first) count)) l st) as [o s']
      end.
      simpl in *. rewrite length_app in IH. simpl in IH.
      destruct IH as (Hc1 & Hc2 & Hs1 & Hs2 & _).
      specialize (Hs2 ltac:(lia)).
      repeat split; intros; lia.
    + repeat split; intros; lia.
Qed.


End DecoratorFacts.





(** X4.  Whatever [func] does, the decorated function calls it at most
    [max_attempts] times and sleeps fewer times than it calls it; with
    [max_attempts >= 1] it calls [func] at least once; with
    [max_attempts <= 0] it never calls [func] and ends in the [TypeError]
    of [raise None]. *)
Theorem X4_decorator_bounds {W E R : Type} (max_attempts : Z)
    (backoff : retry.ExponentialBackoff) (random : Z -> Q)
    (func : W -> (E + R) * W) (w : W) :
  let s' := snd (retry.wrapper max_attempts backoff random func w) in
  (0 <= retry.calls s' <= Z.max 0 max_attempts)%Z
  /\ ((1 <= max_attempts)%Z ->
      (1 <= retry.calls s')%Z
      /\ (Z.of_nat (List.length (retry.sleeps s')) < retry.calls s')%Z)
  /\ ((max_attempts <= 0)%Z ->
      retry.wrapper max_attempts backoff random func w
      = (retry.WrapperRaiseNoneTypeError,
         {| retry.world := w; retry.calls := 0; retry.sleeps := [] |})).
Proof.
  cbn zeta. unfold retry.wrapper, retry.wrapper_attempts.
  destruct (Z_le_gt_dec max_attempts 0) as [Hle | Hgt].
  - replace (Z.to_nat max_attempts) with 0%nat by lia. simpl.
    split; [lia |]. split; [lia | reflexivity].
  - pose proof (loop_bounds max_attempts backoff random func
                  (Z.to_nat max_attempts) 1 None
                  {| retry.world := w; retry.calls := 0;
                     retry.sleeps := [] |} ltac:(lia)) as Hb.
    cbn zeta in Hb. simpl in Hb.
    destruct Hb as (Hc1 & Hc2 & _ & Hpos & _).
    specialize (Hpos ltac:(lia)).
    split; [lia |]. split; [intros _; lia | lia].
Qed.

(** X4 with no attempt allowed. *)
Lemma X4_decorator_bounds_witness :
  (0 <= 0)%Z
  /\ retry.wrapper (R := nat) 0 plain_backoff (fun _ => 0%Q) (flaky 5) 0%nat
     = (retry.WrapperRaiseNoneTypeError,
        {| retry.world := 0%nat; retry.calls := 0; retry.sleeps := [] |}).
Proof.
  split; [lia |].
  apply (X4_decorator_bounds 0 plain_backoff (fun _ => 0%Q) (flaky 5) 0%nat).
  lia.
Defined.

(** ** Method names *)

Section MethodCase.

Lemma upper_ascii_idempotent (c : ascii) :
  Py.upper_ascii (Py.upper_ascii c) = Py.upper_ascii c.
Proof. destruct c as [[] [] [] [] [] [] [] []]; reflexivity. Qed.

Lemma upper_lower_ascii (c : ascii) :
  Py.upper_ascii (Py.lower_ascii c) = Py.upper_ascii c.
Proof. destruct c as [[] [] [] [] [] [] [] []]; reflexivity. Qed.

Lemma upper_idempotent (s : string) : Py.upper (Py.upper s) = Py.upper s.
Proof.
  induction s as [| c s IH]; simpl; [reflexivity |].
  now rewrite upper_ascii_idempotent, IH.
Qed.

Lemma upper_lower (s : string) : Py.upper (Py.lower s) = Py.upper s.
Proof.
  induction s as [| c s IH]; simpl; [reflexivity |].
  now rewrite upper_lower_ascii, IH.
Qed.

Lemma upper_ascii_below (c : ascii) :
  Nat.ltb (nat_of_ascii c) 128 = true ->
  Nat.ltb (nat_of_ascii (Py.upper_ascii c)) 128 = true.
Proof.
  destruct c as [[] [] [] [] [] [] [] []]; intros H; exact H || reflexivity.
Qed.

Lemma upper_isascii (s : string) :
  Py.isascii s = true -> Py.isascii (Py.upper s) = true.
Proof.
  induction s as [| c s IH]; simpl; [reflexivity |].
  intros H. apply andb_true_iff in H as [Hc Hs].
  apply andb_true_iff. split; [now apply upper_ascii_below | now apply IH].
Qed.

End MethodCase.

(** X5.  On a method name made of ASCII characters
    [is_idempotent_method] does not depend on the case of the name: the
    method, its upper-cased and its lower-cased form get the same answer,
    with or without a configuration.  The configured names are compared as
    they are: such a method is found idempotent only through an entry of
    [idempotent_methods] that is already upper-case, so a configuration
    whose ASCII entries all contain a lower-case letter makes no ASCII
    method name idempotent. *)
Theorem X5_idempotent_method_case (method : string)
    (config : option retry.RetryConfig) :
  Py.isascii method = true ->
  retry.is_idempotent_method (Py.upper method) config
  = retry.is_idempotent_method method config
  /\ retry.is_idempotent_method (Py.lower method) config
     = retry.is_idempotent_method method config
  /\ (forall c,
         config = Some c ->
         (forall name, name ∈ retry.idempotent_methods c ->
                       Py.isascii name = true -> Py.upper name <> name) ->
         retry.is_idempotent_method method config = false).
Proof.
  intros Hascii. unfold retry.is_idempotent_method. split; [| split].
  - now rewrite upper_idempotent.
  - now rewrite upper_lower.
  - intros c -> Hlow. apply bool_decide_eq_false_2. intros Hin.
    apply (Hlow _ Hin); [now apply upper_isascii | apply upper_idempotent].
Qed.

(** X5 on a configuration that lists the method in lower case. *)
Lemma X5_idempotent_method_case_witness :
  let c :=
    {| retry.max_attempts := 3;
       retry.retry_on_status := retry.default_retry_statuses;
       retry.respect_retry_after := true;
       retry.max_retry_after := 300;
       retry.retry_on_timeout := true;
       retry.retry_on_connection_error := true;
       retry.idempotent_methods := {[ "get"%string ]} |} in
  Py.isascii "get" = true
  /\ retry.is_idempotent_method "get" (Some c) = false.
Proof.
  intros c. split; [reflexivity |].
  apply (proj2 (proj2 (X5_idempotent_method_case "get" (Some c) eq_refl))
           c eq_refl).
  intros name Hin _.
  change (name ∈ ({[ "get"%string ]} : gset string)) in Hin.
  apply elem_of_singleton in Hin. subst name.
  vm_compute. discriminate.
Defined.

(** ** More on the circuit breaker *)

Section BreakerFacts.
Import circuit_breaker.
Local Open Scope Z_scope.

Ltac to_Prop :=
  repeat match goal with
         | H : (_ >=? _) = true |- _ =>
             rewrite Z.geb_leb in H; apply Z.leb_le in H
         | H : (_ >=? _) = false |- _ =>
             rewrite Z.geb_leb in H; apply Z.leb_gt in H
         end.

Ltac cases_of cb :=
  let Hs := fresh "Hs" in
  unfold allow_request, is_open, record_success, record_failure, reset,
    _transition_to;
  destruct (_state cb) eqn:Hs; simpl; rewrite ?Hs; simpl;
  repeat (match goal with
          | |- context [if ?c then _ else _] => destruct c eqn:?
          end; simpl; rewrite ?Hs; simpl).

Lemma new_accounting (ft st : Z) (rt : Q)
    (expected excluded : option (list (Exception -> bool))) :
  breaker_accounting (new ft st rt expected excluded).
Proof.
  unfold breaker_accounting. simpl.
  repeat split; try lia. all: congruence.
Qed.

Lemma apply_accounting (now : Q) (op : Operation) (cb : CircuitBreaker) :
  breaker_accounting cb -> breaker_accounting (apply now op cb).
Proof.
  unfold breaker_accounting.
  intros (Ht & Hr & Hx & Hfc & Hsc & Ho).
  assert (Ho' : _state cb = CLOSED
                \/ (1 <= _failure_count cb
                    /\ exists t, _last_failure_time cb = Some t)).
  { destruct (_state cb); [left; reflexivity | right; apply Ho; congruence
                          | right; apply Ho; congruence]. }
  clear Ho.
  destruct op as [| | | e |]; simpl; cases_of cb;
    destruct Ho' as [Hc | [H1 [t Hl]]]; try discriminate;
    repeat split; intros; try congruence; try lia; eauto.
Qed.

Lemma run_accounting (ops : list (Q * Operation)) (cb : CircuitBreaker) :
  breaker_accounting cb -> breaker_accounting (run ops cb).
Proof.
  revert cb. unfold run.
  induction ops as [| [now op] ops IH]; intros cb Hi; simpl.
  - assumption.
  - apply IH. now apply apply_accounting.
Qed.

End BreakerFacts.

(** X6.  In every state a new breaker reaches, whatever its thresholds
    and filters: [total_calls] is the sum of [successful_calls] and
    [failed_calls] (rejected calls are counted apart); the failure count
    lies between 0 and [failed_calls] and the success count between 0 and
    [successful_calls]; and an open or half-open circuit has a failure
    count of at least one and a recorded time of the last failure, so
    that its recovery is always measured from a failure. *)
Theorem X6_breaker_accounting
    (failure_threshold success_threshold : Z) (recovery_timeout : Q)
    (expected_exceptions excluded_exceptions
       : option (list (Exception -> bool)))
    (ops : list (Q * circuit_breaker.Operation)) :
  let cb :=
    circuit_breaker.run ops
      (circuit_breaker.new failure_threshold success_threshold
         recovery_timeout expected_exceptions excluded_exceptions) in
  let m := circuit_breaker._metrics cb in
  (circuit_breaker.total_calls m
   = circuit_breaker.successful_calls m + circuit_breaker.failed_calls m)%Z
  /\ (0 <= circuit_breaker.rejected_calls m)%Z
  /\ (0 <= circuit_breaker.state_transitions m)%Z
  /\ (0 <= circuit_breaker._failure_count cb
      <= circuit_breaker.failed_calls m)%Z
  /\ (0 <= circuit_breaker._success_count cb
      <= circuit_breaker.successful_calls m)%Z
  /\ (circuit_breaker._state cb <> circuit_breaker.CLOSED ->
      (1 <= circuit_breaker._failure_count cb)%Z
      /\ exists t, circuit_breaker._last_failure_time cb = Some t).
Proof.
  intros cb m.
  apply (run_accounting ops). apply new_accounting.
Qed.

Section BreakerCall.
Import circuit_breaker.
Local Open Scope Z_scope.
Context {W R : Type}.
Variable func : W -> (Exception + R) * W.





Lemma call_denied (now_check now_fail : Q) (w : W) (cb : CircuitBreaker) :
  _state cb = OPEN -> recovery_pending now_check cb ->
  call now_check now_fail func w cb
  = (inl (CircuitBreakerOpen (_failure_count cb)), w,
     set_metrics (count_rejected (_metrics cb)) cb).
Proof.
  intros Hs Hp.
  assert (Hd : fst (allow_request now_check cb) = false)
    by now apply allow_request_denies_iff.
  pose proof (proj1 (allow_request_rejected now_check cb) Hd) as Hcb.
  unfold call. destruct (allow_request now_check cb) as [a cb1].
  simpl in Hd, Hcb. subst a cb1. reflexivity.
Qed.


(** A raising call through a closed circuit. *)
Lemma call_closed_raises (now_check now_fail : Q) (w : W)
    (cb : CircuitBreaker) (e : Exception) :
  _state cb = CLOSED -> fst (func w) = inl e ->
  call now_check now_fail func w cb
  = (inl e, snd (func w), record_failure now_fail (Some e) cb).
Proof.
  intros Hs He. unfold call, allow_request, is_open. rewrite Hs. simpl.
  destruct (func w) as [o w']. simpl in He. subst o. reflexivity.
Qed.

(** What a counted failure leaves of a closed circuit. *)
Lemma record_failure_closed_fields (now : Q) (e : option Exception)
    (cb : CircuitBreaker) :
  _state cb = CLOSED -> counted e cb = true ->
  let cb' := record_failure now e cb in
  _failure_count cb' = _failure_count cb + 1
  /\ _last_failure_time cb' = Some now
  /\ failure_threshold cb' = failure_threshold cb
  /\ recovery_timeout cb' = recovery_timeout cb
  /\ expected_exceptions cb' = expected_exceptions cb
  /\ excluded_exceptions cb' = excluded_exceptions cb
  /\ rejected_calls (_metrics cb') = rejected_calls (_metrics cb)
  /\ _state cb'
     = (if _failure_count cb + 1 >=? failure_threshold cb
        then OPEN else CLOSED).
Proof.
  intros Hs Hc. unfold record_failure, _transition_to. rewrite Hc. simpl.
  rewrite Hs. simpl.
  destruct (_failure_count cb + 1 >=? failure_threshold cb); simpl;
    rewrite ?Hs; simpl; repeat split.
Qed.

Hypothesis always_raises : forall w, exists e, fst (func w) = inl e.

(** Fewer raising calls than the threshold allows leave the circuit
    closed; each of them has run the function. *)
Lemma raising_calls_closed (times : list (Q * Q)) (w : W)
    (cb : CircuitBreaker) :
  _state cb = CLOSED ->
  (forall e, counted (Some e) cb = true) ->
  _failure_count cb + Z.of_nat (List.length times) < failure_threshold cb ->
  let '(outcomes, w', cb') := call_each times func w cb in
  outcomes = outcomes_after func (List.length times) w
  /\ w' = world_after func (List.length times) w
  /\ _state cb' = CLOSED
  /\ _failure_count cb' = _failure_count cb + Z.of_nat (List.length times)
  /\ failure_threshold cb' = failure_threshold cb
  /\ recovery_timeout cb' = recovery_timeout cb
  /\ rejected_calls (_metrics cb') = rejected_calls (_metrics cb)
  /\ (forall e, counted (Some e) cb' = true).
Proof using always_raises.
  revert w cb. induction times as [| [tc tf] times IH]; intros w cb Hs Hc Hlt.
  - simpl. repeat split; try lia; assumption.
  - cbn [List.length] in Hlt. rewrite Nat2Z.inj_succ in Hlt.
    cbn [call_each List.length outcomes_after world_after].
    destruct (always_raises w) as [e He].
    rewrite (call_closed_raises tc tf w cb e Hs He).
    destruct (record_failure_closed_fields tf (Some e) cb Hs (Hc e))
      as (Hfc & Hl & Hft & Hrt & Hex & Hxc & Hrj & Hst).
    set (cb1 := record_failure tf (Some e) cb) in *.
    assert (Hge : (_failure_count cb + 1 >=? failure_threshold cb) = false).
    { rewrite Z.geb_leb. apply Z.leb_gt. lia. }
    rewrite Hge in Hst.
    assert (Hc1 : forall e', counted (Some e') cb1 = true).
    { intros e'. specialize (Hc e'). unfold counted in *.
      now rewrite Hex, Hxc. }
    specialize (IH (snd (func w)) cb1 Hst Hc1).
    destruct (call_each times func (snd (func w)) cb1)
      as [[outcomes w'] cb'].
    destruct IH as (Ho & Hw & Hs' & Hf' & Ht' & Hr' & Hj' & Hc').
    { rewrite Hfc, Hft. lia. }
    repeat split; try assumption; try congruence.
    rewrite Hf', Hfc, Nat2Z.inj_succ. lia.
Qed.

Lemma call_each_app (times1 times2 : list (Q * Q)) (w : W)
    (cb : CircuitBreaker) :
  call_each (times1 ++ times2) func w cb
  = let '(outcomes1, w1, cb1) := call_each times1 func w cb in
    let '(outcomes2, w2, cb2) := call_each times2 func w1 cb1 in
    (outcomes1 ++ outcomes2, w2, cb2).
Proof.
  revert w cb. induction times1 as [| [tc tf] times1 IH]; intros w cb.
  - simpl. now destruct (call_each times2 func w cb) as [[o w2] cb2].
  - cbn [call_each app].
    destruct (call tc tf func w cb) as [[o w1] cb1].
    rewrite IH.
    destruct (call_each times1 func w1 cb1) as [[os1 w2] cb2].
    now destruct (call_each times2 func w2 cb2) as [[os2 w3] cb3].
Qed.

Lemma world_after_snoc (n : nat) (w : W) :
  world_after func (S n) w = snd (func (world_after func n w)).
Proof.
  revert w. induction n as [| n IH]; intros w; [reflexivity |].
  change (world_after func (S (S n)) w)
    with (world_after func (S n) (snd (func w))).
  rewrite IH. reflexivity.
Qed.

Lemma outcomes_after_snoc (n : nat) (w : W) :
  outcomes_after func (S n) w
  = outcomes_after func n w ++ [fst (func (world_after func n w))].
Proof.
  revert w. induction n as [| n IH]; intros w; [reflexivity |].
  change (outcomes_after func (S (S n)) w)
    with (fst (func w) :: outcomes_after func (S n) (snd (func w))).
  rewrite IH. reflexivity.
Qed.

End BreakerCall.



(** X8.  Through a new breaker with a failure threshold of [n + 1] and
    no exception filters, [n + 1] calls of a function that always raises
    all run the function and pass its exception on; the circuit is still
    closed after [n] of them and open after the last, with a failure
    count equal to the threshold.  From then on, until [recovery_timeout]
    has passed since that last failure, every call raises
    [CircuitBreakerOpen] without running the function. *)
Theorem X8_breaker_trips_after_threshold {W R : Type}
    (failure_threshold success_threshold : Z) (recovery_timeout : Q)
    (func : W -> (Exception + R) * W)
    (times : list (Q * Q)) (now_check now_fail : Q) (w : W) :
  (forall w, exists e, fst (func w) = inl e) ->
  (Z.of_nat (List.length times) + 1 = failure_threshold)%Z ->
  let new :=
    circuit_breaker.new failure_threshold success_threshold
      recovery_timeout None None in
  let n := List.length times in
  let '(outcomes, w', cb') :=
    call_each (times ++ [(now_check, now_fail)]) func w new in
  circuit_breaker._state (snd (call_each times func w new))
  = circuit_breaker.CLOSED
  /\ outcomes = outcomes_after func (S n) w
  /\ w' = world_after func (S n) w
  /\ circuit_breaker._state cb' = circuit_breaker.OPEN
  /\ circuit_breaker._failure_count cb' = failure_threshold
  /\ circuit_breaker._last_failure_time cb' = Some now_fail
  /\ forall now now', (now - now_fail < recovery_timeout)%Q ->
       circuit_breaker.call now now' func w' cb'
       = (inl (CircuitBreakerOpen failure_threshold), w',
          circuit_breaker.set_metrics
            (circuit_breaker.count_rejected (circuit_breaker._metrics cb'))
            cb').
Proof.
  intros Hraise Hlen new n.
  rewrite (call_each_app func).
  pose proof (raising_calls_closed func Hraise times w new) as Hpre.
  destruct (call_each times func w new) as [[outcomes1 w1] cb1].
  destruct Hpre as (Ho & Hw & Hs & Hf & Ht & Hr & _ & Hc);
    [reflexivity | reflexivity | simpl; lia |].
  cbn [call_each].
  destruct (Hraise w1) as [e He].
  rewrite (call_closed_raises func now_check now_fail w1 cb1 e Hs He).
  destruct (record_failure_closed_fields now_fail (Some e) cb1 Hs (Hc e))
    as (Hfc & Hl & Hft & Hrt & _ & _ & _ & Hst).
  set (cb' := circuit_breaker.record_failure now_fail (Some e) cb1) in *.
  simpl in Hf, Ht, Hr.
  assert (Hge : (circuit_breaker._failure_count cb1 + 1
                 >=? circuit_breaker.failure_threshold cb1)%Z = true).
  { rewrite Z.geb_leb. apply Z.leb_le. lia. }
  rewrite Hge in Hst.
  assert (Hfc' : circuit_breaker._failure_count cb' = failure_threshold)
    by lia.
  subst n. split; [assumption |].
  split; [rewrite outcomes_after_snoc; subst outcomes1 w1;
          now rewrite He |].
  split; [rewrite world_after_snoc; now subst w1 |].
  split; [assumption |]. split; [assumption |]. split; [assumption |].
  intros now now' Hlt. rewrite <- Hfc'.
  apply call_denied; [assumption |].
  exists now_fail. split; [assumption |]. rewrite Hrt, Hr. exact Hlt.
Qed.

(** X8 with a threshold of three. *)
Lemma X8_breaker_trips_after_threshold_witness :
  let '(outcomes, w', cb') :=
    call_each (R := nat) [(1, 1); (2, 2); (3, 3)]%Q failing 0%nat
      (circuit_breaker.new 3 2 60 None None) in
  w' = 3%nat
  /\ circuit_breaker._state cb' = circuit_breaker.OPEN
  /\ fst (fst (circuit_breaker.call 10 10 failing w' cb'))
     = inl (CircuitBreakerOpen 3).
Proof.
  pose proof (X8_breaker_trips_after_threshold (R := nat) 3 2 60 failing
                [(1, 1); (2, 2)]%Q 3 3 0%nat
                (fun w => ex_intro _ HttpxConnectError eq_refl) eq_refl)
    as H.
  cbv zeta in H.
  change ([(1, 1); (2, 2)] ++ [(3, 3)])%Q
    with [(1, 1); (2, 2); (3, 3)]%Q in H.
  destruct (call_each [(1, 1); (2, 2); (3, 3)]%Q failing 0%nat
              (circuit_breaker.new 3 2 60 None None)) as [[outcomes w'] cb'].
  destruct H as (_ & _ & Hw & Hs & _ & _ & Hcall).
  split; [exact Hw |]. split; [exact Hs |].
  rewrite (Hcall 10%Q 10%Q eq_refl). reflexivity.
Defined.

Section BreakerOpen.
Import circuit_breaker.
Local Open Scope Z_scope.

Lemma record_failure_not_closed (now : Q) (e : option Exception)
    (cb : CircuitBreaker) :
  _state cb <> CLOSED -> counted e cb = true ->
  _state (record_failure now e cb) = OPEN
  /\ _failure_count (record_failure now e cb) = _failure_count cb + 1
  /\ _last_failure_time (record_failure now e cb) = Some now
  /\ recovery_timeout (record_failure now e cb) = recovery_timeout cb.
Proof.
  intros Hs Hc. unfold record_failure, _transition_to. rewrite Hc. simpl.
  destruct (_state cb) eqn:E; [congruence | |]; simpl; rewrite ?E;
    repeat split.
Qed.

Lemma pending_since (now t : Q) (cb : CircuitBreaker) :
  _last_failure_time cb = Some t ->
  recovery_pending now cb <-> (now - t < recovery_timeout cb)%Q.
Proof.
  intros Hl. unfold recovery_pending. split.
  - intros (t' & Ht' & Hlt). congruence.
  - intros Hlt. now exists t.
Qed.

Lemma quiet_step (now t : Q) (op : Operation) (cb : CircuitBreaker) :
  _state cb = OPEN -> _last_failure_time cb = Some t ->
  (now - t < recovery_timeout cb)%Q -> is_quiet op = true ->
  let cb' := apply now op cb in
  _state cb' = OPEN
  /\ _last_failure_time cb' = Some t
  /\ recovery_timeout cb' = recovery_timeout cb
  /\ _failure_count cb' = _failure_count cb
  /\ rejected_calls (_metrics cb')
     = rejected_calls (_metrics cb) + (if is_allow_request op then 1 else 0)
  /\ successful_calls (_metrics cb')
     = successful_calls (_metrics cb)
       + (if is_record_success op then 1 else 0)
  /\ state_transitions (_metrics cb') = state_transitions (_metrics cb).
Proof.
  intros Hs Hl Hlt Hq.
  assert (Hr : _should_attempt_recovery now cb = false).
  { unfold _should_attempt_recovery. rewrite Hl.
    destruct (Qle_bool (recovery_timeout cb) (now - t)) eqn:E;
      [| reflexivity].
    apply Qle_bool_iff in E. exfalso. now apply (Qle_not_lt _ _ E). }
  destruct op as [| | | e |]; try discriminate; simpl;
    unfold allow_request, is_open, record_success; simpl;
    rewrite ?Hs; simpl; rewrite ?Hr; simpl;
    repeat split; try assumption; lia.
Qed.

Lemma quiet_run (t : Q) (ops : list (Q * Operation)) (cb : CircuitBreaker) :
  _state cb = OPEN -> _last_failure_time cb = Some t ->
  Forall (fun x => (fst x - t < recovery_timeout cb)%Q
                   /\ is_quiet (snd x) = true) ops ->
  let cb' := run ops cb in
  _state cb' = OPEN
  /\ _last_failure_time cb' = Some t
  /\ _failure_count cb' = _failure_count cb
  /\ rejected_calls (_metrics cb')
     = rejected_calls (_metrics cb) + count_operations is_allow_request ops
  /\ successful_calls (_metrics cb')
     = successful_calls (_metrics cb)
       + count_operations is_record_success ops
  /\ state_transitions (_metrics cb') = state_transitions (_metrics cb).
Proof.
  revert cb. unfold run, count_operations.
  induction ops as [| [now op] ops IH]; intros cb Hs Hl Hall.
  - simpl. repeat split; try assumption; lia.
  - apply List.Forall_cons_iff in Hall. destruct Hall as [[Hlt Hq] Hall].
    simpl in Hlt, Hq.
    destruct (quiet_step now t op cb Hs Hl Hlt Hq)
      as (Hs1 & Hl1 & Hrt1 & Hf1 & Hj1 & Hc1 & Hx1).
    cbn [fold_left List.filter snd].
    specialize (IH (apply now op cb) Hs1 Hl1).
    destruct IH as (Hs2 & Hl2 & Hf2 & Hj2 & Hc2 & Hx2).
    { rewrite Hrt1. exact Hall. }
    repeat split; try congruence.
    + rewrite Hj2, Hj1. destruct op; simpl; rewrite ?Nat2Z.inj_succ; lia.
    + rewrite Hc2, Hc1. destruct op; simpl; rewrite ?Nat2Z.inj_succ; lia.
Qed.

End BreakerOpen.

(** X9.  A counted failure reported while the circuit is open or
    half-open leaves it open, adds one to the failure count and restarts
    the recovery wait: from then on the permission check denies exactly
    while less than [recovery_timeout] has passed since that failure. *)
Theorem X9_failure_restarts_recovery (now : Q) (e : option Exception)
    (cb : circuit_breaker.CircuitBreaker) :
  circuit_breaker._state cb <> circuit_breaker.CLOSED ->
  circuit_breaker.counted e cb = true ->
  let cb' := circuit_breaker.record_failure now e cb in
  circuit_breaker._state cb' = circuit_breaker.OPEN
  /\ circuit_breaker._failure_count cb'
     = (circuit_breaker._failure_count cb + 1)%Z
  /\ forall now',
      fst (circuit_breaker.allow_request now' cb') = false
      <-> (now' - now < circuit_breaker.recovery_timeout cb)%Q.
Proof.
  intros Hs Hc cb'. subst cb'.
  destruct (record_failure_not_closed now e cb Hs Hc)
    as (Hst & Hfc & Hl & Hrt).
  split; [assumption |]. split; [assumption |].
  intros now'. rewrite allow_request_denies_iff.
  rewrite (pending_since now' now _ Hl), Hrt.
  tauto.
Qed.

(** X9 on a half-open circuit whose probe fails at time 100. *)
Lemma X9_failure_restarts_recovery_witness :
  let cb :=
    snd (circuit_breaker.allow_request 70
           (circuit_breaker.record_failure 0 None
              (circuit_breaker.new 1 2 60 None None))) in
  circuit_breaker._state cb = circuit_breaker.HALF_OPEN
  /\ fst (circuit_breaker.allow_request 159
            (circuit_breaker.record_failure 100 None cb)) = false.
Proof.
  intros cb. split; [reflexivity |].
  apply (proj2 (proj2 (X9_failure_restarts_recovery 100 None cb
                         ltac:(discriminate) eq_refl))).
  reflexivity.
Defined.

(** X10.  While its recovery timeout is pending, an open circuit is not
    moved by permission checks, [is_open] queries or reported successes:
    after any sequence of them it is still open with the same failure
    count and the same time of the last failure; [rejected_calls] has
    grown by the number of permission checks, [successful_calls] by the
    number of reported successes, and no state transition is counted. *)
Theorem X10_open_circuit_waits (t : Q)
    (ops : list (Q * circuit_breaker.Operation))
    (cb : circuit_breaker.CircuitBreaker) :
  circuit_breaker._state cb = circuit_breaker.OPEN ->
  circuit_breaker._last_failure_time cb = Some t ->
  Forall (fun x => (fst x - t < circuit_breaker.recovery_timeout cb)%Q
                   /\ is_quiet (snd x) = true) ops ->
  let cb' := circuit_breaker.run ops cb in
  circuit_breaker._state cb' = circuit_breaker.OPEN
  /\ circuit_breaker._last_failure_time cb' = Some t
  /\ circuit_breaker._failure_count cb' = circuit_breaker._failure_count cb
  /\ circuit_breaker.rejected_calls (circuit_breaker._metrics cb')
     = (circuit_breaker.rejected_calls (circuit_breaker._metrics cb)
        + count_operations is_allow_request ops)%Z
  /\ circuit_breaker.successful_calls (circuit_breaker._metrics cb')
     = (circuit_breaker.successful_calls (circuit_breaker._metrics cb)
        + count_operations is_record_success ops)%Z
  /\ circuit_breaker.state_transitions (circuit_breaker._metrics cb')
     = circuit_breaker.state_transitions (circuit_breaker._metrics cb).
Proof.
  intros Hs Hl Hall cb'.
  destruct (quiet_run t ops cb Hs Hl Hall) as (H1 & H2 & H3 & H4 & H5 & H6).
  repeat split; assumption.
Qed.

(** X10 on a circuit opened at time 0: two checks and a success within
    the 60 seconds. *)
Lemma X10_open_circuit_waits_witness :
  let cb :=
    circuit_breaker.record_failure 0 None
      (circuit_breaker.new 1 2 60 None None) in
  let cb' :=
    circuit_breaker.run
      [(10%Q, circuit_breaker.AllowRequest);
       (20%Q, circuit_breaker.RecordSuccess);
       (30%Q, circuit_breaker.AllowRequest)] cb in
  circuit_breaker._state cb' = circuit_breaker.OPEN
  /\ circuit_breaker.rejected_calls (circuit_breaker._metrics cb') = 2%Z.
Proof.
  intros cb cb'.
  destruct (X10_open_circuit_waits 0
              [(10%Q, circuit_breaker.AllowRequest);
               (20%Q, circuit_breaker.RecordSuccess);
               (30%Q, circuit_breaker.AllowRequest)] cb eq_refl eq_refl)
    as (Hs & _ & _ & Hr & _).
  - repeat constructor.
  - split; [exact Hs | exact Hr].
Defined.

(** ** More on the in-memory cache *)

Section DictionaryFacts.
Context {V : Type}.
Implicit Types (d : list (string * V)) (k : string).

Lemma del_setitem d k v : Py.del k (Py.setitem k v d) = Py.del k d.
Proof.
  unfold Py.del. induction d as [| [k' v'] d IH]; simpl.
  - now rewrite String.eqb_refl.
  - destruct (String.eqb k k') eqn:E; simpl.
    + now rewrite String.eqb_refl.
    + rewrite E. simpl. now rewrite IH.
Qed.

Lemma lookup_del_ne d k k' :
  k' <> k -> Py.lookup k' (Py.del k d) = Py.lookup k' d.
Proof.
  intros Hne. unfold Py.del. induction d as [| [k0 v0] d IH]; simpl.
  - reflexivity.
  - destruct (String.eqb k k0) eqn:E; simpl.
    + apply String.eqb_eq in E. subst k0.
      destruct (String.eqb k' k) eqn:E'; [| assumption].
      apply String.eqb_eq in E'. contradiction.
    + now rewrite IH.
Qed.

Lemma lookup_app d1 d2 k :
  Py.lookup k (d1 ++ d2)
  = match Py.lookup k d1 with
    | Some v => Some v
    | None => Py.lookup k d2
    end.
Proof.
  induction d1 as [| [k' v'] d1 IH]; simpl; [reflexivity |].
  now destruct (String.eqb k k').
Qed.

Lemma lookup_del_eq d k : Py.lookup k (Py.del k d) = None.
Proof.
  unfold Py.del. induction d as [| [k' v'] d IH]; simpl; [reflexivity |].
  destruct (String.eqb k k') eqn:E; simpl; [assumption |].
  now rewrite E.
Qed.

Lemma lookup_skipn_none d k (n : nat) :
  Py.lookup k d = None -> Py.lookup k (skipn n d) = None.
Proof.
  revert d. induction n as [| n IH]; intros d; [trivial |].
  destruct d as [| [k' v'] d]; simpl; [trivial |].
  destruct (String.eqb k k'); [discriminate | apply IH].
Qed.

Lemma filter_filter {A : Type} (p q : A -> bool) (l : list A) :
  List.filter p (List.filter q l) = List.filter (fun x => q x && p x) l.
Proof.
  induction l as [| x l IH]; simpl; [reflexivity |].
  destruct (q x); simpl; [destruct (p x) |]; now rewrite IH.
Qed.

Lemma filter_all {A : Type} (l : list A) : List.filter (fun _ => true) l = l.
Proof. induction l as [| x l IH]; simpl; now rewrite ?IH. Qed.

(** Filtering on the keys either keeps or drops what a key is bound to. *)
Lemma lookup_filter_keys (p : string -> bool) d k :
  Py.lookup k (List.filter (fun kv => p (fst kv)) d)
  = if p k then Py.lookup k d else None.
Proof.
  induction d as [| [k' v'] d IH]; simpl; [now destruct (p k) |].
  destruct (String.eqb k k') eqn:E.
  - apply String.eqb_eq in E. subst k'.
    destruct (p k) eqn:Ep; simpl.
    + now rewrite String.eqb_refl.
    + rewrite IH. rewrite ?Ep. reflexivity.
  - destruct (p k'); simpl; [rewrite E |]; exact IH.
Qed.

End DictionaryFacts.

Section CacheFacts.
Context {V : Type}.
Import cache.
Local Open Scope Z_scope.
Implicit Types (c : InMemoryCache V) (now : Q)
  (d : list (string * CacheEntry V)).

Definition not_among (keys : list string) (kv : string * CacheEntry V)
  : bool :=
  negb (existsb (fun k => String.eqb k (fst kv)) keys).

(** The loop of [_evict_expired] removes the bindings of the listed keys
    and touches nothing but the eviction counter. *)
Lemma evict_keys_cache (keys : list string) c :
  _cache (evict_keys keys c) = List.filter (not_among keys) (_cache c)
  /\ hits (_stats (evict_keys keys c)) = hits (_stats c)
  /\ misses (_stats (evict_keys keys c)) = misses (_stats c)
  /\ sets (_stats (evict_keys keys c)) = sets (_stats c)
  /\ deletes (_stats (evict_keys keys c)) = deletes (_stats c).
Proof.
  revert c. induction keys as [| k keys IH]; intros c.
  - simpl. split; [| repeat split].
    unfold not_among. simpl. now rewrite filter_all.
  - change (evict_keys (k :: keys) c)
      with (evict_keys keys
              (with_stats (add_eviction (_stats c))
                 (with_cache (Py.del k (_cache c)) c))).
    destruct (IH (with_stats (add_eviction (_stats c))
                    (with_cache (Py.del k (_cache c)) c)))
      as (Hc & Hh & Hm & Hs & Hd).
    simpl in *. split; [| repeat split; assumption].
    rewrite Hc. unfold Py.del. rewrite filter_filter.
    apply List.filter_ext. intros kv. unfold not_among. simpl.
    now rewrite negb_orb.
Qed.

Lemma no_binding_no_key d (k : string) (p : string * CacheEntry V -> bool) :
  Py.lookup k d = None ->
  existsb (fun k' => String.eqb k' k) (map fst (List.filter p d)) = false.
Proof.
  induction d as [| [k' e'] d IH]; simpl; [reflexivity |].
  destruct (String.eqb k k') eqn:E; [discriminate |]. intros Hl.
  destruct (p (k', e')); simpl; [| now apply IH].
  rewrite String.eqb_sym, E. simpl. now apply IH.
Qed.

(** What the eviction of the expired entries leaves under a key that is
    bound last and only once. *)
Lemma evict_expired_lookup_last now c d (k : string) (e : CacheEntry V) :
  _cache c = d ++ [(k, e)] -> Py.lookup k d = None ->
  Py.lookup k (_cache (_evict_expired now c))
  = if is_expired now e then None else Some e.
Proof.
  intros Hc Hd. rewrite evict_expired_unfold.
  destruct (evict_keys_cache (expired_keys now c) c) as (-> & _).
  change (not_among (expired_keys now c))
    with (fun kv : string * CacheEntry V =>
            (fun k' => negb (existsb (fun k0 => String.eqb k0 k')
                               (expired_keys now c))) (fst kv)).
  rewrite lookup_filter_keys.
  unfold expired_keys. rewrite Hc, List.filter_app, List.map_app, existsb_app.
  rewrite (no_binding_no_key d k _ Hd). simpl.
  rewrite lookup_app, Hd. simpl. rewrite String.eqb_refl.
  destruct (is_expired now e); simpl; [| reflexivity].
  now rewrite String.eqb_refl.
Qed.

(** The loop of [_evict_lru] drops the first entries, as many as leave
    room for one more. *)
Lemma evict_lru_loop_exact (m : Z) d (n : Z) :
  1 <= m ->
  evict_lru_loop m d n
  = Some (skipn (Z.to_nat (Z.of_nat (List.length d) - m + 1)) d,
          n + Z.of_nat (Z.to_nat (Z.of_nat (List.length d) - m + 1))).
Proof.
  intros Hm. revert n. induction d as [| x d IH]; intros n.
  - cbn [evict_lru_loop List.length]. change (Z.of_nat 0) with 0.
    destruct (0 >=? m) eqn:E.
    + rewrite Z.geb_leb in E. apply Z.leb_le in E. lia.
    + replace (Z.to_nat (0 - m + 1)) with 0%nat by lia. simpl.
      do 2 f_equal. lia.
  - cbn [evict_lru_loop].
    destruct (Z.of_nat (List.length (x :: d)) >=? m) eqn:E.
    + rewrite IH. rewrite Z.geb_leb in E. apply Z.leb_le in E.
      cbn [List.length] in E |- *. rewrite Nat2Z.inj_succ in E |- *.
      replace (Z.to_nat (Z.succ (Z.of_nat (List.length d)) - m + 1))
        with (S (Z.to_nat (Z.of_nat (List.length d) - m + 1))) by lia.
      cbn [skipn]. do 2 f_equal. lia.
    + rewrite Z.geb_leb in E. apply Z.leb_gt in E.
      replace (Z.to_nat (Z.of_nat (List.length (x :: d)) - m + 1))
        with 0%nat by lia.
      simpl. do 2 f_equal. lia.
Qed.

(** [set] on a cache with room for at least one entry. *)
Lemma set_shape now (key : string) (v : V) (t : option Q)
    (g : option string) c :
  1 <= max_size c ->
  exists c',
    set now key v t g c = Some c'
    /\ _cache c'
       = Py.del (_make_key c key) (skipn (lru_excess c) (_cache c))
         ++ [(_make_key c key, stored_entry now v t g c)]
    /\ max_size c' = max_size c
    /\ namespace c' = namespace c
    /\ default_ttl c' = default_ttl c
    /\ hits (_stats c') = hits (_stats c)
    /\ misses (_stats c') = misses (_stats c)
    /\ sets (_stats c') = sets (_stats c) + 1
    /\ deletes (_stats c') = deletes (_stats c)
    /\ evictions (_stats c')
       = evictions (_stats c) + Z.of_nat (lru_excess c).
Proof.
  intros Hm. unfold set, _evict_lru.
  rewrite (evict_lru_loop_exact _ _ _ Hm).
  eexists. split; [reflexivity |]. simpl.
  change (_make_key (with_stats _ (with_cache _ c)) key)
    with (_make_key c key).
  unfold Py.move_to_end. rewrite lookup_setitem, del_setitem.
  repeat split.
Qed.

(** The counters after a [get]. *)
Lemma get_counts now (key : string) c :
  hits (_stats (snd (get now key c)))
  = hits (_stats c)
    + match fst (get now key c) with Some _ => 1 | None => 0 end
  /\ misses (_stats (snd (get now key c)))
     = misses (_stats c)
       + match fst (get now key c) with Some _ => 0 | None => 1 end
  /\ sets (_stats (snd (get now key c))) = sets (_stats c)
  /\ deletes (_stats (snd (get now key c))) = deletes (_stats c)
  /\ evictions (_stats c) <= evictions (_stats (snd (get now key c)))
  /\ max_size (snd (get now key c)) = max_size c
  /\ namespace (snd (get now key c)) = namespace c
  /\ default_ttl (snd (get now key c)) = default_ttl c.
Proof.
  destruct (evict_keys_cache (expired_keys now c) c)
    as (_ & Hh & Hm & Hs & Hd).
  destruct (evict_keys_spec (expired_keys now c) c)
    as (Hx & Hn & Ht & He & _).
  rewrite <- evict_expired_unfold in *.
  unfold get.
  destruct (Py.lookup (_make_key c key) (_cache (_evict_expired now c)))
    as [e |]; [destruct (is_expired now e) |]; simpl;
    repeat split; try assumption; lia.
Qed.

(** A hit moves the entry that was read to the most recently used end. *)
Lemma get_hit_shape now (key : string) c (v : V) :
  fst (get now key c) = Some v ->
  exists e,
    Py.lookup (_make_key c key) (_cache (_evict_expired now c)) = Some e
    /\ value e = v
    /\ _cache (snd (get now key c))
       = Py.del (_make_key c key) (_cache (_evict_expired now c))
         ++ [(_make_key c key, touched now e)].
Proof.
  unfold get.
  destruct (Py.lookup (_make_key c key) (_cache (_evict_expired now c)))
    as [e |]; [destruct (is_expired now e) |]; simpl; try discriminate.
  intros [= <-]. exists e. repeat split.
Qed.

Lemma append_injective (p a b : string) :
  String.append p a = String.append p b -> a = b.
Proof.
  induction p as [| ch p IH]; simpl; [trivial |].
  intros [= Heq]. now apply IH.
Qed.

Lemma make_key_injective c (k1 k2 : string) :
  _make_key c k1 = _make_key c k2 -> k1 = k2.
Proof.
  unfold _make_key. destruct (namespace c) as [| ch ns]; [trivial |].
  intros Heq. apply append_injective in Heq. now injection Heq.
Qed.

End CacheFacts.

Section CacheRoundTrip.
Context {V : Type}.
Import cache.
Local Open Scope Z_scope.
Implicit Types (c : InMemoryCache V).

Lemma make_key_namespace c c' (key : string) :
  namespace c' = namespace c -> _make_key c' key = _make_key c key.
Proof. intros Hn. unfold _make_key. now rewrite Hn. Qed.

(** What a [get] finds after a [set] of the same key. *)
Lemma set_then_get (now0 now1 : Q) (key : string) (v : V) (t : option Q)
    (g : option string) c :
  1 <= max_size c ->
  exists c',
    set now0 key v t g c = Some c'
    /\ namespace c' = namespace c
    /\ fst (get now1 key c')
       = if is_expired now1 (stored_entry now0 v t g c)
         then None else Some v.
Proof.
  intros Hm.
  destruct (set_shape now0 key v t g c Hm)
    as (c' & Hset & Hc & _ & Hn & _).
  exists c'. split; [assumption |]. split; [assumption |].
  rewrite get_result, (make_key_namespace c c' key Hn).
  rewrite (evict_expired_lookup_last now1 c' _ _ _ Hc)
    by apply lookup_del_eq.
  now destruct (is_expired now1 (stored_entry now0 v t g c)).
Qed.

Lemma fresh_not_expired (now0 now1 : Q) (v : V) (t : option Q)
    (g : option string) c :
  let e := stored_entry now0 v t g c in
  ((ttl e <= 0 \/ now1 - now0 < ttl e)%Q -> is_expired now1 e = false)
  /\ ((0 < ttl e /\ ttl e <= now1 - now0)%Q -> is_expired now1 e = true).
Proof.
  intros e. split.
  - intros Hf. destruct (is_expired now1 e) eqn:E; [| reflexivity].
    apply is_expired_iff in E. simpl in E. destruct E as [E0 E1].
    exfalso. destruct Hf as [Hf | Hf].
    + now apply (Qlt_not_le _ _ E0).
    + now apply (Qlt_not_le _ _ Hf).
  - intros Hs. apply is_expired_iff. exact Hs.
Qed.

End CacheRoundTrip.

(** X11.  On a cache with [max_size >= 1], [set] followed by [get] of the
    same key gives the stored value back, and counts a hit, as long as the
    entry is fresh: its [ttl] (the one given, or the default) is not
    positive, or less than [ttl] has passed since the [set].  Once [ttl]
    or more has passed the [get] returns nothing, counts a miss, and the
    key is gone from the cache. *)
Theorem X11_cache_round_trip {V : Type} (now0 now1 : Q) (key : string)
    (v : V) (ttl : option Q) (etag : option string)
    (c : cache.InMemoryCache V) :
  (1 <= cache.max_size c)%Z ->
  exists c',
    cache.set now0 key v ttl etag c = Some c'
    /\ let lifetime :=
         match ttl with Some t => t | None => cache.default_ttl c end in
       let after := cache.get now1 key c' in
       ((lifetime <= 0 \/ now1 - now0 < lifetime)%Q ->
        fst after = Some v
        /\ cache.hits (cache._stats (snd after))
           = (cache.hits (cache._stats c) + 1)%Z
        /\ cache.misses (cache._stats (snd after))
           = cache.misses (cache._stats c))
       /\ ((0 < lifetime /\ lifetime <= now1 - now0)%Q ->
           fst after = None
           /\ cache.misses (cache._stats (snd after))
              = (cache.misses (cache._stats c) + 1)%Z
           /\ cache.hits (cache._stats (snd after))
              = cache.hits (cache._stats c)
           /\ Py.lookup (cache._make_key c key)
                (cache._cache (snd after)) = None).
Proof.
  intros Hm.
  destruct (set_then_get now0 now1 key v ttl etag c Hm)
    as (c' & Hset & Hn & Hget).
  destruct (set_shape now0 key v ttl etag c Hm)
    as (c2 & Hset2 & _ & _ & _ & _ & Hh & Hmi & _).
  assert (c2 = c') by congruence. subst c2.
  exists c'. split; [assumption |]. intros lifetime after.
  destruct (get_counts now1 key c') as (Hh' & Hm' & _).
  destruct (fresh_not_expired now0 now1 v ttl etag c) as [Hfresh Hstale].
  fold after in Hget, Hh', Hm'. split.
  - intros Hf. rewrite (Hfresh Hf) in Hget.
    rewrite Hget in Hh', Hm'. repeat split; [assumption | lia | lia].
  - intros Hs. rewrite (Hstale Hs) in Hget.
    rewrite Hget in Hh', Hm'. repeat split; [assumption | lia | lia |].
    destruct (get_miss_absent now1 key c' Hget) as [Habs _].
    now rewrite (make_key_namespace c c' key Hn) in Habs.
Qed.

(** X11 on a new cache: stored at time 0 for 300 seconds, read at 299. *)
Lemma X11_cache_round_trip_witness :
  exists c',
    cache.set 0 "k" 7%Z None None (cache.new 300 1000 "") = Some c'
    /\ fst (cache.get 299 "k" c') = Some 7%Z.
Proof.
  destruct (X11_cache_round_trip 0 299 "k" 7%Z None None
              (cache.new 300 1000 "") ltac:(simpl; lia))
    as (c' & Hset & Hfresh & _).
  exists c'. split; [exact Hset |].
  apply Hfresh. right. reflexivity.
Defined.

(** X12.  On a cache with [max_size >= 1], [set] first evicts the least
    recently used entries, as many as leave room for one
    ([size - max_size + 1] of them, none if that is not positive), counts
    them in [stats.evictions], and then binds the key at the most recently
    used end.  So a cache that is not full loses nothing; a full cache
    loses its least recently used entry, also when the key that is set is
    already present and no room was needed. *)
Theorem X12_lru_eviction {V : Type} (now : Q) (key : string) (v : V)
    (ttl : option Q) (etag : option string) (c : cache.InMemoryCache V) :
  (1 <= cache.max_size c)%Z ->
  exists c',
    cache.set now key v ttl etag c = Some c'
    /\ cache._cache c'
       = Py.del (cache._make_key c key)
           (skipn (lru_excess c) (cache._cache c))
         ++ [(cache._make_key c key, stored_entry now v ttl etag c)]
    /\ cache.evictions (cache._stats c')
       = (cache.evictions (cache._stats c) + Z.of_nat (lru_excess c))%Z
    /\ ((cache.size c < cache.max_size c)%Z ->
        lru_excess c = 0%nat
        /\ forall key2, key2 <> key ->
             Py.lookup (cache._make_key c key2) (cache._cache c')
             = Py.lookup (cache._make_key c key2) (cache._cache c))
    /\ ((cache.size c = cache.max_size c)%Z ->
        lru_excess c = 1%nat
        /\ cache._cache c'
           = Py.del (cache._make_key c key) (tl (cache._cache c))
             ++ [(cache._make_key c key, stored_entry now v ttl etag c)]).
Proof.
  intros Hm.
  destruct (set_shape now key v ttl etag c Hm)
    as (c' & Hset & Hc & _ & _ & _ & _ & _ & _ & _ & He).
  exists c'. split; [assumption |]. split; [assumption |].
  split; [assumption |]. split.
  - intros Hlt. assert (H0 : lru_excess c = 0%nat)
      by (unfold lru_excess; lia).
    split; [assumption |]. intros key2 Hne.
    assert (Hk : cache._make_key c key2 <> cache._make_key c key).
    { intros Heq. apply Hne. now apply (make_key_injective c). }
    rewrite Hc, H0, List.skipn_O, lookup_app, lookup_del_ne by exact Hk.
    destruct (Py.lookup (cache._make_key c key2) (cache._cache c));
      [reflexivity |].
    simpl. destruct (String.eqb _ _) eqn:E; [| reflexivity].
    apply String.eqb_eq in E. contradiction.
  - intros Heq. assert (H1 : lru_excess c = 1%nat)
      by (unfold lru_excess; lia).
    split; [assumption |]. rewrite Hc, H1.
    now destruct (cache._cache c).
Qed.

(** X12 on a full cache of two entries: the older one goes. *)
Lemma X12_lru_eviction_witness :
  exists c1 c2 c3,
    cache.set 0 "a" 1%Z None None (cache.new 300 2 "") = Some c1
    /\ cache.set 1 "b" 2%Z None None c1 = Some c2
    /\ cache.set 2 "c" 3%Z None None c2 = Some c3
    /\ map fst (cache._cache c3) = ["b"; "c"]%string.
Proof.
  eexists. eexists.
  destruct (X12_lru_eviction 2 "c" 3%Z None None
              {| cache.default_ttl := 300; cache.max_size := 2;
                 cache.namespace := "";
                 cache._cache :=
                   [("a"%string, stored_entry 0 1%Z None None
                                   (cache.new 300 2 ""));
                    ("b"%string, stored_entry 1 2%Z None None
                                   (cache.new 300 2 ""))];
                 cache._stats :=
                   {| cache.hits := 0; cache.misses := 0; cache.sets := 2;
                      cache.deletes := 0; cache.evictions := 0 |} |}
              ltac:(simpl; lia))
    as (c3 & Hset & _ & _ & _ & Hfull).
  exists c3. split; [reflexivity |]. split; [reflexivity |].
  split; [exact Hset |].
  destruct (Hfull eq_refl) as [_ Hc]. rewrite Hc. reflexivity.
Defined.

(** X13.  A hit moves the entry that was read to the most recently used
    end of the cache, so that on a cache of capacity at least two, holding
    no more than its capacity, the entry just read survives the next
    insertion of another key and is still found under its key. *)
Theorem X13_read_protects_entry {V : Type} (now0 now1 : Q)
    (key key2 : string) (v v2 : V) (ttl : option Q) (etag : option string)
    (c : cache.InMemoryCache V) :
  (2 <= cache.max_size c)%Z ->
  (cache.size c <= cache.max_size c)%Z ->
  key2 <> key ->
  fst (cache.get now0 key c) = Some v ->
  let c1 := snd (cache.get now0 key c) in
  (exists e,
      cache.value e = v
      /\ cache._cache c1
         = Py.del (cache._make_key c key)
             (cache._cache (cache._evict_expired now0 c))
           ++ [(cache._make_key c key, touched now0 e)])
  /\ exists c2,
      cache.set now1 key2 v2 ttl etag c1 = Some c2
      /\ option_map cache.value
           (Py.lookup (cache._make_key c key) (cache._cache c2)) = Some v.
Proof.
  intros Hm Hsz Hne Hhit c1.
  destruct (get_hit_shape now0 key c v Hhit) as (e & _ & Hv & Hc1).
  fold c1 in Hc1. split; [now exists e |].
  destruct (get_size now0 key c) as [Hm1 Hs1]. fold c1 in Hm1, Hs1.
  destruct (get_counts now0 key c) as (_ & _ & _ & _ & _ & _ & Hn1 & _).
  fold c1 in Hn1.
  destruct (set_shape now1 key2 v2 ttl etag c1) as (c2 & Hset & Hc2 & _);
    [lia |].
  exists c2. split; [assumption |].
  rewrite !(make_key_namespace c c1 _ Hn1) in Hc2.
  assert (Hk : cache._make_key c key <> cache._make_key c key2).
  { intros Heq. apply Hne. symmetry. now apply (make_key_injective c). }
  set (d1 := Py.del (cache._make_key c key)
               (cache._cache (cache._evict_expired now0 c))) in *.
  assert (Hj : (lru_excess c1 <= List.length d1)%nat).
  { unfold lru_excess, cache.size in *. rewrite Hc1 in *.
    rewrite length_app in *. simpl in *. lia. }
  rewrite Hc2, Hc1, List.skipn_app.
  replace (lru_excess c1 - List.length d1)%nat with 0%nat by lia.
  rewrite List.skipn_O, lookup_app, lookup_del_ne by exact Hk.
  rewrite lookup_app.
  rewrite (lookup_skipn_none d1 _ _ (lookup_del_eq _ _)).
  simpl. rewrite String.eqb_refl. simpl. now rewrite Hv.
Qed.

(** X13 on a full cache of two entries: the older one is read, and the
    other one goes. *)
Lemma X13_read_protects_entry_witness :
  let c :=
    {| cache.default_ttl := 300; cache.max_size := 2;
       cache.namespace := "";
       cache._cache :=
         [("a"%string, stored_entry 0 1%Z None None (cache.new 300 2 ""));
          ("b"%string, stored_entry 1 2%Z None None (cache.new 300 2 ""))];
       cache._stats := cache.no_stats |} in
  exists c2,
    cache.set 3 "c" 3%Z None None (snd (cache.get 2 "a" c)) = Some c2
    /\ option_map cache.value (Py.lookup "a" (cache._cache c2)) = Some 1%Z.
Proof.
  intros c.
  destruct (X13_read_protects_entry 2 3 "a" "c" 1%Z 3%Z None None c
              ltac:(simpl; lia) ltac:(vm_compute; discriminate)
              ltac:(discriminate) eq_refl)
    as (_ & c2 & Hset & Hfound).
  exists c2. split; [exact Hset | exact Hfound].
Defined.

Section CacheStatistics.
Context {V : Type}.
Import cache.
Local Open Scope Z_scope.
Implicit Types (c : InMemoryCache V).

Lemma apply_counts (now : Q) (op : Operation V) c :
  1 <= max_size c ->
  exists c',
    apply now op c = Some c'
    /\ hits (_stats c) <= hits (_stats c')
    /\ misses (_stats c) <= misses (_stats c')
    /\ hits (_stats c') + misses (_stats c')
       = hits (_stats c) + misses (_stats c) + (if is_get op then 1 else 0)
    /\ sets (_stats c')
       = sets (_stats c) + (if is_set op then 1 else 0)
    /\ deletes (_stats c) <= deletes (_stats c')
       <= deletes (_stats c) + (if is_delete op then 1 else 0)
    /\ evictions (_stats c) <= evictions (_stats c').
Proof.
  intros Hm. destruct op as [key | key v t g | key | key |]; simpl.
  - eexists. split; [reflexivity |].
    destruct (get_counts now key c) as (Hh & Hmi & Hs & Hd & He & _).
    destruct (fst (get now key c)); repeat split; lia.
  - destruct (set_shape now key v t g c Hm)
      as (c' & Hset & _ & _ & _ & _ & Hh & Hmi & Hs & Hd & He).
    exists c'. split; [assumption |]. repeat split; lia.
  - eexists. split; [reflexivity |]. unfold delete.
    destruct (Py.lookup (_make_key c key) (_cache c)); simpl;
      repeat split; lia.
  - eexists. split; [reflexivity |]. unfold exists_.
    destruct (Py.lookup (_make_key c key) (_cache c)) as [e |];
      [destruct (is_expired now e) |]; simpl; repeat split; lia.
  - eexists. split; [reflexivity |]. unfold clear. simpl.
    repeat split; lia.
Qed.

Lemma run_counts (ops : list (Q * Operation V)) c :
  1 <= max_size c -> size c <= max_size c ->
  exists c',
    run ops c = Some c'
    /\ hits (_stats c) <= hits (_stats c')
    /\ misses (_stats c) <= misses (_stats c')
    /\ hits (_stats c') + misses (_stats c')
       = hits (_stats c) + misses (_stats c)
         + count_cache_operations is_get ops
    /\ sets (_stats c')
       = sets (_stats c) + count_cache_operations is_set ops
    /\ deletes (_stats c) <= deletes (_stats c')
       <= deletes (_stats c) + count_cache_operations is_delete ops
    /\ evictions (_stats c) <= evictions (_stats c').
Proof.
  revert c. unfold count_cache_operations.
  induction ops as [| [now op] ops IH]; intros c Hm Hs.
  - exists c. simpl. repeat split; lia.
  - destruct (apply_size now op c Hm Hs) as (c1 & Ha & Hm1 & Hs1).
    destruct (apply_counts now op c Hm)
      as (c1' & Ha' & Hh & Hmi & Hg & Hst & Hd & He).
    assert (c1' = c1) by congruence. subst c1'.
    destruct (IH c1) as (c2 & Hr & Hh2 & Hmi2 & Hg2 & Hst2 & Hd2 & He2);
      [lia | lia |].
    exists c2. cbn [run List.filter snd]. rewrite Ha.
    split; [assumption |].
    destruct op; simpl in *; rewrite ?Nat2Z.inj_succ;
      repeat split; lia.
Qed.

Lemma hit_rate_bounds (s : CacheStats) :
  0 <= hits s -> 0 <= misses s ->
  (0 <= hit_rate s <= 1)%Q.
Proof.
  intros Hh Hm. unfold hit_rate, total_requests.
  destruct (hits s + misses s =? 0) eqn:E.
  - split; discriminate.
  - apply Z.eqb_neq in E.
    assert (Hpos : (0 < inject_Z (hits s + misses s))%Q).
    { change 0%Q with (inject_Z 0). rewrite <- Zlt_Qlt. lia. }
    split.
    + apply Qle_shift_div_l; [assumption |]. rewrite Qmult_0_l.
      change 0%Q with (inject_Z 0). rewrite <- Zle_Qle. assumption.
    + apply Qle_shift_div_r; [assumption |]. rewrite Qmult_1_l.
      rewrite <- Zle_Qle. lia.
Qed.

End CacheStatistics.

(** X14.  Every sequence of operations on a new cache with
    [max_size >= 1] runs to completion, and afterwards the statistics
    count it: [hits + misses] is the number of [get]s, [sets] the number
    of [set]s, [deletes] is at most the number of [delete]s (one that
    finds nothing is not counted), [exists] and [clear] count nothing and
    no counter is negative.  The hit rate then lies between 0 and 1. *)
Theorem X14_cache_statistics {V : Type} (default_ttl : Q) (max_size : Z)
    (namespace : string) (ops : list (Q * cache.Operation V)) :
  (1 <= max_size)%Z ->
  exists c,
    cache.run ops (cache.new default_ttl max_size namespace) = Some c
    /\ let s := cache._stats c in
       (0 <= cache.hits s)%Z /\ (0 <= cache.misses s)%Z
       /\ (0 <= cache.evictions s)%Z
       /\ cache.total_requests s = count_cache_operations is_get ops
       /\ cache.sets s = count_cache_operations is_set ops
       /\ (0 <= cache.deletes s <= count_cache_operations is_delete ops)%Z
       /\ (0 <= cache.hit_rate s <= 1)%Q.
Proof.
  intros Hm.
  destruct (run_counts ops (cache.new default_ttl max_size namespace))
    as (c & Hr & Hh & Hmi & Hg & Hs & Hd & He);
    [exact Hm | unfold cache.size; simpl; lia |].
  simpl in Hh, Hmi, Hg, Hs, Hd, He.
  exists c. split; [assumption |]. intros s. subst s.
  destruct (hit_rate_bounds (cache._stats c)) as [Hb Hq]; [lia | lia |].
  assert (Ht : cache.total_requests (cache._stats c)
               = count_cache_operations is_get ops)
    by (unfold cache.total_requests; lia).
  repeat split; try lia; assumption.
Qed.

(** X14 on a miss, a store and a hit. *)
Lemma X14_cache_statistics_witness :
  exists c,
    cache.run [(0%Q, cache.Get "k"); (1%Q, cache.Set_ "k" 7%Z None None);
               (2%Q, cache.Get "k")]
      (cache.new 300 1000 "") = Some c
    /\ cache.total_requests (cache._stats c) = 2%Z
    /\ cache.sets (cache._stats c) = 1%Z
    /\ (0 <= cache.hit_rate (cache._stats c) <= 1)%Q.
Proof.
  destruct (X14_cache_statistics (V := Z) 300 1000 ""
              [(0%Q, cache.Get "k"); (1%Q, cache.Set_ "k" 7%Z None None);
               (2%Q, cache.Get "k")] ltac:(lia))
    as (c & Hr & _ & _ & _ & Ht & Hs & _ & Hq).
  exists c. split; [exact Hr |]. split; [exact Ht |].
  split; [exact Hs | exact Hq].
Defined.

Section CacheDelete.
Context {V : Type}.
Import cache.
Local Open Scope Z_scope.
Implicit Types (c : InMemoryCache V).

Lemma del_unbound (d : list (string * CacheEntry V)) (k : string) :
  Py.lookup k d = None -> Py.del k d = d.
Proof.
  unfold Py.del. induction d as [| [k' e'] d IH]; simpl; [reflexivity |].
  destruct (String.eqb k k'); [discriminate |].
  intros Hl. simpl. f_equal. now apply IH.
Qed.

(** A key without a binding is not found by [get]. *)
Lemma get_unbound (now : Q) (key : string) c :
  Py.lookup (_make_key c key) (_cache c) = None ->
  fst (get now key c) = None.
Proof.
  intros Hl. rewrite get_result, evict_expired_unfold.
  destruct (evict_keys_cache (expired_keys now c) c) as (-> & _).
  change (not_among (expired_keys now c))
    with (fun kv : string * CacheEntry V =>
            (fun k' => negb (existsb (fun k0 => String.eqb k0 k')
                               (expired_keys now c))) (fst kv)).
  rewrite lookup_filter_keys, Hl. now destruct (negb _).
Qed.

Lemma delete_spec (key : string) c :
  let c' := snd (delete key c) in
  fst (delete key c)
  = match Py.lookup (_make_key c key) (_cache c) with
    | Some _ => true
    | None => false
    end
  /\ _cache c' = Py.del (_make_key c key) (_cache c)
  /\ namespace c' = namespace c
  /\ deletes (_stats c')
     = deletes (_stats c) + (if fst (delete key c) then 1 else 0).
Proof.
  unfold delete.
  destruct (Py.lookup (_make_key c key) (_cache c)) as [e |] eqn:El; simpl.
  - repeat split.
  - repeat split; [| lia]. symmetry. now apply del_unbound.
Qed.

End CacheDelete.

(** X15.  [ttl_remaining] agrees with [is_expired].  An entry whose [ttl]
    is not positive never expires and has an infinite time left.  For a
    positive [ttl] the time left is never negative, it is zero exactly
    when the entry is expired, and before that it is [ttl] minus the age
    of the entry. *)
Theorem X15_ttl_remaining {V : Type} (now : Q) (e : cache.CacheEntry V) :
  ((cache.ttl e <= 0)%Q ->
   cache.ttl_remaining now e = None /\ cache.is_expired now e = false)
  /\ ((0 < cache.ttl e)%Q ->
      exists r,
        cache.ttl_remaining now e = Some r
        /\ (0 <= r)%Q
        /\ (cache.is_expired now e = true <-> (r == 0)%Q)
        /\ (cache.is_expired now e = false ->
            (r == cache.ttl e - (now - cache.created_at e))%Q)).
Proof.
  split.
  - intros Hle. split; [| now apply is_expired_never].
    unfold cache.ttl_remaining. apply Qle_bool_iff in Hle. now rewrite Hle.
  - intros Hpos. unfold cache.ttl_remaining.
    destruct (Qle_bool (cache.ttl e) 0) eqn:E.
    { apply Qle_bool_iff in E. exfalso. now apply (Qlt_not_le _ _ Hpos). }
    eexists. split; [reflexivity |].
    pose proof (is_expired_iff now e) as Hx.
    destruct (py_max_cases 0 (cache.ttl e - (now - cache.created_at e)))
      as [[Hlt ->] | [Hge ->]].
    + split; [lra |]. split; [| reflexivity].
      split.
      * intros Ht. apply Hx in Ht. lra.
      * intros H0. lra.
    + split; [lra |]. split.
      * split; [reflexivity |]. intros _. apply Hx. lra.
      * intros Hf. assert (Ht : cache.is_expired now e = true)
          by (apply Hx; lra).
        congruence.
Qed.

(** X15 on an entry stored at time 0 for 300 seconds, asked at 100. *)
Lemma X15_ttl_remaining_witness :
  exists r,
    cache.ttl_remaining 100
      (stored_entry 0 7%Z None None (cache.new 300 1000 "")) = Some r
    /\ (0 <= r)%Q.
Proof.
  destruct (proj2 (X15_ttl_remaining 100
                     (stored_entry 0 7%Z None None (cache.new 300 1000 "")))
              eq_refl)
    as (r & Hr & H0 & _).
  exists r. split; [exact Hr | exact H0].
Defined.

(** X16.  The function built by [cached] on a cache with [max_size >= 1]:
    a call that finds nothing under its key runs the function once, returns
    its result and stores it.  If the result is not [None], a second call
    made while the entry is fresh ([ttl <= 0], or less than [ttl] after
    the store) returns the same result without running the function: the
    world is as the first call left it.  If the result was [None], or
    [ttl] or more has passed, the second call runs the function again. *)
Theorem X16_cached_decorator {W E V : Type} (ttl : Q) (t0 t1 t2 t3 : Q)
    (key : string) (func : W -> (E + option V) * W) (w w1 : W)
    (result : option V) (c : cache.InMemoryCache (option V)) :
  (1 <= cache.max_size c)%Z ->
  (forall v, fst (cache.get t0 key c) <> Some (Some v)) ->
  func w = (inr result, w1) ->
  exists c1,
    cache.cached_wrapper ttl t0 t1 key func w c
    = (cache.CachedReturns result, w1, c1)
    /\ (forall v,
           result = Some v -> (ttl <= 0 \/ t2 - t1 < ttl)%Q ->
           exists c2,
             cache.cached_wrapper ttl t2 t3 key func w1 c1
             = (cache.CachedReturns (Some v), w1, c2))
    /\ (result = None \/ (0 < ttl /\ ttl <= t2 - t1)%Q ->
        snd (fst (cache.cached_wrapper ttl t2 t3 key func w1 c1))
        = snd (func w1)).
Proof.
  intros Hm Hmiss Hf.
  destruct (get_counts t0 key c) as (_ & _ & _ & _ & _ & Hm0 & _).
  destruct (set_then_get t1 t2 key result (Some ttl) None
              (snd (cache.get t0 key c))) as (c1 & Hset & _ & Hget);
    [lia |].
  destruct (fresh_not_expired t1 t2 result (Some ttl) None
              (snd (cache.get t0 key c))) as [Hfresh Hstale].
  simpl in Hfresh, Hstale.
  exists c1. split; [| split].
  - unfold cache.cached_wrapper.
    destruct (cache.get t0 key c) as [cv c0]. simpl in *.
    destruct cv as [[v' |] |];
      [exfalso; now apply (Hmiss v') | |]; rewrite Hf, Hset; reflexivity.
  - intros v -> Hfr. rewrite (Hfresh Hfr) in Hget.
    unfold cache.cached_wrapper.
    destruct (cache.get t2 key c1) as [cv c2]. simpl in Hget. subst cv.
    now exists c2.
  - intros Hagain. unfold cache.cached_wrapper.
    destruct (cache.get t2 key c1) as [cv c2]. simpl in Hget.
    assert (Hcv : cv = None \/ cv = Some None).
    { destruct Hagain as [-> | Hst].
      - destruct (cache.is_expired _ _) in Hget; [now left | now right].
      - rewrite (Hstale Hst) in Hget. now left. }
    destruct (func w1) as [[e | r] w2]; simpl;
      destruct Hcv as [-> | ->]; simpl;
      try reflexivity;
      destruct (cache.set t3 key r (Some ttl) None c2); reflexivity.
Qed.

(** X16 on a counting function: the second call, 10 seconds after the
    first, does not count. *)
Lemma X16_cached_decorator_witness :
  exists c1 c2,
    cache.cached_wrapper 300 0 0 "k" counting 0%nat (cache.new 300 1000 "")
    = (cache.CachedReturns (Some 0%nat), 1%nat, c1)
    /\ cache.cached_wrapper 300 10 10 "k" counting 1%nat c1
       = (cache.CachedReturns (Some 0%nat), 1%nat, c2).
Proof.
  destruct (X16_cached_decorator 300 0 0 10 10 "k" counting 0%nat 1%nat
              (Some 0%nat) (cache.new 300 1000 "")
              ltac:(simpl; lia) ltac:(intros v; discriminate) eq_refl)
    as (c1 & H1 & H2 & _).
  destruct (H2 0%nat eq_refl (or_intror eq_refl)) as (c2 & Hc2).
  exists c1, c2. split; [exact H1 | exact Hc2].
Defined.

(** X17.  [delete] reports whether the key was bound, whether or not the
    entry had expired, and counts the deletion only then.  Afterwards a
    [get] of the key finds nothing, a second [delete] reports [False],
    and every other key is bound as before. *)
Theorem X17_cache_delete {V : Type} (now : Q) (key : string)
    (c : cache.InMemoryCache V) :
  let found := fst (cache.delete key c) in
  let c' := snd (cache.delete key c) in
  found = match Py.lookup (cache._make_key c key) (cache._cache c) with
          | Some _ => true
          | None => false
          end
  /\ cache.deletes (cache._stats c')
     = (cache.deletes (cache._stats c) + (if found then 1 else 0))%Z
  /\ fst (cache.get now key c') = None
  /\ fst (cache.delete key c') = false
  /\ forall key2, key2 <> key ->
       Py.lookup (cache._make_key c key2) (cache._cache c')
       = Py.lookup (cache._make_key c key2) (cache._cache c).
Proof.
  intros found c'.
  destruct (delete_spec key c) as (Hf & Hc & Hn & Hd).
  fold c' in Hc, Hn, Hd. fold found in Hf, Hd.
  assert (Hgone : Py.lookup (cache._make_key c' key) (cache._cache c') = None).
  { rewrite (make_key_namespace c c' key Hn), Hc. apply lookup_del_eq. }
  split; [assumption |]. split; [assumption |].
  split; [now apply get_unbound |].
  split.
  - destruct (delete_spec key c') as (Hf' & _). rewrite Hf', Hgone.
    reflexivity.
  - intros key2 Hne. rewrite Hc. apply lookup_del_ne.
    intros Heq. apply Hne. now apply (make_key_injective c).
Qed.

(** ** More on the redaction *)

Section RebuiltDictionaries.
Context {U W : Type}.

Lemma setitem_fresh (d : list (string * W)) (k : string) (w : W) :
  Py.lookup k d = None -> Py.setitem k w d = d ++ [(k, w)].
Proof.
  induction d as [| [k' w'] d IH]; simpl; [reflexivity |].
  destruct (String.eqb k k'); [discriminate |].
  intros Hl. now rewrite IH.
Qed.

(** A dictionary built by assigning [g key value] for each item of a
    dictionary has the same keys in the same order. *)
Lemma rebuilt_map (g : string -> U -> W)
    (step : list (string * W) -> string * U -> list (string * W))
    (items : list (string * U)) :
  (forall acc k u, step acc (k, u) = Py.setitem k (g k u) acc) ->
  List.NoDup (map fst items) ->
  forall acc,
    (forall k, In k (map fst items) -> Py.lookup k acc = None) ->
    fold_left step items acc
    = acc ++ map (fun kv => (fst kv, g (fst kv) (snd kv))) items.
Proof.
  intros Hstep. induction items as [| [k0 u0] items IH]; intros Hn acc Hfresh.
  - simpl. now rewrite app_nil_r.
  - inversion Hn as [| ? ? Hnotin Hn']; subst. simpl.
    rewrite Hstep, setitem_fresh by (apply Hfresh; now left).
    rewrite IH; [now rewrite <- app_assoc | assumption |].
    intros k Hk. rewrite lookup_app, Hfresh by now right.
    simpl. destruct (String.eqb k k0) eqn:E; [| reflexivity].
    apply String.eqb_eq in E. subst k0. contradiction.
Qed.

End RebuiltDictionaries.

Section StringContainment.

Lemma prefix_refl (s : string) : String.prefix s s = true.
Proof.
  induction s as [| c s IH]; simpl; [reflexivity |].
  destruct (ascii_dec c c); [assumption | contradiction].
Qed.

Lemma contains_refl (s : string) : Py.contains s s = true.
Proof. destruct s; cbn [Py.contains]; now rewrite prefix_refl. Qed.

Lemma contains_suffix (p s : string) :
  Py.contains s (String.append p s) = true.
Proof.
  induction p as [| c p IH]; [apply contains_refl |].
  change (String.append (String c p) s) with (String c (String.append p s)).
  change (Py.contains s (String c (String.append p s)))
    with (String.prefix s (String c (String.append p s))
          || Py.contains s (String.append p s)).
  rewrite IH. apply orb_true_r.
Qed.

End StringContainment.

Section RedactionFacts.
Context `{Hashlib} `{logging.Regex} `{logging.Urllib}.
Import logging logging.RequestLogger.
Local Open Scope Z_scope.

(** X18.  [redact_headers] returns one header for each header it is
    given, under the same names and in the same order: the value of a
    header whose lower-cased name is listed is replaced by its mask, every
    other value by what the redaction patterns leave of it, so that with
    an empty pattern list the headers that are not listed come out
    unchanged. *)
Theorem X18_redact_headers_shape (config : LogConfig)
    (headers : list (string * string)) :
  List.NoDup (map fst headers) ->
  redact_headers config headers
  = map (fun kv =>
           (fst kv,
            if is_sensitive_header config (fst kv)
            then _mask_value config (snd kv)
            else _redact_value config (snd kv)))
      headers
  /\ map fst (redact_headers config headers) = map fst headers
  /\ (redact_patterns config = [] ->
      forall key value,
        In (key, value) headers ->
        is_sensitive_header config key = false ->
        In (key, value) (redact_headers config headers)).
Proof.
  intros Hn.
  assert (Hshape :
            redact_headers config headers
            = map (fun kv =>
                     (fst kv,
                      if is_sensitive_header config (fst kv)
                      then _mask_value config (snd kv)
                      else _redact_value config (snd kv)))
                headers).
  { unfold redact_headers.
    rewrite (rebuilt_map
               (fun k v =>
                  if is_sensitive_header config k
                  then _mask_value config v
                  else _redact_value config v)
               _ headers); [reflexivity | | assumption | reflexivity].
    intros acc k u. unfold is_sensitive_header.
    now destruct (bool_decide _). }
  split; [assumption |]. split.
  - rewrite Hshape, List.map_map. simpl. reflexivity.
  - intros Hp key value Hin Hs. rewrite Hshape.
    apply in_map_iff. exists (key, value). split; [| assumption].
    simpl. rewrite Hs. unfold _redact_value. now rewrite Hp.
Qed.

(** X19.  Under the [PARTIAL] style with [partial_mask_chars = 0] the
    mask of a value that is not empty is [...] followed by the whole
    value: the value is not hidden. *)
Theorem X19_partial_mask_zero (config : LogConfig) (value : string) :
  mask_style config = PARTIAL ->
  partial_mask_chars config = 0 ->
  value <> EmptyString ->
  _mask_value config value = String.append "..." value
  /\ Py.contains value (_mask_value config value) = true.
Proof.
  intros Es E0 Hne.
  assert (Hm : _mask_value config value = String.append "..." value).
  { unfold _mask_value. rewrite Es, E0.
    destruct value as [| c v]; [contradiction |].
    reflexivity. }
  split; [assumption |]. rewrite Hm. apply contains_suffix.
Qed.

End RedactionFacts.

(** X18 on two headers under the default configuration. *)
Lemma X18_redact_headers_shape_witness :
  map fst
    (logging.RequestLogger.redact_headers logging.default_config
       [("Authorization", "Bearer secret-token-12345");
        ("Accept", "text/plain")]%string)
  = ["Authorization"; "Accept"]%string.
Proof.
  apply (X18_redact_headers_shape logging.default_config
           [("Authorization", "Bearer secret-token-12345");
            ("Accept", "text/plain")]%string).
  simpl. constructor; [| constructor; [| constructor]]; simpl.
  - intros [Hab | []]. discriminate.
  - intros [].
Defined.

(** X19 on a token, with the default configuration changed to show no
    characters. *)
Lemma X19_partial_mask_zero_witness :
  let config :=
    {| logging.redact_headers := logging.redact_headers logging.default_config;
       logging.redact_patterns := [];
       logging.redact_query_params := [];
       logging.mask_style := logging.PARTIAL;
       logging.partial_mask_chars := 0 |} in
  logging.RequestLogger._mask_value config "secret-token"
  = "...secret-token"%string.
Proof.
  intros config.
  apply (X19_partial_mask_zero config "secret-token"%string eq_refl eq_refl).
  discriminate.
Defined.

(** ** More on the request pipeline *)

Section ClientFacts.
Context {A : Type} `{Hashlib} `{cache.JsonDumps A} `{retry.HeaderParsers}.
Variable env : client.Environment.
Variable self : client.RateWiseClient.
Import client.
Local Open Scope Z_scope.

Ltac unfold_pipeline :=
  unfold on_response, on_exception, retry_in_handler, sleep_and_continue,
    time_sleep, note_retry, breaker_record_failure, breaker_record_success,
    time_time.

Ltac split_pipeline :=
  repeat (match goal with
          | |- context [match backoff_delay ?e ?c ?a with _ => _ end] =>
              destruct (backoff_delay e c a) eqn:?
          | |- context [match delay_on_429 ?e ?c ?a ?r with _ => _ end] =>
              destruct (delay_on_429 e c a r) eqn:?
          | |- context [if ?c then _ else _] => destruct c eqn:?
          | |- context [match cache ?s with _ => _ end] =>
              destruct (cache s) eqn:?
          | |- context [match cache.Clocked.set ?k ?n ?key ?r ?t ?g ?c
                        with _ => _ end] =>
              destruct (cache.Clocked.set k n key r t g c) as [[? ?] |] eqn:?
          end; simpl).

Ltac read_conditions :=
  repeat match goal with
         | H : (_ && _) = true |- _ =>
             apply andb_true_iff in H; destruct H
         | H : (_ <? _) = true |- _ => apply Z.ltb_lt in H
         | H : (_ >=? _) = false |- _ =>
             rewrite Z.geb_leb in H; apply Z.leb_gt in H
         | H : (_ =? _) = false |- _ => apply Z.eqb_neq in H
         end.

(** The [except] clauses send nothing; they go on only after a sleep, and
    only if attempts remain. *)
Lemma on_exception_effects (attempt : Z) (e : Exception) (s : State) :
  match on_exception env self attempt e s with
  | Continue _ s' =>
      same_counts s s'
      /\ (exists d, slept s' = slept s ++ [d])
      /\ attempt < retry.max_attempts (retry_config self)
  | Raise _ s' => same_counts s s' /\ slept s' = slept s
  | Return _ _ => False
  end.
Proof.
  unfold_pipeline. unfold same_counts.
  destruct e; simpl; split_pipeline; read_conditions;
    repeat split; eauto.
Qed.

(** The [try] suite after a response: it goes on only after a sleep, and
    only if attempts remain; it returns only the response it was given,
    and only if its status asks for no retry. *)
Lemma on_response_effects (method url : string)
    (params : option (list (string * A)))
    (merged_headers : list (string * string)) (use_cache : bool)
    (context : RequestContext)
    (attempt : Z) (response : Response) (s : State) :
  match on_response env self method url params merged_headers use_cache
          context attempt response s with
  | SuiteContinue s' =>
      same_counts s s'
      /\ (exists d, slept s' = slept s ++ [d])
      /\ attempt < retry.max_attempts (retry_config self)
  | SuiteReturn r s' =>
      same_counts s s' /\ slept s' = slept s
      /\ r = response
      /\ status_code r <> 429
      /\ retry.should_retry_on_status (status_code r)
           (Some (retry_config self)) = false
  | SuiteRaise _ s' => same_counts s s' /\ slept s' = slept s
  end.
Proof.
  unfold_pipeline. unfold same_counts.
  destruct (status_code response =? 429) eqn:E429;
    [split_pipeline; read_conditions; repeat split; eauto |].
  destruct (retry.should_retry_on_status _ _) eqn:Eretry;
    [split_pipeline; read_conditions; repeat split; eauto |].
  simpl. apply Z.eqb_neq in E429.
  destruct (process_response (middleware self) context response);
    simpl; [repeat split |].
  destruct (cache s) as [c |]; simpl; [| repeat split; assumption].
  match goal with
  | |- context [if ?b then _ else _] =>
      destruct b; simpl; [| repeat split; assumption]
  end.
  match goal with
  | |- context [match ?x with Some _ => _ | None => _ end] =>
      destruct x as [[? ?] |]; simpl; repeat split; assumption
  end.
Qed.

(** One iteration of the loop. *)
Lemma attempt_body_effects (method url : string)
    (params : option (list (string * A)))
    (merged_headers : list (string * string)) (use_cache : bool)
    (context : RequestContext)
    (attempt : Z) (last : option Exception) (s : State) :
  let counted (s' : State) :=
    models.total_requests (_stats s') = models.total_requests (_stats s) + 1
    /\ models.cache_hits (_stats s') = models.cache_hits (_stats s)
    /\ models.cache_misses (_stats s') = models.cache_misses (_stats s) in
  match attempt_body env self method url params merged_headers use_cache
          context attempt last s with
  | Continue _ s' =>
      sent s' = sent s + 1 /\ counted s'
      /\ (exists d, slept s' = slept s ++ [d])
      /\ attempt < retry.max_attempts (retry_config self)
  | Return r s' =>
      sent s' = sent s + 1 /\ counted s' /\ slept s' = slept s
      /\ status_code r <> 429
      /\ retry.should_retry_on_status (status_code r)
           (Some (retry_config self)) = false
  | Raise _ s' =>
      sent s <= sent s' <= sent s + 1 /\ counted s' /\ slept s' = slept s
  end.
Proof.
  intros counted. unfold counted.
  destruct (circuit_breaker.allow_request (clock env (ticks s))
              (circuit_breaker s)) as [[|] cb] eqn:Ha.
  - rewrite (attempt_body_admitted env self _ _ _ _ _ _ _ _ _ cb Ha).
    assert (Hx : forall e s1,
               sent s1 = sent s + 1 ->
               models.total_requests (_stats s1)
               = models.total_requests (_stats s) + 1 ->
               models.cache_hits (_stats s1) = models.cache_hits (_stats s) ->
               models.cache_misses (_stats s1)
               = models.cache_misses (_stats s) ->
               slept s1 = slept s ->
               match on_exception env self attempt e s1 with
               | Continue _ s' =>
                   sent s' = sent s + 1
                   /\ (models.total_requests (_stats s')
                       = models.total_requests (_stats s) + 1
                       /\ models.cache_hits (_stats s')
                          = models.cache_hits (_stats s)
                       /\ models.cache_misses (_stats s')
                          = models.cache_misses (_stats s))
                   /\ (exists d, slept s' = slept s ++ [d])
                   /\ attempt < retry.max_attempts (retry_config self)
               | Return r s' =>
                   sent s' = sent s + 1
                   /\ (models.total_requests (_stats s')
                       = models.total_requests (_stats s) + 1
                       /\ models.cache_hits (_stats s')
                          = models.cache_hits (_stats s)
                       /\ models.cache_misses (_stats s')
                          = models.cache_misses (_stats s))
                   /\ slept s' = slept s
                   /\ status_code r <> 429
                   /\ retry.should_retry_on_status (status_code r)
                        (Some (retry_config self)) = false
               | Raise _ s' =>
                   sent s <= sent s' <= sent s + 1
                   /\ (models.total_requests (_stats s')
                       = models.total_requests (_stats s) + 1
                       /\ models.cache_hits (_stats s')
                          = models.cache_hits (_stats s)
                       /\ models.cache_misses (_stats s')
                          = models.cache_misses (_stats s))
                   /\ slept s' = slept s
               end).
    { intros e s1 Hs Ht Hh Hm Hsl.
      pose proof (on_exception_effects attempt e s1) as He.
      unfold same_counts in He.
      destruct (on_exception env self attempt e s1) as [l2 s2 | r s2 | e2 s2].
      - destruct He as ((Ka & Kb & Kc & Kd) & (d & Hd) & Hlt).
        repeat split; try congruence; try lia.
        exists d. congruence.
      - contradiction.
      - destruct He as ((Ka & Kb & Kc & Kd) & Hd).
        repeat split; try congruence; lia. }
    destruct (transport env attempt) as [e | response].
    + apply Hx; reflexivity.
    + pose proof (on_response_effects method url params merged_headers
                    use_cache context attempt response (admitted cb s))
        as Hr.
      unfold same_counts in Hr.
      destruct (on_response env self method url params merged_headers
                  use_cache context attempt response (admitted cb s))
        as [s1 | r1 s1 | e s1].
      * destruct Hr as ((Ka & Kb & Kc & Kd) & (d & Hd) & Hlt).
        simpl in *. repeat split; try congruence; try lia.
        exists d. exact Hd.
      * destruct Hr as ((Ka & Kb & Kc & Kd) & Hsl & Hr & H429 & Hno).
        simpl in *. repeat split; try congruence; lia.
      * destruct Hr as ((Ka & Kb & Kc & Kd) & Hsl). simpl in *.
        apply Hx; congruence.
  - unfold attempt_body, time_time. simpl. rewrite Ha. simpl.
    repeat split; lia.
Qed.

(** The loop over a list of attempt numbers. *)
Lemma attempt_loop_effects (method url : string)
    (params : option (list (string * A)))
    (merged_headers : list (string * string)) (use_cache : bool)
    (context : RequestContext) (attempts : list Z) :
  forall (last : option Exception) (s : State),
    let run :=
      attempt_loop env self method url params merged_headers use_cache
        context attempts last s in
    let s' := snd run in
    sent s <= sent s' <= sent s + Z.of_nat (List.length attempts)
    /\ sent s' - sent s
       <= models.total_requests (_stats s')
          - models.total_requests (_stats s)
       <= Z.of_nat (List.length attempts)
    /\ models.cache_hits (_stats s') = models.cache_hits (_stats s)
    /\ models.cache_misses (_stats s') = models.cache_misses (_stats s)
    /\ (exists l,
           slept s' = slept s ++ l
           /\ (List.length l
               <= List.length
                    (may_retry (retry.max_attempts (retry_config self))
                       attempts))%nat)
    /\ (forall r,
           fst run = Returned r ->
           status_code r <> 429
           /\ retry.should_retry_on_status (status_code r)
                (Some (retry_config self)) = false
           /\ sent s < sent s').
Proof.
  induction attempts as [| attempt rest IH]; intros last s.
  - simpl. destruct last; simpl;
      (split; [lia |]; split; [lia |]; split; [reflexivity |];
       split; [reflexivity |]; split;
       [exists []; now rewrite app_nil_r | intros r Hrun; discriminate]).
  - cbn zeta. cbn [attempt_loop].
    pose proof (attempt_body_effects method url params merged_headers
                  use_cache context attempt last s) as Hb.
    cbn zeta in Hb.
    destruct (attempt_body env self method url params merged_headers
                use_cache context attempt last s) as [l2 s1 | r s1 | e s1].
    + destruct Hb as (Hs & (Ht & Hh & Hm) & (d & Hd) & Hlt).
      specialize (IH l2 s1). cbn zeta in IH.
      destruct IH as (Hs2 & Ht2 & Hh2 & Hm2 & (l & Hl & Hlen) & Hret).
      cbn [List.length]. rewrite Nat2Z.inj_succ.
      split; [lia |]. split; [lia |].
      split; [congruence |]. split; [congruence |]. split.
      * exists (d :: l). split.
        -- rewrite Hl, Hd, <- app_assoc. reflexivity.
        -- unfold may_retry in *. cbn [List.filter].
           apply Z.ltb_lt in Hlt. rewrite Hlt. simpl. lia.
      * intros r Hrun. destruct (Hret r Hrun) as (Ka & Kb & Kc).
        split; [assumption |]. split; [assumption | lia].
    + destruct Hb as (Hs & (Ht & Hh & Hm) & Hd & H429 & Hno).
      cbn [fst snd List.length]. rewrite Nat2Z.inj_succ.
      split; [lia |]. split; [lia |].
      split; [congruence |]. split; [congruence |]. split.
      * exists []. rewrite app_nil_r. split; [assumption | simpl; lia].
      * intros r0 Hrun. injection Hrun as <-.
        split; [assumption |]. split; [assumption | lia].
    + destruct Hb as (Hs & (Ht & Hh & Hm) & Hd).
      cbn [fst snd List.length]. rewrite Nat2Z.inj_succ.
      split; [lia |]. split; [lia |].
      split; [congruence |]. split; [congruence |]. split.
      * exists []. rewrite app_nil_r. split; [assumption | simpl; lia].
      * intros r Hrun. discriminate.
Qed.

Lemma attempt_numbers_length (max_attempts : Z) :
  Z.of_nat (List.length (attempt_numbers max_attempts)) = Z.max 0 max_attempts
  /\ Z.of_nat (List.length (may_retry max_attempts
                              (attempt_numbers max_attempts)))
     <= Z.max 0 (max_attempts - 1).
Proof.
  unfold attempt_numbers, may_retry. split.
  - rewrite length_map, length_seq. lia.
  - destruct (Z.to_nat max_attempts) as [| m] eqn:E; [simpl; lia |].
    rewrite List.seq_S, List.map_app, List.filter_app, length_app.
    cbn [map List.filter].
    replace (Z.of_nat (1 + m) <? max_attempts) with false
      by (symmetry; apply Z.ltb_ge; lia).
    pose proof (filter_length_le
                  (fun attempt => attempt <? max_attempts)
                  (map Z.of_nat (seq 1 m))) as Hle.
    rewrite length_map, length_seq in Hle. simpl. lia.
Qed.

(** The lookup that precedes the loop sends nothing, and does nothing at
    all when the call does not use the cache. *)
Lemma cache_lookup_effects (method url : string)
    (params : option (list (string * A)))
    (merged_headers : list (string * string)) (use_cache : bool) (s : State) :
  let found :=
    cache_lookup env method url params merged_headers use_cache s in
  sent (snd found) = sent s
  /\ slept (snd found) = slept s
  /\ models.total_requests (_stats (snd found))
     = models.total_requests (_stats s)
  /\ (uses_cache method use_cache s = false -> found = (None, s)).
Proof.
  unfold cache_lookup, uses_cache.
  destruct (cache s) as [c |]; [| now repeat split].
  destruct (use_cache && String.eqb (Py.upper method) "GET");
    [| now repeat split].
  simpl. destruct (cache.Clocked.get _ _ _ c) as [[[r |] c'] tick]; simpl;
    repeat split; discriminate.
Qed.

(** Every iteration that counts a request sends one, but for the one
    that the breaker rejects. *)
Lemma attempt_loop_requests (method url : string)
    (params : option (list (string * A)))
    (merged_headers : list (string * string)) (use_cache : bool)
    (context : RequestContext) (attempts : list Z) :
  forall (last : option Exception) (s : State),
    let s' :=
      snd (attempt_loop env self method url params merged_headers use_cache
             context attempts last s) in
    models.total_requests (_stats s') - models.total_requests (_stats s)
    <= sent s' - sent s + 1.
Proof.
  induction attempts as [| attempt rest IH]; intros last s; cbn zeta.
  - simpl. destruct last; simpl; lia.
  - cbn [attempt_loop].
    pose proof (attempt_body_effects method url params merged_headers
                  use_cache context attempt last s) as Hb.
    cbn zeta in Hb.
    destruct (attempt_body env self method url params merged_headers
                use_cache context attempt last s) as [l2 s2 | r s2 | e s2].
    + destruct Hb as (Hb1 & (Hb2 & _) & _). specialize (IH l2 s2).
      cbn zeta in IH. lia.
    + destruct Hb as (Hb1 & (Hb2 & _) & _). simpl. lia.
    + destruct Hb as (Hb1 & (Hb2 & _) & _). simpl. lia.
Qed.

End ClientFacts.

Section ClientCalls.
Context {A : Type} `{Hashlib} `{cache.JsonDumps A} `{retry.HeaderParsers}.
Context `{logging.Urllib}.
Variable env : client.Environment.
Variable self : client.RateWiseClient.
Import client.
Local Open Scope Z_scope.

Lemma uses_cache_same (method : string) (use_cache : bool) (s s1 : State) :
  cache s1 = cache s ->
  uses_cache method use_cache s1 = uses_cache method use_cache s.
Proof. intros Hc. unfold uses_cache. now rewrite Hc. Qed.

(** One iteration of a call that does not use the cache leaves it. *)
Lemma attempt_body_cache_unused (method url : string)
    (params : option (list (string * A)))
    (merged_headers : list (string * string)) (use_cache : bool)
    (context : RequestContext)
    (attempt : Z) (last : option Exception) (s : State) :
  uses_cache method use_cache s = false ->
  match attempt_body env self method url params merged_headers use_cache
          context attempt last s with
  | Continue _ s' | Return _ s' | Raise _ s' => cache s' = cache s
  end.
Proof.
  intros Hu.
  destruct (circuit_breaker.allow_request (clock env (ticks s))
              (circuit_breaker s)) as [[|] cb] eqn:Ha.
  - rewrite (attempt_body_admitted env self _ _ _ _ _ _ _ _ _ cb Ha).
    assert (Hx : forall e s1,
               cache s1 = cache s ->
               match on_exception env self attempt e s1 with
               | Continue _ s' | Return _ s' | Raise _ s' =>
                   cache s' = cache s
               end).
    { intros e s1 Hc. pose proof (on_exception_cache env self attempt e s1).
      destruct (on_exception env self attempt e s1);
        [congruence | contradiction | congruence]. }
    destruct (transport env attempt) as [e | response];
      [now apply Hx |].
    pose proof (on_response_cache env self method url params merged_headers
                  use_cache context attempt response (admitted cb s)) as Hr.
    rewrite (uses_cache_same method use_cache s (admitted cb s) eq_refl), Hu
      in Hr.
    destruct (on_response env self method url params merged_headers
                use_cache context attempt response (admitted cb s))
      as [s1 | r1 s1 | e s1].
    + exact Hr.
    + destruct Hr as [_ Hr]. exact Hr.
    + now apply Hx.
  - destruct (attempt_body_denied env self method url params merged_headers
                use_cache context attempt last s cb Ha)
      as (s1 & -> & Hc & _).
    exact Hc.
Qed.

Lemma attempt_loop_cache_unused (method url : string)
    (params : option (list (string * A)))
    (merged_headers : list (string * string)) (use_cache : bool)
    (context : RequestContext) (attempts : list Z) :
  forall (last : option Exception) (s : State),
    uses_cache method use_cache s = false ->
    cache (snd (attempt_loop env self method url params merged_headers
                  use_cache context attempts last s)) = cache s.
Proof.
  induction attempts as [| attempt rest IH]; intros last s Hu.
  - simpl. now destruct last.
  - cbn [attempt_loop].
    pose proof (attempt_body_cache_unused method url params merged_headers
                  use_cache context attempt last s Hu) as Hb.
    destruct (attempt_body env self method url params merged_headers
                use_cache context attempt last s) as [l2 s1 | r s1 | e s1];
      [| exact Hb | exact Hb].
    rewrite IH; [exact Hb |].
    now rewrite (uses_cache_same method use_cache s s1 Hb).
Qed.

(** How a call ends before its first attempt, or else the loop that it
    runs. *)
Lemma make_request_cases (method endpoint : string)
    (params : option (list (string * A)))
    (headers : option (list (string * string))) (use_cache : bool)
    (s : State) :
  let run :=
    _make_request env self method endpoint params headers use_cache s in
  let merged_headers := _merge_headers self headers in
  (exists e, _build_url env self endpoint = inl e /\ run = (Raised e, s))
  \/ exists url,
      _build_url env self endpoint = inr url
      /\ let found :=
           cache_lookup env method url params merged_headers use_cache s in
         (exists cached,
             fst found = Some cached /\ run = (Returned cached, snd found))
         \/ (fst found = None
             /\ ((exists e,
                     prepare_request self method url merged_headers = inl e
                     /\ run = (Raised e, snd found))
                 \/ exists context,
                     prepare_request self method url merged_headers
                     = inr context
                     /\ run
                        = attempt_loop env self method url params
                            merged_headers use_cache context
                            (attempt_numbers
                               (retry.max_attempts (retry_config self)))
                            None
                            (set_retry_delays []
                               (set_retry_count 0 (snd found))))).
Proof.
  cbn zeta. unfold _make_request.
  destruct (_build_url env self endpoint) as [e | url];
    [left; now exists e | right; exists url].
  split; [reflexivity |].
  destruct (cache_lookup env method url params (_merge_headers self headers)
              use_cache s) as [[cached |] s1]; simpl;
    [left; now exists cached | right].
  split; [reflexivity |].
  destruct (prepare_request self method url (_merge_headers self headers))
    as [e | context]; [left; now exists e | right; now exists context].
Qed.

(** X20.  Whatever the transport answers, one call issues at most
    [max_attempts] transport attempts and sleeps at most
    [max_attempts - 1] times; [total_requests] grows by the number of
    transport attempts, plus one if the breaker rejected an attempt, and
    by no more than [max_attempts].  With [max_attempts <= 0] a call that
    does not use the cache, whose URL can be built and whose request the
    middleware and the logger let through, sends nothing and raises the
    bare [RequestError] that follows the loop; a call whose URL cannot be
    built ends in the exception of [urljoin] and changes nothing. *)
Theorem X20_bounded_effort (method endpoint : string)
    (params : option (list (string * A)))
    (headers : option (list (string * string))) (use_cache : bool)
    (s : State) :
  let max_attempts := retry.max_attempts (retry_config self) in
  let run :=
    _make_request env self method endpoint params headers use_cache s in
  let s' := snd run in
  sent s <= sent s' <= sent s + Z.max 0 max_attempts
  /\ sent s' - sent s
     <= models.total_requests (_stats s') - models.total_requests (_stats s)
     <= Z.max 0 max_attempts
  /\ models.total_requests (_stats s') - models.total_requests (_stats s)
     <= sent s' - sent s + 1
  /\ (exists l,
         slept s' = slept s ++ l
         /\ Z.of_nat (List.length l) <= Z.max 0 (max_attempts - 1))
  /\ (max_attempts <= 0 -> uses_cache method use_cache s = false ->
      forall url context,
        _build_url env self endpoint = inr url ->
        prepare_request self method url (_merge_headers self headers)
        = inr context ->
        run = (Raised RequestErrorNoCause,
               set_retry_delays [] (set_retry_count 0 s)))
  /\ (forall e, _build_url env self endpoint = inl e -> run = (Raised e, s)).
Proof.
  intros max_attempts run s'. subst run s' max_attempts.
  destruct (attempt_numbers_length (retry.max_attempts (retry_config self)))
    as [Hlen Hretry].
  destruct (make_request_cases method endpoint params headers use_cache s)
    as [(e & Hurl & ->) | (url & Hurl & Hcases)].
  { cbn [snd]. repeat apply conj; try lia.
    - exists []. rewrite app_nil_r. split; [reflexivity | simpl; lia].
    - intros _ _ url context Hu. congruence.
    - intros e' He'. congruence. }
  cbn zeta in Hcases.
  pose proof (cache_lookup_effects env method url params
                (_merge_headers self headers) use_cache s) as Hl.
  cbn zeta in Hl. destruct Hl as (Hs & Hsl & Ht & Hunused).
  assert (Hquiet : forall o,
             _make_request env self method endpoint params headers
               use_cache s
             = (o, snd (cache_lookup env method url params
                          (_merge_headers self headers) use_cache s)) ->
             let s' :=
               snd (_make_request env self method endpoint params headers
                      use_cache s) in
             sent s <= sent s'
                    <= sent s + Z.max 0 (retry.max_attempts (retry_config self))
             /\ sent s' - sent s
                <= models.total_requests (_stats s')
                   - models.total_requests (_stats s)
                <= Z.max 0 (retry.max_attempts (retry_config self))
             /\ models.total_requests (_stats s')
                - models.total_requests (_stats s)
                <= sent s' - sent s + 1
             /\ exists l,
                 slept s' = slept s ++ l
                 /\ Z.of_nat (List.length l)
                    <= Z.max 0 (retry.max_attempts (retry_config self) - 1)).
  { intros o ->. cbn [snd]. repeat apply conj; try lia.
    exists []. rewrite app_nil_r. split; [assumption | simpl; lia]. }
  destruct Hcases
    as [(cached & Hhit & Hrun)
       | (Hmiss & [(e & Hprep & Hrun) | (context & Hprep & Hrun)])].
  - destruct (Hquiet _ Hrun) as (K1 & K2 & K3 & K4).
    repeat apply conj; try assumption; try apply K1; try apply K2.
    + intros Hmax Hu url' context' Hu' Hp'.
      rewrite (Hunused Hu) in Hhit. discriminate.
    + intros e' He'. congruence.
  - destruct (Hquiet _ Hrun) as (K1 & K2 & K3 & K4).
    repeat apply conj; try assumption; try apply K1; try apply K2.
    + intros Hmax Hu url' context' Hu' Hp'.
      assert (url' = url) by congruence. subst url'. congruence.
    + intros e' He'. congruence.
  - rewrite Hrun.
    pose proof (attempt_loop_effects env self method url params
                  (_merge_headers self headers) use_cache context
                  (attempt_numbers (retry.max_attempts (retry_config self)))
                  None
                  (set_retry_delays []
                     (set_retry_count 0
                        (snd (cache_lookup env method url params
                                (_merge_headers self headers) use_cache s)))))
      as Hloop.
    pose proof (attempt_loop_requests env self method url params
                  (_merge_headers self headers) use_cache context
                  (attempt_numbers (retry.max_attempts (retry_config self)))
                  None
                  (set_retry_delays []
                     (set_retry_count 0
                        (snd (cache_lookup env method url params
                                (_merge_headers self headers) use_cache s)))))
      as Hreq.
    cbn zeta in Hloop, Hreq.
    destruct Hloop as (Ka & Kb & _ & _ & (l & Kl & Klen) & _).
    simpl in Ka, Kb, Kl, Hreq.
    repeat apply conj; try lia.
    + exists l. split; [congruence | lia].
    + intros Hmax Hu url' context' Hu' Hp'.
      rewrite (Hunused Hu). unfold attempt_numbers.
      replace (Z.to_nat (retry.max_attempts (retry_config self)))
        with 0%nat by lia. reflexivity.
    + intros e' He'. congruence.
Qed.

(** X21.  A response that a call returns without having found it in the
    cache was sent for by that call, and its status asks for no retry: it
    is not 429 and not in [retry_on_status]. *)
Theorem X21_returned_status_is_final (method endpoint : string)
    (params : option (list (string * A)))
    (headers : option (list (string * string))) (use_cache : bool)
    (s : State) (r : Response) (s' : State) :
  (forall url,
      _build_url env self endpoint = inr url ->
      fst (cache_lookup env method url params (_merge_headers self headers)
             use_cache s) = None) ->
  _make_request env self method endpoint params headers use_cache s
  = (Returned r, s') ->
  status_code r <> 429
  /\ (status_code r ∉ retry.retry_on_status (retry_config self))
  /\ sent s < sent s'.
Proof.
  intros Hnone Hret.
  destruct (make_request_cases method endpoint params headers use_cache s)
    as [(e & Hurl & Hrun) | (url & Hurl & Hcases)]; [congruence |].
  cbn zeta in Hcases. specialize (Hnone url Hurl).
  pose proof (cache_lookup_effects env method url params
                (_merge_headers self headers) use_cache s) as Hl.
  cbn zeta in Hl. destruct Hl as (Hs & _).
  destruct Hcases
    as [(cached & Hhit & Hrun)
       | (Hmiss & [(e & Hprep & Hrun) | (context & Hprep & Hrun)])];
    [congruence | congruence |].
  pose proof (attempt_loop_effects env self method url params
                (_merge_headers self headers) use_cache context
                (attempt_numbers (retry.max_attempts (retry_config self)))
                None
                (set_retry_delays []
                   (set_retry_count 0
                      (snd (cache_lookup env method url params
                              (_merge_headers self headers) use_cache s)))))
    as Hloop.
  cbn zeta in Hloop. destruct Hloop as (_ & _ & _ & _ & _ & Hfinal).
  rewrite <- Hrun, Hret in Hfinal.
  destruct (Hfinal r eq_refl) as (K429 & Kno & Ksent).
  simpl in Ksent. split; [assumption |]. split; [| lia].
  unfold retry.should_retry_on_status in Kno.
  now apply bool_decide_eq_false_1 in Kno.
Qed.

(** X22.  A call that does not use the cache, whose URL can be built and
    whose request the middleware and the logger let through, made while
    the circuit is open and its recovery timeout pending, is rejected on
    its first attempt: it raises [CircuitBreakerOpen] with the breaker's
    failure count, sends nothing and does not sleep; it counts one
    request, one circuit-breaker trip and one rejected call, and no failed
    request. *)
Theorem X22_open_circuit_rejects_call (method endpoint url : string)
    (params : option (list (string * A)))
    (headers : option (list (string * string))) (use_cache : bool)
    (context : RequestContext) (s : State) :
  uses_cache method use_cache s = false ->
  _build_url env self endpoint = inr url ->
  prepare_request self method url (_merge_headers self headers)
  = inr context ->
  1 <= retry.max_attempts (retry_config self) ->
  circuit_breaker._state (circuit_breaker s) = circuit_breaker.OPEN ->
  recovery_pending (clock env (ticks s)) (circuit_breaker s) ->
  exists s',
    _make_request env self method endpoint params headers use_cache s
    = (Raised
         (CircuitBreakerOpen
            (circuit_breaker._failure_count (circuit_breaker s))), s')
    /\ sent s' = sent s
    /\ slept s' = slept s
    /\ circuit_breaker s'
       = circuit_breaker.set_metrics
           (circuit_breaker.count_rejected
              (circuit_breaker._metrics (circuit_breaker s)))
           (circuit_breaker s)
    /\ circuit_breaker.rejected_calls
         (circuit_breaker._metrics (circuit_breaker s'))
       = circuit_breaker.rejected_calls
           (circuit_breaker._metrics (circuit_breaker s)) + 1
    /\ models.total_requests (_stats s')
       = models.total_requests (_stats s) + 1
    /\ models.circuit_breaker_trips (_stats s')
       = models.circuit_breaker_trips (_stats s) + 1
    /\ models.failed_requests (_stats s') = models.failed_requests (_stats s).
Proof.
  intros Hu Hurl Hprep Hmax Hopen Hpending.
  destruct (cache_lookup_effects env method url params
              (_merge_headers self headers) use_cache s)
    as (_ & _ & _ & Hunused).
  assert (Hd : fst (circuit_breaker.allow_request (clock env (ticks s))
                      (circuit_breaker s)) = false)
    by now apply allow_request_denies_iff.
  pose proof (proj1 (allow_request_rejected (clock env (ticks s))
                       (circuit_breaker s)) Hd) as Hcb.
  unfold _make_request. rewrite Hurl, (Hunused Hu), Hprep.
  rewrite (attempt_numbers_first _ Hmax). cbn [attempt_loop].
  unfold attempt_body, time_time. simpl.
  destruct (circuit_breaker.allow_request (clock env (ticks s))
              (circuit_breaker s)) as [allowed cb].
  simpl in Hd, Hcb. subst allowed cb. simpl.
  eexists. split; [reflexivity |]. simpl. repeat split.
Qed.

(** X23.  A call that does not use the cache (no cache installed,
    [use_cache] unset, or a method other than GET) leaves the cache and
    the client's cache counters as they were, however it ends. *)
Theorem X23_cache_untouched (method endpoint : string)
    (params : option (list (string * A)))
    (headers : option (list (string * string))) (use_cache : bool)
    (s : State) :
  uses_cache method use_cache s = false ->
  let s' :=
    snd (_make_request env self method endpoint params headers use_cache s) in
  cache s' = cache s
  /\ models.cache_hits (_stats s') = models.cache_hits (_stats s)
  /\ models.cache_misses (_stats s') = models.cache_misses (_stats s).
Proof.
  intros Hu s'. subst s'.
  destruct (make_request_cases method endpoint params headers use_cache s)
    as [(e & Hurl & ->) | (url & Hurl & Hcases)]; [now repeat split |].
  cbn zeta in Hcases.
  destruct (cache_lookup_effects env method url params
              (_merge_headers self headers) use_cache s)
    as (_ & _ & _ & Hunused).
  rewrite (Hunused Hu) in Hcases. cbn [fst snd] in Hcases.
  destruct Hcases
    as [(cached & Hhit & Hrun)
       | (Hmiss & [(e & Hprep & ->) | (context & Hprep & ->)])];
    [discriminate | now repeat split |].
  pose proof (attempt_loop_effects env self method url params
                (_merge_headers self headers) use_cache context
                (attempt_numbers (retry.max_attempts (retry_config self)))
                None (set_retry_delays [] (set_retry_count 0 s))) as Hloop.
  cbn zeta in Hloop. destruct Hloop as (_ & _ & Kh & Km & _).
  split; [| split; [exact Kh | exact Km]].
  now rewrite attempt_loop_cache_unused.
Qed.

Lemma unbound_key {V : Type} (d : list (string * V)) (k : string) :
  ~ In k (map fst d) -> Py.lookup k d = None.
Proof.
  induction d as [| [k' v'] d IH]; simpl; [reflexivity |].
  intros Hn. destruct (String.eqb k k') eqn:E.
  - apply String.eqb_eq in E. exfalso. apply Hn. now left.
  - apply IH. intros Hin. apply Hn. now right.
Qed.

Lemma lookup_updated {V : Type} (items acc : list (string * V))
    (k : string) :
  List.NoDup (map fst items) ->
  Py.lookup k
    (fold_left (fun merged '(k, v) => Py.setitem k v merged) items acc)
  = match Py.lookup k items with
    | Some v => Some v
    | None => Py.lookup k acc
    end.
Proof.
  revert acc. induction items as [| [k0 v0] items IH]; intros acc Hn.
  - reflexivity.
  - inversion Hn as [| ? ? Hnotin Hn']; subst. cbn [fold_left Py.lookup].
    rewrite IH by assumption.
    destruct (String.eqb k k0) eqn:E.
    + apply String.eqb_eq in E. subst k0.
      rewrite (unbound_key items k Hnotin). apply lookup_setitem.
    + destruct (Py.lookup k items); [reflexivity |].
      apply lookup_setitem_ne. intros <-.
      now rewrite String.eqb_refl in E.
Qed.

(** X24.  In the headers a request is sent with, a header given to the
    call overrides the client's default of the same name, and every
    default that the call does not name is kept. *)
Theorem X24_merge_headers (headers : option (list (string * string)))
    (key : string) :
  List.NoDup (map fst (cache.items_of headers)) ->
  Py.lookup key (_merge_headers self headers)
  = match Py.lookup key (cache.items_of headers) with
    | Some value => Some value
    | None => Py.lookup key (default_headers self)
    end.
Proof. intros Hn. unfold _merge_headers. now apply lookup_updated. Qed.

End ClientCalls.

(** X20 on a client with [max_retries = 0]: nothing is sent. *)
Lemma X20_bounded_effort_witness :
  client._make_request (A := string) (environment [] 0) (a_client 0)
    "GET" "/u" None None false fresh_state
  = (client.Raised RequestErrorNoCause,
     client.set_retry_delays [] (client.set_retry_count 0 fresh_state)).
Proof.
  destruct (X20_bounded_effort (A := string) (environment [] 0) (a_client 0)
              "GET" "/u" None None false fresh_state)
    as (_ & _ & _ & _ & Hnone & _).
  apply (Hnone ltac:(simpl; lia) eq_refl "https://api.example.com/u"%string
           {| client.context_method := "GET";
              client.context_url := "https://api.example.com/u";
              client.context_headers := [("User-Agent", "RateWise/1.0")] |}
           eq_refl eq_refl).
Defined.

(** X21 on a GET answered by a 500 and then by a 200. *)
Lemma X21_returned_status_is_final_witness :
  let env := environment [inr (response 500 None)] 0 in
  exists s',
    client._make_request (A := string) env (a_client 3) "GET" "/u" None None
      false fresh_state
    = (client.Returned (response 200 None), s')
    /\ (client.sent fresh_state < client.sent s')%Z.
Proof.
  intros env.
  assert (Hrun : exists s',
             client._make_request (A := string) env (a_client 3) "GET" "/u"
               None None false fresh_state
             = (client.Returned (response 200 None), s'))
    by (eexists; vm_compute; reflexivity).
  destruct Hrun as (s' & Hrun). exists s'. split; [exact Hrun |].
  apply (X21_returned_status_is_final (A := string) env (a_client 3)
           "GET" "/u" None None false fresh_state (response 200 None) s'
           ltac:(intros url _; reflexivity) Hrun).
Defined.

(** X22 on a circuit that one failure at time 0 has opened. *)
Lemma X22_open_circuit_rejects_call_witness :
  let s :=
    client.new_state
      (circuit_breaker.record_failure 0 None
         (circuit_breaker.new 1 2 60 None None)) None in
  exists s',
    client._make_request (A := string) (environment [] 0) (a_client 3)
      "GET" "/u" None None true s
    = (client.Raised (CircuitBreakerOpen 1), s')
    /\ client.sent s' = 0%Z
    /\ circuit_breaker.rejected_calls
         (circuit_breaker._metrics (client.circuit_breaker s')) = 1%Z.
Proof.
  intros s.
  assert (Hprep : client.prepare_request (a_client 3) "GET"
                    "https://api.example.com/u"
                    (client._merge_headers (a_client 3) None)
                  = inr {| client.context_method := "GET";
                           client.context_url := "https://api.example.com/u";
                           client.context_headers :=
                             [("User-Agent", "RateWise/1.0")] |})
    by reflexivity.
  destruct (X22_open_circuit_rejects_call (A := string) (environment [] 0)
              (a_client 3) "GET" "/u" "https://api.example.com/u" None None
              true _ s eq_refl eq_refl Hprep ltac:(simpl; lia) eq_refl
              (ex_intro _ 0%Q (conj eq_refl eq_refl)))
    as (s' & Hrun & Hsent & _ & _ & Hrej & _).
  exists s'. split; [exact Hrun |]. split; [exact Hsent | exact Hrej].
Defined.

(** X23 on a POST through a client with a cache. *)
Lemma X23_cache_untouched_witness :
  client.cache
    (snd (client._make_request (A := string) (environment [] 0) (a_client 3)
            "POST" "/u" None None true fresh_state_with_cache))
  = client.cache fresh_state_with_cache.
Proof.
  apply (X23_cache_untouched (A := string) (environment [] 0) (a_client 3)
           "POST" "/u" None None true fresh_state_with_cache eq_refl).
Defined.

(** X24 on a client with two default headers, one of which the call
    overrides. *)
Lemma X24_merge_headers_witness :
  let self :=
    {| client.base_url := "https://api.example.com";
       client.backoff := plain_backoff;
       client.retry_config := retry.default_config 3;
       client.default_headers :=
         [("Accept", "text/plain"); ("X-Trace", "off")]%string;
       client.middleware := default_chain;
       client.log_config := logging.default_config |} in
  Py.lookup "X-Trace"
    (client._merge_headers self (Some [("X-Trace", "on")]%string))
  = Some "on"%string
  /\ Py.lookup "Accept"
       (client._merge_headers self (Some [("X-Trace", "on")]%string))
     = Some "text/plain"%string.
Proof.
  intros self.
  assert (Hn : List.NoDup
                 (map fst (cache.items_of (Some [("X-Trace", "on")]%string)))).
  { simpl. constructor; [intros [] | constructor]. }
  split.
  - apply (X24_merge_headers self (Some [("X-Trace", "on")]%string)
             "X-Trace" Hn).
  - apply (X24_merge_headers self (Some [("X-Trace", "on")]%string)
             "Accept" Hn).
Defined.

(** ** The middleware chain *)

Section MiddlewareFacts.
Import middleware.
Local Open Scope Z_scope.

(** Setting a default under [key]. *)
Lemma lookup_default {V : Type} (key k : string) (value : V)
    (d : list (string * V)) :
  Py.lookup k (if has_key key d then d else Py.setitem key value d)
  = or_default (Py.lookup k d)
      (if String.eqb k key then Some value else None).
Proof.
  unfold has_key, or_default.
  destruct (String.eqb k key) eqn:E.
  - apply String.eqb_eq in E. subst k.
    destruct (Py.lookup key d) as [v |] eqn:El; [exact El |].
    apply lookup_setitem.
  - assert (Hne : k <> key)
      by (intros ->; now rewrite String.eqb_refl in E).
    destruct (Py.lookup key d) eqn:El.
    + now destruct (Py.lookup k d).
    + rewrite (lookup_setitem_ne d k key value Hne).
      now destruct (Py.lookup k d).
Qed.

Lemma lookup_defaults (defaults hs : list (string * string)) (k : string) :
  Py.lookup k
    (fold_left
       (fun hs '(key, value) =>
          if has_key key hs then hs else Py.setitem key value hs)
       defaults hs)
  = or_default (Py.lookup k hs) (Py.lookup k defaults).
Proof.
  revert hs. induction defaults as [| [key value] defaults IH]; intros hs.
  - simpl. unfold or_default. now destruct (Py.lookup k hs).
  - cbn [fold_left Py.lookup]. rewrite IH, lookup_default.
    unfold or_default.
    destruct (Py.lookup k hs); [reflexivity |].
    now destruct (String.eqb k key).
Qed.

Lemma user_agent_request (user_agent : string) (now : Q)
    (context : RequestContext) :
  let context' := process_request (UserAgentMiddleware user_agent) now context in
  (forall k,
      Py.lookup k (headers context')
      = or_default (Py.lookup k (headers context))
          (if String.eqb k "User-Agent" then Some user_agent else None))
  /\ method context' = method context /\ url context' = url context
  /\ params context' = params context /\ body context' = body context
  /\ timeout context' = timeout context
  /\ metadata context' = metadata context
  /\ start_time context' = start_time context.
Proof.
  cbn [process_request UserAgentMiddleware]. split.
  - intros k. rewrite <- lookup_default.
    now destruct (has_key "User-Agent" (headers context)).
  - destruct (has_key "User-Agent" (headers context)); repeat split.
Qed.

Lemma content_type_request (content_type : string) (now : Q)
    (context : RequestContext) :
  let context' :=
    process_request (ContentTypeMiddleware content_type) now context in
  (forall k,
      Py.lookup k (headers context')
      = or_default (Py.lookup k (headers context))
          (match body context with
           | Some _ =>
               if String.eqb k "Content-Type" then Some content_type
               else None
           | None => None
           end))
  /\ method context' = method context /\ url context' = url context
  /\ params context' = params context /\ body context' = body context
  /\ timeout context' = timeout context
  /\ metadata context' = metadata context
  /\ start_time context' = start_time context.
Proof.
  cbn [process_request ContentTypeMiddleware].
  destruct (body context) eqn:Eb.
  - split.
    + intros k. rewrite <- lookup_default.
      now destruct (has_key "Content-Type" (headers context)).
    + destruct (has_key "Content-Type" (headers context)); simpl;
        repeat split; assumption.
  - split; [| repeat split; assumption].
    intros k. unfold or_default. now destruct (Py.lookup k (headers context)).
Qed.

(** The metadata after the request pass of the default chain. *)
Lemma default_chain_metadata (clock : nat -> Q) (context : RequestContext) :
  metadata
    (chain_process_request clock create_default_middleware_chain context)
  = Py.setitem "timing_start" (MetaFloat (clock 0%nat)) (metadata context).
Proof.
  unfold chain_process_request, create_default_middleware_chain.
  cbn [request_pass].
  set (c1 := process_request TimingMiddleware (clock 0%nat) context).
  destruct (user_agent_request "RateWise/1.0" (clock 1%nat) c1)
    as (_ & _ & _ & _ & _ & _ & Hd2 & _).
  set (c2 := process_request (UserAgentMiddleware "RateWise/1.0")
               (clock 1%nat) c1) in *.
  destruct (content_type_request "application/json" (clock 2%nat) c2)
    as (_ & _ & _ & _ & _ & _ & Hd3 & _).
  cbn zeta in *.
  change (process_request LoggingMiddleware (clock 3%nat) ?c) with c.
  now rewrite Hd3, Hd2.
Qed.

End MiddlewareFacts.

(** X25.  The request pass of the default chain changes only the headers
    and the metadata.  It records the clock reading of its first
    middleware under [timing_start]; it keeps every header the context
    has, adds [User-Agent: RateWise/1.0] if there is none and
    [Content-Type: application/json] if there is none and the request has
    a body, and adds no other header. *)
Theorem X25_default_chain_request (clock : nat -> Q)
    (context : middleware.RequestContext) :
  let context' :=
    middleware.chain_process_request clock
      middleware.create_default_middleware_chain context in
  middleware.method context' = middleware.method context
  /\ middleware.url context' = middleware.url context
  /\ middleware.params context' = middleware.params context
  /\ middleware.body context' = middleware.body context
  /\ middleware.timeout context' = middleware.timeout context
  /\ middleware.start_time context' = middleware.start_time context
  /\ middleware.metadata context'
     = Py.setitem "timing_start" (middleware.MetaFloat (clock 0%nat))
         (middleware.metadata context)
  /\ forall k,
      Py.lookup k (middleware.headers context')
      = or_default (Py.lookup k (middleware.headers context))
          (if String.eqb k "User-Agent" then Some "RateWise/1.0"%string
           else if String.eqb k "Content-Type" then
                  match middleware.body context with
                  | Some _ => Some "application/json"%string
                  | None => None
                  end
                else None).
Proof.
  intros context'. subst context'.
  unfold middleware.chain_process_request,
    middleware.create_default_middleware_chain.
  cbn [middleware.request_pass].
  change (middleware.process_request middleware.LoggingMiddleware
            (clock 3%nat) ?c) with c.
  set (c1 := middleware.process_request middleware.TimingMiddleware
               (clock 0%nat) context).
  destruct (user_agent_request "RateWise/1.0" (clock 1%nat) c1)
    as (Hh2 & Hm2 & Hu2 & Hp2 & Hb2 & Ht2 & Hd2 & Hs2).
  set (c2 := middleware.process_request
               (middleware.UserAgentMiddleware "RateWise/1.0")
               (clock 1%nat) c1) in *.
  destruct (content_type_request "application/json" (clock 2%nat) c2)
    as (Hh3 & Hm3 & Hu3 & Hp3 & Hb3 & Ht3 & Hd3 & Hs3).
  set (c3 := middleware.process_request
               (middleware.ContentTypeMiddleware "application/json")
               (clock 2%nat) c2) in *.
  cbn zeta in *.
  change (middleware.process_request middleware.LoggingMiddleware
            (clock 3%nat) c3) with c3.
  rewrite Hm3, Hu3, Hp3, Hb3, Ht3, Hd3, Hs3, Hm2, Hu2, Hp2, Hb2, Ht2, Hd2, Hs2.
  repeat (split; [reflexivity |]).
  intros k. rewrite Hh3, Hh2, Hb2.
  change (middleware.headers c1) with (middleware.headers context).
  change (middleware.body c1) with (middleware.body context).
  unfold or_default.
  destruct (Py.lookup k (middleware.headers context)); [reflexivity |].
  destruct (String.eqb k "User-Agent") eqn:Eu; [reflexivity |].
  destruct (String.eqb k "Content-Type"), (middleware.body context);
    reflexivity.
Qed.

(** X26.  The response pass of the default chain, run on a request that
    went through its request pass, succeeds.  It leaves status, headers
    and body of the response, sets [elapsed] to the time between the
    first middleware of the request pass and the last one of the response
    pass, and records the response's [Content-Type] header (or the empty
    string) and whether it mentions [application/json] in the metadata.
    On a request whose [timing_start] is a string the pass fails. *)
Theorem X26_default_chain_response (clock0 clock : nat -> Q)
    (context : middleware.RequestContext)
    (response : middleware.ResponseContext) :
  let chain := middleware.create_default_middleware_chain in
  let content_type :=
    match Py.lookup "Content-Type" (middleware.response_headers response) with
    | Some v => v
    | None => EmptyString
    end in
  (exists response',
      middleware.chain_process_response clock chain
        (middleware.chain_process_request clock0 chain context) response
      = Some response'
      /\ middleware.elapsed response' = (clock 3%nat - clock0 0%nat)%Q
      /\ middleware.status_code response' = middleware.status_code response
      /\ middleware.response_headers response'
         = middleware.response_headers response
      /\ middleware.response_body response'
         = middleware.response_body response
      /\ Py.lookup "content_type" (middleware.response_metadata response')
         = Some (middleware.MetaStr content_type)
      /\ Py.lookup "is_json" (middleware.response_metadata response')
         = Some (middleware.MetaBool
                   (Py.contains "application/json" content_type)))
  /\ (forall text,
         Py.lookup "timing_start" (middleware.metadata context)
         = Some (middleware.MetaStr text) ->
         middleware.chain_process_response clock chain context response
         = None).
Proof.
  intros chain content_type. split.
  - pose proof (default_chain_metadata clock0 context) as Hmeta.
    unfold chain, middleware.chain_process_response,
      middleware.create_default_middleware_chain.
    cbn [rev app middleware.response_pass middleware.process_response
           middleware.LoggingMiddleware middleware.ContentTypeMiddleware
           middleware.UserAgentMiddleware middleware.TimingMiddleware].
    fold middleware.create_default_middleware_chain.
    rewrite Hmeta, lookup_setitem.
    eexists. split; [reflexivity |]. cbn.
    repeat split.
    + fold content_type.
      rewrite lookup_setitem_ne by discriminate. apply lookup_setitem.
    + apply lookup_setitem.
  - intros text Htext.
    unfold chain, middleware.chain_process_response,
      middleware.create_default_middleware_chain.
    cbn [rev app middleware.response_pass middleware.process_response
           middleware.LoggingMiddleware middleware.ContentTypeMiddleware
           middleware.UserAgentMiddleware middleware.TimingMiddleware].
    now rewrite Htext.
Qed.

(** X27.  [HeaderMiddleware] never overrides: after its request pass a
    header the context already had keeps its value, a header the context
    lacked has the middleware's default if there is one, and nothing else
    is added; the rest of the context and the response pass through
    unchanged. *)
Theorem X27_header_middleware (defaults : list (string * string)) (now : Q)
    (context : middleware.RequestContext)
    (response : middleware.ResponseContext) :
  let mw := middleware.HeaderMiddleware defaults in
  let context' := middleware.process_request mw now context in
  (forall k,
      Py.lookup k (middleware.headers context')
      = or_default (Py.lookup k (middleware.headers context))
          (Py.lookup k defaults))
  /\ middleware.with_headers (middleware.headers context) context' = context
  /\ middleware.process_response mw now context' response = Some response.
Proof.
  intros mw context'. split; [| split].
  - intros k. apply lookup_defaults.
  - now destruct context.
  - reflexivity.
Qed.
